(** * AO3 terminal reader: extraction, reconstruction, formatting and paging

    A shallow embedding of [ao3_reader.py] (class [AO3Reader] and [main]).

    - Python [str] values are sequences of Unicode code points: [str] is
      [list N], so [len] is [length] and slicing is [firstn]/[skipn].
    - Python [int] values are [Z].
    - The BeautifulSoup document is a tree of [Tag], [NavigableString] and
      [Comment] nodes; the in-place rewrites of [read_work] are tree
      transformations.
    - Exceptions are values of [result]; [try]/[except] is [try_except].
    - Terminal input is a stream of [input_ev]; terminal output a list of
      [out_ev]. *)

From Stdlib Require Import List ZArith NArith Bool Lia String Ascii.
From Stdlib Require DecimalString DecimalPos.
Import ListNotations.
#[local] Set Warnings "-register-all".

Abbreviation length := List.length (only parsing).
Abbreviation concat := List.concat (only parsing).

(** ** Python strings *)

Module PyStr.

Definition char := N.
Definition str := list char.

(** ASCII literals of the source, as code points. *)
Fixpoint lit (s : string) : str :=
  match s with
  | EmptyString => []
  | String a s' => N_of_ascii a :: lit s'
  end.

Fixpoint str_eqb (a b : str) : bool :=
  match a, b with
  | [], [] => true
  | x :: a', y :: b' => N.eqb x y && str_eqb a' b'
  | _, _ => false
  end.

Definition NL : char := 10%N.
Definition SP : char := 32%N.
Definition HYPHEN : char := 45%N.

(** [str.isspace] on one code point (CPython's [_PyUnicode_IsWhitespace]);
    this is also the class [\s] of [re] on [str] patterns. *)
Definition isspace (c : char) : bool :=
  ((9 <=? c) && (c <=? 13) || (28 <=? c) && (c <=? 32) || (c =? 133)
   || (c =? 160) || (c =? 5760) || (8192 <=? c) && (c <=? 8202)
   || (c =? 8232) || (c =? 8233) || (c =? 8239) || (c =? 8287)
   || (c =? 12288))%N.

Fixpoint lstrip (s : str) : str :=
  match s with
  | [] => []
  | c :: s' => if isspace c then lstrip s' else s
  end.

Definition rstrip (s : str) : str := rev (lstrip (rev s)).

(** [s.strip()] *)
Definition strip (s : str) : str := rstrip (lstrip s).

(** [s.lower()] on the ASCII letters.  The program only compares lowered
    input with ['q'], ['b'] and ['n'], which no other code point lowers to,
    and passes it to [int], which accepts no cased character and none that
    a cased character lowers to. *)
Definition lower_char (c : char) : char :=
  if ((65 <=? c) && (c <=? 90))%N then (c + 32)%N else c.

Definition lower (s : str) : str := map lower_char s.

(** [s.split(sep)] for a one-character separator: never empty. *)
Fixpoint split (sep : char) (s : str) : list str :=
  match s with
  | [] => [[]]
  | c :: s' =>
      if N.eqb c sep then [] :: split sep s'
      else match split sep s' with
           | [] => [[c]]
           | p :: ps => (c :: p) :: ps
           end
  end.

(** [sep.join(parts)] *)
Fixpoint join (sep : str) (parts : list str) : str :=
  match parts with
  | [] => []
  | [p] => p
  | p :: ps => p ++ sep ++ join sep ps
  end.

(** [c * n] for a one-character string: empty when [n <= 0]. *)
Definition times (c : char) (n : Z) : str := repeat c (Z.to_nat n).

(** [str(n)] / [f"{n}"] for an [int]. *)
Definition str_of_int (n : Z) : str :=
  lit (DecimalString.NilZero.string_of_int (Z.to_int n)).

(** [s[:n]] for [n >= 0]. *)
Definition take (n : nat) (s : str) : str := firstn n s.

End PyStr.
Import PyStr.

(** ** Exceptions *)

Inductive exn :=
| KeyError (key : str)
| ValueError
| IndexError
| EOFError
| KeyboardInterrupt.

Inductive result (A : Type) :=
| Ok (a : A)
| Raise (e : exn).
Arguments Ok {A} a.
Arguments Raise {A} e.

Definition bind {A B} (m : result A) (k : A -> result B) : result B :=
  match m with
  | Ok a => k a
  | Raise e => Raise e
  end.

Notation "x <- m ;; k" := (bind m (fun x => k))
  (at level 61, m at next level, right associativity).

(** [except Exception]: every exception but [KeyboardInterrupt] (a
    [BaseException]) is an [Exception]. *)
Definition is_Exception (e : exn) : bool :=
  match e with
  | KeyboardInterrupt => false
  | _ => true
  end.

(** [try: m  except Exception: h] *)
Definition try_except {A} (m : result A) (h : exn -> result A) : result A :=
  match m with
  | Ok a => Ok a
  | Raise e => if is_Exception e then h e else Raise e
  end.

(** ** The BeautifulSoup document tree *)

Module Bs4.

(** Attribute values are kept as written in the markup; the attributes that
    bs4 stores as lists ([class] everywhere, [rel] on [a]) are split on
    whitespace when they are matched.  [Comment] stands for the string
    nodes that [get_text] leaves out (comments, declarations, processing
    instructions). *)
Inductive node :=
| Tag (name : str) (attrs : list (str * str)) (contents : list node)
| NavigableString (s : str)
| Comment (s : str).

(** [tag.descendants]: document order, the tag itself excluded. *)
Fixpoint descendants (n : node) : list node :=
  match n with
  | Tag _ _ cs => flat_map (fun c => c :: descendants c) cs
  | _ => []
  end.

Fixpoint lookup (key : str) (d : list (str * str)) : option str :=
  match d with
  | [] => None
  | (k, v) :: d' => if str_eqb k key then Some v else lookup key d'
  end.

Definition attrs_of (n : node) : list (str * str) :=
  match n with
  | Tag _ a _ => a
  | _ => []
  end.

(** [tag.get(key)] *)
Definition get (n : node) (key : str) : option str := lookup key (attrs_of n).

(** [tag.get(key, default)] *)
Definition get_default (n : node) (key default : str) : str :=
  match get n key with
  | Some v => v
  | None => default
  end.

(** [tag[key]] *)
Definition getitem (n : node) (key : str) : result str :=
  match get n key with
  | Some v => Ok v
  | None => Raise (KeyError key)
  end.

(** The tokens of a list-valued attribute (bs4 keeps [\S+] matches). *)
Fixpoint tokens_aux (cur : str) (s : str) : list str :=
  match s with
  | [] => match cur with [] => [] | _ => [rev cur] end
  | c :: s' =>
      if isspace c
      then match cur with
           | [] => tokens_aux [] s'
           | _ => rev cur :: tokens_aux [] s'
           end
      else tokens_aux (c :: cur) s'
  end.

Definition tokens (s : str) : list str := tokens_aux [] s.

Definition is_list_attr (tag key : str) : bool :=
  str_eqb key (lit "class")
  || (str_eqb tag (lit "a") && str_eqb key (lit "rel")).

(** One keyword filter of [find_all], e.g. [class_='work']. *)
Definition attr_matches (tag : str) (attrs : list (str * str))
           (flt : str * str) : bool :=
  let '(key, wanted) := flt in
  match lookup key attrs with
  | None => false
  | Some v =>
      if is_list_attr tag key
      then existsb (str_eqb wanted) (tokens v)
           || str_eqb (join [SP] (tokens v)) wanted
      else str_eqb v wanted
  end.

Definition matches (names : list str) (flts : list (str * str))
           (n : node) : bool :=
  match n with
  | Tag name attrs _ =>
      existsb (str_eqb name) names && forallb (attr_matches name attrs) flts
  | _ => false
  end.

(** [tag.find_all(names, **flts)] *)
Definition find_all (n : node) (names : list str) (flts : list (str * str))
  : list node :=
  filter (matches names flts) (descendants n).

(** [tag.find(name, **flts)] *)
Definition find (n : node) (name : str) (flts : list (str * str))
  : option node :=
  match find_all n [name] flts with
  | [] => None
  | x :: _ => Some x
  end.

Definition text_of (n : node) : str :=
  match n with
  | NavigableString s => s
  | _ => []
  end.

(** [tag.get_text()]: the [NavigableString] descendants, concatenated. *)
Definition get_text (n : node) : str :=
  match n with
  | Tag _ _ _ => List.concat (map text_of (descendants n))
  | NavigableString s => s
  | Comment s => s
  end.

End Bs4.
Import Bs4.

(** ** Search results: [AO3Reader.parse_search_results] *)

(** The dictionary appended to [works]: one field per key. *)
Record WorkRecord := {
  title : str;
  authors : list str;
  fandoms : list str;
  rating : str;
  warnings : list str;
  kudos : str;
  words : str;
  chapters : str;
  hits : str;
  summary : str;
  tags : list str;
  url : str
}.

Definition base_url : str := lit "https://archiveofourown.org".

(** [x.get_text().strip()] *)
Definition stripped_text (n : node) : str := strip (get_text n).

(** [dd.get_text().strip() if dd else "N/A"] for one [dd] of the stats. *)
Definition stat (stats : node) (cls : str) : str :=
  match find stats (lit "dd") [(lit "class", cls)] with
  | Some dd => stripped_text dd
  | None => lit "N/A"
  end.

Definition nonempty {A} (l : list A) : bool :=
  match l with
  | [] => false
  | _ => true
  end.

(** [# Rating and warnings]: the pair [(rating, warnings)]. *)
Definition rating_and_warnings (item : node) : str * list str :=
  match find item (lit "ul") [(lit "class", lit "required-tags")] with
  | Some required_tags =>
      (match find required_tags (lit "span") [(lit "class", lit "rating")] with
       | Some rating_span =>
           get_default rating_span (lit "title") (lit "Not Rated")
       | None => lit "Not Rated"
       end,
       map (fun w => get_default w (lit "title") [])
           (filter (fun w => match get w (lit "title") with
                             | Some t => nonempty t
                             | None => false
                             end)
                   (find_all required_tags [lit "span"]
                             [(lit "class", lit "warnings")])))
  | None => (lit "Not Rated", [])
  end.

(** [# Summary] *)
Definition summary_of (item : node) : str :=
  match find item (lit "blockquote") [(lit "class", lit "userstuff")] with
  | Some summary_block => take 150 (stripped_text summary_block) ++ lit "..."
  | None => []
  end.

(** [# Tags] *)
Definition tags_of (item : node) : list str :=
  match find item (lit "ul") [(lit "class", lit "tags")] with
  | Some tag_list =>
      map stripped_text
          (firstn 5 (find_all tag_list [lit "a"] [(lit "class", lit "tag")]))
  | None => []
  end.

Section Parse.

(** The two library entry points the parser goes through:
    [BeautifulSoup(html, 'html.parser')] and [urllib.parse.urljoin], which
    raises [ValueError] on some malformed references ([None] here). *)
Variable BeautifulSoup : str -> node.
Variable urljoin : str -> str -> option str.

(** The body of the [try] block up to [works.append]: the record of one
    item; [Ok None] is the [continue] of a missing heading. *)
Definition work_record (item : node) : result (option WorkRecord) :=
  match find item (lit "h4") [(lit "class", lit "heading")] with
  | None => Ok None
  | Some heading =>
      let title_link := find heading (lit "a") [] in
      let title :=
        match title_link with
        | Some a => stripped_text a
        | None => lit "Unknown Title"
        end in
      work_url <-
        match title_link with
        | Some a =>
            href <- getitem a (lit "href") ;;
            match urljoin base_url href with
            | Some u => Ok u
            | None => Raise ValueError
            end
        | None => Ok []
        end ;;
      let author_links :=
        find_all heading [lit "a"] [(lit "rel", lit "author")] in
      let authors :=
        if nonempty author_links then map stripped_text author_links
        else [lit "Unknown Author"] in
      let fandoms :=
        match find item (lit "h5") [(lit "class", lit "fandoms")] with
        | Some fandom_tags =>
            map stripped_text (find_all fandom_tags [lit "a"] [])
        | None => []
        end in
      let '(rating, warnings) := rating_and_warnings item in
      let '(kudos, words, chapters, hits) :=
        match find item (lit "dl") [(lit "class", lit "stats")] with
        | Some stats =>
            (stat stats (lit "kudos"), stat stats (lit "words"),
             stat stats (lit "chapters"), stat stats (lit "hits"))
        | None => (lit "N/A", lit "N/A", lit "N/A", lit "N/A")
        end in
      Ok (Some {| title := title; authors := authors; fandoms := fandoms;
                  rating := rating; warnings := warnings; kudos := kudos;
                  words := words; chapters := chapters; hits := hits;
                  summary := summary_of item; tags := tags_of item;
                  url := work_url |})
  end.

(** The whole [try] block for one item, [works] being the list built so
    far: the append is its last statement. *)
Definition extract_item (item : node) (works : list WorkRecord)
  : result (list WorkRecord) :=
  r <- work_record item ;;
  match r with
  | Some r => Ok (works ++ [r])
  | None => Ok works
  end.

(** [for item in work_items: try: ... except Exception as e: continue] *)
Fixpoint parse_items (work_items : list node) (works : list WorkRecord)
  : result (list WorkRecord) :=
  match work_items with
  | [] => Ok works
  | item :: rest =>
      works' <- try_except (extract_item item works) (fun _ => Ok works) ;;
      parse_items rest works'
  end.

Definition work_items (soup : node) : list node :=
  find_all soup [lit "li"] [(lit "class", lit "work")].

Definition parse_search_results (html : str) : result (list WorkRecord) :=
  let soup := BeautifulSoup html in
  parse_items (work_items soup) [].

End Parse.

(** ** Chapter text: the rewrites of [AO3Reader.read_work] *)

Definition named (names : list str) (n : node) : bool := matches names [] n.

(** [for elem in root(names): elem.decompose()]: every descendant with one
    of the names leaves the tree, with all it contains. *)
Fixpoint decompose_all (names : list str) (n : node) : node :=
  match n with
  | Tag nm a cs =>
      Tag nm a (flat_map (fun c => if named names c then []
                                   else [decompose_all names c]) cs)
  | _ => n
  end.

(** [for p in root.find_all(name): p.insert_after(txt)]: every descendant
    with that name gets the string as its next sibling. *)
Fixpoint insert_after_all (name : str) (txt : str) (n : node) : node :=
  match n with
  | Tag nm a cs =>
      Tag nm a (flat_map (fun c =>
                            if named [name] c
                            then [insert_after_all name txt c; NavigableString txt]
                            else [insert_after_all name txt c]) cs)
  | _ => n
  end.

(** [for x in root.find_all(name): x.replace_with(txt)]: every descendant
    with that name is replaced, with all it contains, by the string. *)
Fixpoint replace_all (name : str) (txt : str) (n : node) : node :=
  match n with
  | Tag nm a cs =>
      Tag nm a (map (fun c => if named [name] c then NavigableString txt
                              else replace_all name txt c) cs)
  | _ => n
  end.

(** ['\n' + '-' * 40 + '\n'] *)
Definition rule : str := [NL] ++ times HYPHEN 40 ++ [NL].

(** Lines 343-361: the four rewrites of the content node, then
    [get_text]. *)
Definition chapter_text_of (chapter_content : node) : str :=
  let c1 := decompose_all [lit "script"; lit "style"] chapter_content in
  let c2 := insert_after_all (lit "p") [NL; NL] c1 in
  let c3 := replace_all (lit "br") [NL] c2 in
  let c4 := replace_all (lit "hr") rule c3 in
  get_text c4.

(** [chapter_text] of [read_work]: empty when the page has no content
    node. *)
Definition read_chapter_text (soup : node) : str :=
  match find soup (lit "div") [(lit "class", lit "userstuff")] with
  | Some chapter_content => chapter_text_of chapter_content
  | None => []
  end.

(** What a node inside a tag adds to the tag's [get_text]. *)
Definition inner_text (n : node) : str :=
  text_of n ++ concat (map text_of (descendants n)).

(** The four rewrites on the children of the content node. *)
Definition non_content : list str := [lit "script"; lit "style"].

Definition rewritten (cs : list node) : list node :=
  map (fun c => if named [lit "hr"] c then NavigableString rule
                else replace_all (lit "hr") rule c)
      (map (fun c => if named [lit "br"] c then NavigableString [NL]
                     else replace_all (lit "br") [NL] c)
           (flat_map (fun c => if named [lit "p"] c
                               then [insert_after_all (lit "p") [NL; NL] c;
                                     NavigableString [NL; NL]]
                               else [insert_after_all (lit "p") [NL; NL] c])
                     (flat_map (fun c => if named non_content c then []
                                         else [decompose_all non_content c])
                               cs))).

(** The reconstruction as the specification words it, node by node: script
    and style contribute nothing, a line break is one newline, a horizontal
    rule is the dashed separator, a paragraph is its content followed by a
    blank line, any other element is its content. *)
Fixpoint reconstruct_spec (n : node) : str :=
  match n with
  | NavigableString s => s
  | Comment _ => []
  | Tag nm _ cs =>
      if existsb (str_eqb nm) [lit "script"; lit "style"] then []
      else if str_eqb nm (lit "br") then [NL]
      else if str_eqb nm (lit "hr") then rule
      else flat_map reconstruct_spec cs
           ++ (if str_eqb nm (lit "p") then [NL; NL] else [])
  end.

(** ** Terminal size *)

(** [AO3Reader.__init__]: [columns] is the [--columns] option ([None] when
    absent); [detected] is [os.get_terminal_size().columns], [None] when the
    call raises. *)
Definition terminal_width (columns detected : option Z) : Z :=
  match columns with
  | Some c => if Z.eqb c 0 then
                match detected with Some d => d | None => 80%Z end
              else c
  | None => match detected with Some d => d | None => 80%Z end
  end.

(** The [width] argument of the [textwrap.fill] call in
    [format_content_for_pager]. *)
Definition wrap_width (terminal_width : Z) : Z := (terminal_width - 4)%Z.

(** ** [textwrap.fill]

    CPython's [textwrap.TextWrapper] with the options of the call in
    [format_content_for_pager]: empty indents, [expand_tabs],
    [replace_whitespace], [drop_whitespace], [break_long_words] and
    [break_on_hyphens] on, [tabsize] 8, no [max_lines]. *)

Module Textwrap.

Open Scope Z_scope.

Definition len (s : str) : Z := Z.of_nat (List.length s).

(** [text.expandtabs(tabsize)] *)
Fixpoint expandtabs_from (tabsize col : nat) (s : str) : str :=
  match s with
  | [] => []
  | c :: s' =>
      if N.eqb c 9 then
        let incr := (tabsize - col mod tabsize)%nat in
        repeat SP incr ++ expandtabs_from tabsize (col + incr) s'
      else if N.eqb c 10 || N.eqb c 13 then c :: expandtabs_from tabsize 0 s'
      else c :: expandtabs_from tabsize (S col) s'
  end.

(** The characters of [textwrap._whitespace], each translated to a space. *)
Definition is_ws (c : char) : bool :=
  ((9 <=? c) && (c <=? 13) || (c =? 32))%N.

Definition munge_whitespace (text : str) : str :=
  map (fun c => if is_ws c then SP else c) (expandtabs_from 8 0 text).

(** The inner [while chunks:] of [_wrap_chunks]: chunks move to the current
    line as long as they fit. *)
Fixpoint take_fitting (width : Z) (chunks cur_line : list str) (cur_len : Z)
  : list str * list str * Z :=
  match chunks with
  | [] => ([], cur_line, cur_len)
  | c :: rest =>
      if cur_len + len c <=? width
      then take_fitting width rest (cur_line ++ [c]) (cur_len + len c)
      else (chunks, cur_line, cur_len)
  end.

Fixpoint rfind_from (c : char) (s : str) (i last : Z) : Z :=
  match s with
  | [] => last
  | x :: s' => rfind_from c s' (i + 1) (if N.eqb x c then i else last)
  end.

(** [s.rfind(c, 0, stop)] for [stop >= 0]. *)
Definition rfind (c : char) (s : str) (stop : Z) : Z :=
  rfind_from c (firstn (Z.to_nat stop) s) 0 (-1).

(** [_handle_long_word] with [break_long_words]: the head of [chunks] is
    [reversed_chunks[-1]]. *)
Definition handle_long_word (chunks cur_line : list str) (cur_len width : Z)
  : list str * list str :=
  let space_left := if width <? 1 then 1 else width - cur_len in
  match chunks with
  | [] => (chunks, cur_line)
  | chunk :: rest =>
      let hyphen := rfind HYPHEN chunk space_left in
      let end_ :=
        if (space_left <? len chunk) && (0 <? hyphen)
           && existsb (fun c => negb (N.eqb c HYPHEN))
                      (firstn (Z.to_nat hyphen) chunk)
        then hyphen + 1 else space_left in
      (skipn (Z.to_nat end_) chunk :: rest,
       cur_line ++ [firstn (Z.to_nat end_) chunk])
  end.

Definition blank (s : str) : bool := negb (nonempty (strip s)).

(** [del cur_line[-1]] when the last chunk of the line is whitespace. *)
Definition drop_trailing_blank (cur_line : list str) : list str :=
  match rev cur_line with
  | last :: _ => if blank last then removelast cur_line else cur_line
  | [] => cur_line
  end.

(** One pass of the outer [while chunks:] of [_wrap_chunks], on a non-empty
    stack: the chunks left and the lines so far. *)
Definition wrap_line (width : Z) (chunks lines : list str)
  : list str * list str :=
  let chunks1 :=
    match chunks with
    | first :: rest => if blank first && nonempty lines then rest else chunks
    | [] => chunks
    end in
  let '(chunks2, cur_line, cur_len) := take_fitting width chunks1 [] 0 in
  let '(chunks3, cur_line3) :=
    match chunks2 with
    | c :: _ => if width <? len c
                then handle_long_word chunks2 cur_line cur_len width
                else (chunks2, cur_line)
    | [] => (chunks2, cur_line)
    end in
  let cur_line4 := drop_trailing_blank cur_line3 in
  (chunks3, if nonempty cur_line4 then lines ++ [List.concat cur_line4] else lines).

(** The outer loop; [None] when [fuel] passes do not empty the stack. *)
Fixpoint wrap_loop (fuel : nat) (width : Z) (chunks lines : list str)
  : option (list str) :=
  match chunks with
  | [] => Some lines
  | _ :: _ =>
      match fuel with
      | O => None
      | S fuel' =>
          let '(chunks', lines') := wrap_line width chunks lines in
          wrap_loop fuel' width chunks' lines'
      end
  end.

(** A line no longer than the width. *)
Definition fits (width : Z) (l : str) : Prop := len l <= width.

(** Every pass removes a chunk or shortens one ([wrap_loop_total]). *)
Definition measure (chunks : list str) : nat :=
  (List.length (List.concat chunks) + List.length chunks)%nat.

Section Wrapper.

(** [wordsep_re.split]: the hyphen- and dash-aware word splitter of
    [TextWrapper._split], a regular expression of the library. *)
Variable wordsep_re_split : str -> list str.

(** [_split_chunks]: munge, split, drop the empty chunks. *)
Definition split_chunks (text : str) : list str :=
  filter (fun c => nonempty c) (wordsep_re_split (munge_whitespace text)).

(** [_wrap_chunks]; with [0 < width] the loop always ends
    ([wrap_loop_total]), so the last branch is never taken. *)
Definition wrap_chunks (width : Z) (chunks : list str) : result (list str) :=
  if width <=? 0 then Raise ValueError
  else match wrap_loop (S (measure chunks)) width chunks [] with
       | Some lines => Ok lines
       | None => Ok []
       end.

Definition wrap (text : str) (width : Z) : result (list str) :=
  wrap_chunks width (split_chunks text).

(** [textwrap.fill(text, width=width)] *)
Definition fill (text : str) (width : Z) : result str :=
  lines <- wrap text width ;; Ok (join [NL] lines).

End Wrapper.

(** The splitter without hyphen rules ([wordsep_simple_re]): maximal runs
    of spaces and of other characters.  Used to run the wrapper on
    examples. *)
Fixpoint runs_from (cur : str) (s : str) : list str :=
  match s with
  | [] => [rev cur]
  | c :: s' =>
      match cur with
      | [] => runs_from [c] s'
      | d :: _ =>
          if Bool.eqb (is_ws c) (is_ws d) then runs_from (c :: cur) s'
          else rev cur :: runs_from [c] s'
      end
  end.

Definition simple_split (s : str) : list str := runs_from [] s.

End Textwrap.

(** ** Chapter layout: [AO3Reader.format_content_for_pager] *)

(** The number of characters, after a newline, that the leftmost-longest
    match of [\s*\n] takes: up to the last newline of the whitespace run. *)
Fixpoint blank_run (s : str) : option nat :=
  match s with
  | [] => None
  | c :: s' =>
      if isspace c then
        match blank_run s' with
        | Some k => Some (S k)
        | None => if N.eqb c NL then Some 1%nat else None
        end
      else None
  end.

(** [re.split(r'\n\s*\n', s)]: [skip] characters of the current match are
    still to be passed over, [cur] is the piece being read, reversed. *)
Fixpoint re_split_from (skip : nat) (cur : str) (s : str) : list str :=
  match s with
  | [] => [rev cur]
  | c :: s' =>
      match skip with
      | S k => re_split_from k cur s'
      | O =>
          if N.eqb c NL then
            match blank_run s' with
            | Some k => rev cur :: re_split_from k [] s'
            | None => re_split_from 0 (c :: cur) s'
            end
          else re_split_from 0 (c :: cur) s'
      end
  end.

Definition re_split_blank_lines (s : str) : list str := re_split_from 0 [] s.

(** [paragraphs] of the formatter, with the [if paragraph.strip()] test of
    the loop applied. *)
Definition paragraphs (chapter_text : str) : list str :=
  filter (fun p => nonempty (strip p))
         (re_split_blank_lines (strip chapter_text)).

(** [' '.join(line.strip() for line in paragraph.split('\n') if line.strip())] *)
Definition paragraph_text (paragraph : str) : str :=
  join [SP] (map strip (filter (fun l => nonempty (strip l))
                               (split NL paragraph))).

(** Plain text as the specification pictures it: paragraphs that start and
    end with a visible character and hold no blank line, joined by
    one blank line. *)
Fixpoint ends_visible (s : str) : bool :=
  match s with
  | [] => true
  | [c] => negb (isspace c)
  | _ :: s' => ends_visible s'
  end.

Definition clean_paragraph (p : str) : bool :=
  match p with
  | c :: _ => negb (isspace c)
  | [] => false
  end
  && ends_visible p
  && match re_split_blank_lines p with
     | [q] => str_eqb q p
     | _ => false
     end.

Definition plain_text (ps : list str) : str := join [NL; NL] ps.

Definition emoji_books : str := [128218%N].
Definition emoji_writing : str := [9997%N; 65039%N].
Definition emoji_book : str := [128214%N].
Definition emoji_page : str := [128196%N].

Definition chapter_line (chapter total_chapters : Z) : str :=
  emoji_book ++ lit " Chapter " ++ str_of_int chapter ++ lit " of "
  ++ str_of_int total_chapters ++ [NL].

(** The strings added to [formatted_text] by the header, one per [+=]. *)
Definition header_block (separator title author : str)
           (chapter total_chapters : Z) : list str :=
  [separator ++ [NL];
   emoji_books ++ lit " " ++ title ++ [NL];
   emoji_writing ++ lit "  By " ++ author ++ [NL]]
  ++ (if (1 <? total_chapters)%Z
      then [chapter_line chapter total_chapters]
      else [])
  ++ [separator ++ [NL; NL]].

Definition next_hint (chapter : Z) : str :=
  emoji_page ++ lit " Use --chapter " ++ str_of_int (chapter + 1)
  ++ lit " to read next chapter" ++ [NL].

Definition previous_hint (chapter : Z) : str :=
  emoji_page ++ lit " Use --chapter " ++ str_of_int (chapter - 1)
  ++ lit " to read previous chapter" ++ [NL].

(** The strings added to [formatted_text] by the footer, one per [+=]. *)
Definition footer_block (separator : str) (chapter total_chapters : Z)
  : list str :=
  if (1 <? total_chapters)%Z then
    [[NL] ++ separator ++ [NL]]
    ++ (if (chapter <? total_chapters)%Z then [next_hint chapter] else [])
    ++ (if (1 <? chapter)%Z then [previous_hint chapter] else [])
    ++ [separator ++ [NL]]
  else [].

Section Formatter.

Variable wordsep_re_split : str -> list str.

(** The [for paragraph in paragraphs] loop: [wrapped + "\n\n"] for every
    paragraph, in order; an exception of [textwrap.fill] ends it. *)
Fixpoint format_paragraphs (width : Z) (ps : list str) : result str :=
  match ps with
  | [] => Ok []
  | p :: ps' =>
      wrapped <- Textwrap.fill wordsep_re_split (paragraph_text p) width ;;
      rest <- format_paragraphs width ps' ;;
      Ok (wrapped ++ [NL; NL] ++ rest)
  end.

Definition format_body (terminal_width : Z) (chapter_text : str)
  : result str :=
  if nonempty chapter_text
  then format_paragraphs (wrap_width terminal_width) (paragraphs chapter_text)
  else Ok [].

Definition format_content_for_pager (terminal_width : Z)
           (title author chapter_text : str) (chapter total_chapters : Z)
  : result str :=
  let separator := times 61%N terminal_width in
  let header := concat (header_block separator title author
                                     chapter total_chapters) in
  body <- format_body terminal_width chapter_text ;;
  Ok (header ++ body
      ++ concat (footer_block separator chapter total_chapters)).

End Formatter.

(** ** Terminal events *)

(** What one call of [input()] meets: a line, an interrupt, or the end of
    the input stream. *)
Inductive input_ev :=
| Line (s : str)
| Interrupt
| Eof.

(** [print(s)], and the prompt written by [input(s)]. *)
Inductive out_ev :=
| Print (s : str)
| Prompt (s : str).

Definition read_input (ev : input_ev) : result str :=
  match ev with
  | Line s => Ok s
  | Interrupt => Raise KeyboardInterrupt
  | Eof => Raise EOFError
  end.

(** ** The fallback pager: [AO3Reader.manual_pager] *)

Module Pager.

Open Scope Z_scope.

Definition len {A} (l : list A) : Z := Z.of_nat (length l).

(** [os.get_terminal_size().lines - 2], or 25 when the call raises. *)
Definition terminal_height (detected_lines : option Z) : Z :=
  match detected_lines with
  | Some l => l - 2
  | None => 25
  end.

(** [range(a, b)] *)
Definition range (a b : Z) : list Z :=
  map (fun k => a + Z.of_nat k) (seq 0 (Z.to_nat (b - a))).

(** [lines[i]] *)
Definition getitem (lines : list str) (i : Z) : result str :=
  let j := if i <? 0 then i + len lines else i in
  if (0 <=? j) && (j <? len lines)
  then Ok (nth (Z.to_nat j) lines [])
  else Raise IndexError.

(** [for i in idx: print(lines[i])] *)
Fixpoint print_lines (lines : list str) (idx : list Z)
  : list out_ev * option exn :=
  match idx with
  | [] => ([], None)
  | i :: idx' =>
      match getitem lines i with
      | Ok l => let '(out, e) := print_lines lines idx' in (Print l :: out, e)
      | Raise e => ([], Some e)
      end
  end.

Definition end_message : str := NL :: lit "[End of content - Press 'q' to quit]".

Definition page_prompt (current_line end_line total : Z) : str :=
  NL :: lit "[Line " ++ str_of_int (current_line + 1) ++ lit "-"
  ++ str_of_int end_line ++ lit " of " ++ str_of_int total
  ++ lit " - Press ENTER for next page, 'b' for back, 'q' to quit]: ".

(** How one pass of the [while] loop leaves it. *)
Inductive ctl :=
| Viewing (current_line : Z)
| Ended
| Raised (e : exn).

(** One pass of the loop body at [current_line], [ev] being what the one
    [input] call of the pass meets. *)
Definition pager_pass (lines : list str) (height current_line : Z)
           (ev : input_ev) : list out_ev * ctl :=
  let end_line := Z.min (current_line + height) (len lines) in
  match print_lines lines (range current_line end_line) with
  | (out, Some e) => (out, Raised e)
  | (out, None) =>
      if len lines <=? end_line then
        (out ++ [Print end_message; Prompt []],
         match read_input ev with
         | Ok _ => Ended
         | Raise e => Raised e
         end)
      else
        (out ++ [Prompt (page_prompt current_line end_line (len lines))],
         match read_input ev with
         | Ok response =>
             if str_eqb (lower response) (lit "q") then Ended
             else if str_eqb (lower response) (lit "b")
                  then Viewing (Z.max 0 (current_line - height))
                  else Viewing end_line
         | Raise KeyboardInterrupt => Ended
         | Raise e => Raised e
         end)
  end.

(** The [while current_line < len(lines)] loop on a stream of inputs; a
    stream that runs dry reads as end of input. *)
Fixpoint pager_loop (lines : list str) (height current_line : Z)
         (inputs : list input_ev) : list out_ev * ctl :=
  if current_line <? len lines then
    match inputs with
    | [] => pager_pass lines height current_line Eof
    | ev :: rest =>
        match pager_pass lines height current_line ev with
        | (out, Viewing next) =>
            let '(out', c) := pager_loop lines height next rest in
            (out ++ out', c)
        | r => r
        end
    end
  else ([], Ended).

Definition manual_pager (detected_lines : option Z) (text : str)
           (inputs : list input_ev) : list out_ev * ctl :=
  pager_loop (split NL text) (terminal_height detected_lines) 0 inputs.

(** The offsets the loop can be at, from offset 0. *)
Inductive reachable (lines : list str) (height : Z) : Z -> Prop :=
| reach_start : reachable lines height 0
| reach_pass (current_line next : Z) (ev : input_ev) :
    reachable lines height current_line ->
    current_line < len lines ->
    snd (pager_pass lines height current_line ev) = Viewing next ->
    reachable lines height next.

(** [lines[a:b]] for the offsets of the loop. *)
Definition slice (lines : list str) (a b : Z) : list str :=
  firstn (Z.to_nat (b - a)) (skipn (Z.to_nat a) lines).

End Pager.

(** ** The interactive prompt of [main] *)

Module Interactive.

Open Scope Z_scope.

(** ASCII decimal digits: [_PyLong_DigitValue] below base 10. *)
Definition digit (c : char) : option Z :=
  if ((48 <=? c) && (c <=? 57))%N then Some (Z.of_N c - 48) else None.

(** The code points of the digit zero in every script: each starts a run of
    ten code points with the decimal values 0 to 9 (Unicode 14, the table
    behind [Py_UNICODE_TODECIMAL] in CPython 3.11). *)
Definition decimal_zeros : list N :=
  [48; 1632; 1776; 1984; 2406; 2534; 2662; 2790; 2918; 3046; 3174; 3302;
   3430; 3558; 3664; 3792; 3872; 4160; 4240; 6112; 6160; 6470; 6608; 6784;
   6800; 6992; 7088; 7232; 7248; 42528; 43216; 43264; 43472; 43504; 43600;
   44016; 65296; 66720; 68912; 69734; 69872; 69942; 70096; 70384; 70736;
   70864; 71248; 71360; 71472; 71904; 72016; 72784; 73040; 73120; 92768;
   92864; 93008; 120782; 120792; 120802; 120812; 120822; 123200; 123632;
   125264; 130032]%N.

(** [Py_UNICODE_TODECIMAL] *)
Definition decimal (c : char) : option N :=
  match List.find (fun z => (z <=? c) && (c <=? z + 9))%N decimal_zeros with
  | Some z => Some (c - z)%N
  | None => None
  end.

(** One character of [_PyUnicode_TransformDecimalAndSpaceToASCII]: code
    points below 127 stay, whitespace becomes a space, a decimal digit of
    any script its ASCII digit, anything else ['?']. *)
Definition to_ascii (c : char) : char :=
  if (c <? 127)%N then c
  else if isspace c then SP
  else match decimal c with
       | Some d => (48 + d)%N
       | None => 63%N
       end.

(** [Py_ISSPACE] *)
Definition ascii_space (c : char) : bool :=
  ((9 <=? c) && (c <=? 13) || (c =? 32))%N.

Fixpoint skip_spaces (s : str) : str :=
  match s with
  | [] => []
  | c :: s' => if ascii_space c then skip_spaces s' else s
  end.

(** Decimal digits, single underscores allowed between two digits. *)
Fixpoint int_digits (acc : Z) (after_digit : bool) (s : str) : option Z :=
  match s with
  | [] => if after_digit then Some acc else None
  | c :: s' =>
      match digit c with
      | Some d => int_digits (10 * acc + d) true s'
      | None => if N.eqb c 95 && after_digit then int_digits acc false s'
                else None
      end
  end.

(** [sys.int_info.default_max_str_digits] *)
Definition max_str_digits : Z := 4300.

Definition count_digits (s : str) : Z :=
  Z.of_nat (length (filter (fun c => (48 <=? c) && (c <=? 57))%N s)).

(** Whitespace skipped at both ends. *)
Definition skip_both (s : str) : str :=
  rev (skip_spaces (rev (skip_spaces s))).

(** The optional sign: whether it is a minus, and what follows it. *)
Definition split_sign (s : str) : bool * str :=
  match s with
  | 43%N :: r => (false, r)
  | 45%N :: r => (true, r)
  | _ => (false, s)
  end.

(** The digits after the sign. *)
Definition parse_digits (s : str) : result Z :=
  if max_str_digits <? count_digits s then Raise ValueError
  else match int_digits 0 false s with
       | Some n => Ok n
       | None => Raise ValueError
       end.

(** [int(s)] for a [str], as CPython 3.11 has it ([PyLong_FromUnicodeObject]
    and [PyLong_FromString] in base 10): the text is brought to ASCII,
    whitespace at both ends is skipped, then come an optional sign and
    decimal digits; more than [max_str_digits] digits, or anything else,
    raises [ValueError]. *)
Definition py_int (s : str) : result Z :=
  let '(negative, digits) := split_sign (skip_both (map to_ascii s)) in
  n <- parse_digits digits ;;
  Ok (if negative then - n else n).

(** What the loop keeps between two prompts: the current result list and
    [args.page]. *)
Record session := {
  works : list WorkRecord;
  page : Z
}.

(** How one pass of [while True] leaves the loop. *)
Inductive loop_ctl :=
| Continue (s : session)
| Break
| Propagate (e : exn).

Definition hint (n : Z) : str :=
  lit "Please enter a number between 1 and " ++ str_of_int n
  ++ lit ", 'n' for next page, or 'q' to quit.".

Definition commands_line (n : Z) : str :=
  NL :: lit "Commands: 1-" ++ str_of_int n
  ++ lit " (read), n (next page), q (quit):".

Definition page_line (p n : Z) : str :=
  NL :: lit "Page " ++ str_of_int p ++ lit " - Commands: 1-" ++ str_of_int n
  ++ lit " (read), n (next page), q (quit):".

Definition reading_line (t : str) : str :=
  NL :: emoji_book ++ lit " Reading: " ++ t.

Definition empty_work : WorkRecord :=
  {| title := []; authors := []; fandoms := []; rating := []; warnings := [];
     kudos := []; words := []; chapters := []; hits := []; summary := [];
     tags := []; url := [] |}.

Section Loop.

(** The collaborators of the loop, for the query, sort key, rating filter,
    chapter and pager flag of this run: what [reader.search_fics],
    [reader.display_works] and [reader.read_work] write to the terminal,
    with the result list of the first, and the exception each one leaves
    by, if any.  All three are called inside the [try] of the loop. *)
Variable search_fics : Z -> list out_ev * result (list WorkRecord).
Variable display_works : list WorkRecord -> list out_ev * option exn.
Variable read_work : str -> list out_ev * option exn.

(** [except (ValueError, KeyboardInterrupt): break]; any other exception
    leaves the loop. *)
Definition on_exception (e : exn) : loop_ctl :=
  match e with
  | ValueError | KeyboardInterrupt => Break
  | _ => Propagate e
  end.

(** One pass of the [while True] body, [ev] being what [input("> ")]
    meets. *)
Definition interactive_pass (st : session) (ev : input_ev)
  : list out_ev * loop_ctl :=
  let n := Z.of_nat (length (works st)) in
  match read_input ev with
  | Raise e => ([Prompt (lit "> ")], on_exception e)
  | Ok line =>
      let choice := lower (strip line) in
      if str_eqb choice (lit "q") then ([Prompt (lit "> ")], Break)
      else if str_eqb choice (lit "n") then
        match search_fics (page st + 1) with
        | (found, Raise e) => (Prompt (lit "> ") :: found, on_exception e)
        | (found, Ok works') =>
            let page' := page st + 1 in
            match display_works works' with
            | (listed, Some e) =>
                (Prompt (lit "> ") :: found ++ listed, on_exception e)
            | (listed, None) =>
                (Prompt (lit "> ") :: found ++ listed
                   ++ [Print (page_line page' (Z.of_nat (length works')))],
                 Continue {| works := works'; page := page' |})
            end
        end
      else
        match py_int choice with
        | Raise e => ([Prompt (lit "> ")], on_exception e)
        | Ok num =>
            if (1 <=? num) && (num <=? n) then
              let work := nth (Z.to_nat (num - 1)) (works st) empty_work in
              match read_work (url work) with
              | (shown, Some e) =>
                  (Prompt (lit "> ") :: Print (reading_line (title work))
                     :: shown,
                   on_exception e)
              | (shown, None) =>
                  (Prompt (lit "> ") :: Print (reading_line (title work))
                     :: shown ++ [Print (commands_line n)],
                   Continue st)
              end
            else ([Prompt (lit "> "); Print (hint n)], Continue st)
        end
  end.

(** The loop on a stream of inputs. *)
Fixpoint interactive_loop (st : session) (inputs : list input_ev)
  : list out_ev * loop_ctl :=
  match inputs with
  | [] => interactive_pass st Eof
  | ev :: rest =>
      match interactive_pass st ev with
      | (out, Continue st') =>
          let '(out', c) := interactive_loop st' rest in (out ++ out', c)
      | r => r
      end
  end.

End Loop.

End Interactive.

(** ** Reading a work: [AO3Reader.read_work] *)

(** What [verify_adult_content] hands back when it does not return [None]:
    a [requests.Response], which is true exactly when its status is below
    400, and its text. *)
Record Response := {
  response_ok : bool;
  response_text : str
}.

(** What [read_work] does in the end: the formatted text went through
    [use_pager], or was printed, or ["Error reading work: ..."] was printed
    for a caught exception, or it returned at once. *)
Inductive shown :=
| Paged (formatted_content : str)
| Printed (formatted_content : str)
| Reported (e : exn)
| NothingShown.

(** [# Work metadata] *)
Definition work_title (soup : node) : str :=
  match find soup (lit "h2") [(lit "class", lit "title")] with
  | Some title_elem => stripped_text title_elem
  | None => lit "Unknown Title"
  end.

Definition work_author (soup : node) : str :=
  match find soup (lit "a") [(lit "rel", lit "author")] with
  | Some author_elem => stripped_text author_elem
  | None => lit "Unknown Author"
  end.

(** [# Chapter navigation] *)
Definition total_chapters_of (soup : node) : Z :=
  match find soup (lit "ol") [(lit "class", lit "chapter")] with
  | Some chapter_nav => Z.of_nat (length (find_all chapter_nav [lit "li"] []))
  | None => 1%Z
  end.

Section Reader.

Variable BeautifulSoup : str -> node.
Variable wordsep_re_split : str -> list str.

(** [self.use_pager(text)]: the exception the call leaves by, if any.  The
    system pager, or [manual_pager] with its [input] calls, runs here. *)
Variable pager : str -> option exn.

(** [read_work], from the answer of [verify_adult_content] on; the whole
    body, the call of the pager included, is inside
    [try: ... except Exception as e], which prints the error. *)
Definition read_work (terminal_width : Z) (response : option Response)
           (chapter : Z) (use_pager : bool) : result shown :=
  try_except
    (match response with
     | None => Ok NothingShown
     | Some resp =>
         if response_ok resp then
           let soup := BeautifulSoup (response_text resp) in
           formatted_content <-
             format_content_for_pager wordsep_re_split terminal_width
                                      (work_title soup) (work_author soup)
                                      (read_chapter_text soup)
                                      chapter (total_chapters_of soup) ;;
           if use_pager then
             match pager formatted_content with
             | None => Ok (Paged formatted_content)
             | Some e => Raise e
             end
           else Ok (Printed formatted_content)
         else Ok NothingShown
     end)
    (fun e => Ok (Reported e)).

End Reader.

(** ** Searching: [AO3Reader.search_fics] *)

Section Search.

Variable BeautifulSoup : str -> node.
Variable urljoin : str -> str -> option str.

(** [search_fics], from the answer of [self.session.get] on: [None] when
    the call raises a [requests.RequestException]; [raise_for_status]
    raises one when the status is not good; the handler prints the error
    and returns the empty list (the print is left out here). *)
Definition search_fics (fetched : option Response)
  : result (list WorkRecord) :=
  match fetched with
  | Some response =>
      if response_ok response
      then parse_search_results BeautifulSoup urljoin (response_text response)
      else Ok []
  | None => Ok []
  end.

End Search.

(** ** Listing works: [AO3Reader.display_works] *)

Definition emoji_chart : str := [128202%N].
Definition emoji_link : str := [128279%N].

(** [', '.join(parts)] *)
Definition comma_join (parts : list str) : str := join (lit ", ") parts.

(** The text after ["   Fandom: "]: two fandoms at most, and a count of the
    others. *)
Definition fandoms_text (fandoms : list str) : str :=
  comma_join (firstn 2 fandoms)
  ++ (if (2 <? Z.of_nat (length fandoms))%Z
      then lit " (+" ++ str_of_int (Z.of_nat (length fandoms) - 2)
           ++ lit " more)"
      else []).

Definition stats_line (work : WorkRecord) : str :=
  lit "   " ++ emoji_chart ++ lit " " ++ kudos work ++ lit " kudos | "
  ++ words work ++ lit " words | " ++ chapters work ++ lit " chapters | "
  ++ hits work ++ lit " hits".

Section Listing.

(** [textwrap.fill(text, width=w, initial_indent=i, subsequent_indent=s)],
    a call into the library. *)
Variable fill_indented : str -> Z -> str -> str -> result str.

(** The lines of one entry up to the summary. *)
Definition entry_head (i : Z) (work : WorkRecord) : list out_ev :=
  [Print (NL :: str_of_int i ++ lit ". " ++ title work);
   Print (lit "   By: " ++ comma_join (authors work))]
  ++ (if nonempty (fandoms work)
      then [Print (lit "   Fandom: " ++ fandoms_text (fandoms work))]
      else [])
  ++ [Print (lit "   Rating: " ++ rating work)]
  ++ (if nonempty (warnings work)
      then [Print (lit "   Warnings: " ++ comma_join (warnings work))]
      else [])
  ++ [Print (stats_line work)]
  ++ (if nonempty (tags work)
      then [Print (lit "   Tags: " ++ comma_join (tags work))]
      else []).

Definition entry_foot (terminal_width : Z) (work : WorkRecord)
  : list out_ev :=
  [Print (lit "   " ++ emoji_link ++ lit " " ++ url work);
   Print (lit "   " ++ times HYPHEN terminal_width)].

(** The body of the [for] loop for the work numbered [i]: what is printed,
    and the exception that ends it, if any. *)
Definition display_entry (terminal_width i : Z) (work : WorkRecord)
  : list out_ev * option exn :=
  if nonempty (summary work) then
    match fill_indented (summary work) (terminal_width - 6)
                        (lit "   " ++ emoji_book ++ lit " ") (lit "      ")
    with
    | Ok summary_wrapped =>
        (entry_head i work ++ [Print summary_wrapped]
         ++ entry_foot terminal_width work, None)
    | Raise e => (entry_head i work, Some e)
    end
  else (entry_head i work ++ entry_foot terminal_width work, None).

(** [for i, work in enumerate(works, i): ...] *)
Fixpoint display_entries (terminal_width i : Z) (works : list WorkRecord)
  : list out_ev * option exn :=
  match works with
  | [] => ([], None)
  | work :: rest =>
      match display_entry terminal_width i work with
      | (out, Some e) => (out, Some e)
      | (out, None) =>
          let '(out', e) := display_entries terminal_width (i + 1) rest in
          (out ++ out', e)
      end
  end.

Definition display_works (terminal_width : Z) (works : list WorkRecord)
  : list out_ev * option exn :=
  if nonempty works then
    let separator := times 61%N terminal_width in
    let '(out, e) := display_entries terminal_width 1 works in
    ([Print (NL :: separator);
      Print (lit "Found " ++ str_of_int (Z.of_nat (length works))
             ++ lit " works:");
      Print separator] ++ out, e)
  else ([Print (lit "No works found.")], None).

End Listing.

(** The value of decimal digits read after [acc]. *)
Fixpoint uint_value (d : Decimal.uint) (acc : Z) : Z :=
  match d with
  | Decimal.Nil => acc
  | Decimal.D0 l => uint_value l (10 * acc)
  | Decimal.D1 l => uint_value l (10 * acc + 1)
  | Decimal.D2 l => uint_value l (10 * acc + 2)
  | Decimal.D3 l => uint_value l (10 * acc + 3)
  | Decimal.D4 l => uint_value l (10 * acc + 4)
  | Decimal.D5 l => uint_value l (10 * acc + 5)
  | Decimal.D6 l => uint_value l (10 * acc + 6)
  | Decimal.D7 l => uint_value l (10 * acc + 7)
  | Decimal.D8 l => uint_value l (10 * acc + 8)
  | Decimal.D9 l => uint_value l (10 * acc + 9)
  end%Z.

Definition is_digit (c : char) : bool := ((48 <=? c) && (c <=? 57))%N.

(** A chapter written as paragraph elements, one per text. *)
Definition paragraph_nodes (attrs : list (str * str)) (ps : list str)
  : list node :=
  map (fun t => Tag (lit "p") attrs [NavigableString t]) ps.

(** ** Views used to state properties *)

(** The characters of a text that are not whitespace. *)
Definition visible (s : str) : str :=
  filter (fun c => negb (isspace c)) s.

(** A text without whitespace at either end. *)
Definition trimmed (s : str) : Prop := strip s = s.

(** The strings written by [print], in order; prompts are left out. *)
Definition printed (out : list out_ev) : list str :=
  flat_map (fun e => match e with Print s => [s] | Prompt _ => [] end) out.

(** A line typed at the pager prompt that is neither [q] nor [b]. *)
Definition is_advance (ev : input_ev) : bool :=
  match ev with
  | Line response =>
      negb (str_eqb (lower response) (lit "q"))
      && negb (str_eqb (lower response) (lit "b"))
  | _ => false
  end.

(** Whether [parse_search_results] keeps an item: it has a heading, and its
    title link, when there is one, has an [href] that [urljoin] accepts. *)
Definition kept (urljoin : str -> str -> option str) (item : node) : bool :=
  match find item (lit "h4") [(lit "class", lit "heading")] with
  | None => false
  | Some heading =>
      match find heading (lit "a") [] with
      | None => true
      | Some a =>
          match get a (lit "href") with
          | None => false
          | Some href =>
              match urljoin base_url href with
              | Some _ => true
              | None => false
              end
          end
      end
  end.

(** ** Sample inputs *)

Module Samples.

Definition cls (c : string) : list (str * str) := [(lit "class", lit c)].

Definition text (s : string) : node := NavigableString (lit s).

(** [urljoin] on the references of the samples, all absolute paths. *)
Definition urljoin (base ref : str) : option str := Some (base ++ ref).

Definition heading_with (link_attrs : list (str * str)) : node :=
  Tag (lit "h4") (cls "heading") [Tag (lit "a") link_attrs [text " A Story "]].

(** A result item with a rating span and a warning span that carry no
    [title] attribute, and a short summary. *)
Definition untitled_tags : node :=
  Tag (lit "ul") (cls "required-tags")
      [Tag (lit "span") (cls "rating") [text "T"];
       Tag (lit "span") (cls "warnings") [text "W"]].

Definition untitled_item : node :=
  Tag (lit "li") (cls "work blurb")
      [heading_with [(lit "href", lit "/works/1")];
       untitled_tags;
       Tag (lit "blockquote") (cls "userstuff") [text " Short. "]].

(** A result item whose title link has no [href]. *)
Definition broken_item : node :=
  Tag (lit "li") (cls "work") [heading_with []].

(** A result item without heading. *)
Definition bare_item : node := Tag (lit "li") (cls "work") [text "x"].

Definition results_page : node :=
  Tag (lit "html") [] [Tag (lit "ol") [] [broken_item; untitled_item; bare_item]].

(** The records [parse_search_results] returns for [results_page]. *)
Definition results_records : list WorkRecord :=
  Eval vm_compute in
    match parse_search_results (fun _ => results_page) urljoin [] with
    | Ok ws => ws
    | Raise _ => []
    end.

Definition untitled_record : WorkRecord :=
  Eval vm_compute in nth 0 results_records Interactive.empty_work.

(** A result item with a heading that holds no link, and nothing else. *)
Definition heading_only_item : node :=
  Tag (lit "li") (cls "work") [Tag (lit "h4") (cls "heading") [text " T "]].

Definition heading_only_record : WorkRecord :=
  Eval vm_compute in
    match work_record urljoin heading_only_item with
    | Ok (Some r) => r
    | _ => Interactive.empty_work
    end.

(** A stand-in for the indented [textwrap.fill]: it fails as the library
    does on a width that is not positive, and otherwise returns the text on
    one indented line. *)
Definition fill_one_line (text : str) (width : Z) (initial subsequent : str)
  : result str :=
  if (width <=? 0)%Z then Raise ValueError else Ok (initial ++ text).

(** Fifty lines, numbered from 1. *)
Definition fifty_lines : list str :=
  map (fun k => str_of_int (Z.of_nat k)) (seq 1 50).

(** A session on the sample page, and collaborators that write nothing
    and raise nothing. *)
Definition session_one : Interactive.session :=
  {| Interactive.works := results_records; Interactive.page := 1 |}.

Definition no_results (page : Z) : list out_ev * result (list WorkRecord) :=
  ([], Ok []).

Definition silent {A} (x : A) : list out_ev * option exn := ([], None).

(** A [read_work] that is interrupted after its first line. *)
Definition interrupted (work_url : str) : list out_ev * option exn :=
  ([Print (lit "...")], Some KeyboardInterrupt).

(** Fifty numbered lines as one text. *)
Definition fifty_text : str := join [NL] fifty_lines.

(** Two paragraphs of plain text, the second on two lines. *)
Definition two_plain : list str :=
  [lit "First paragraph."; lit "Second" ++ [NL] ++ lit "one."].

(** The chapter [<p>A</p><p>B</p>]. *)
Definition two_paragraphs : node :=
  Tag (lit "div") (cls "userstuff")
      [Tag (lit "p") [] [text "A"]; Tag (lit "p") [] [text "B"]].

End Samples.

(** * Properties *)

(** ** Strings *)

Lemma str_eqb_eq (a b : str) : str_eqb a b = true <-> a = b.
Proof.
  revert b; induction a as [|x a IH]; intros [|y b]; simpl;
    try (split; [discriminate | discriminate]); try tauto.
  rewrite andb_true_iff, N.eqb_eq, IH. split.
  - intros [-> ->]; reflexivity.
  - intros H; injection H; auto.
Qed.

Lemma str_eqb_refl (a : str) : str_eqb a a = true.
Proof. apply str_eqb_eq; reflexivity. Qed.

Lemma length_take (n : nat) (s : str) : (length (take n s) <= n)%nat.
Proof. unfold take. apply firstn_le_length. Qed.

(** ** Search results *)

Section ParseFacts.

Variable BeautifulSoup : str -> node.
Variable urljoin : str -> str -> option str.

(** What one item adds to the result list. *)
Let added (item : node) : list WorkRecord :=
  match work_record urljoin item with
  | Ok (Some r) => [r]
  | _ => []
  end.

Lemma work_record_raises_Exception (item : node) (e : exn) :
  work_record urljoin item = Raise e -> is_Exception e = true.
Proof.
  unfold work_record.
  destruct (find item (lit "h4") _) as [heading|]; [|discriminate].
  destruct (find heading (lit "a") []) as [a|]; cbn [bind].
  - unfold getitem. destruct (get a (lit "href")) as [href|]; cbn [bind].
    + destruct (urljoin base_url href); cbn [bind].
      * destruct (rating_and_warnings item).
        destruct (find item (lit "dl") _); discriminate.
      * intros H; injection H as <-; reflexivity.
    + intros H; injection H as <-; reflexivity.
  - destruct (rating_and_warnings item).
    destruct (find item (lit "dl") _); discriminate.
Qed.

Lemma try_extract_item (item : node) (works : list WorkRecord) :
  try_except (extract_item urljoin item works) (fun _ => Ok works)
  = Ok (works ++ added item).
Proof.
  unfold extract_item, added.
  destruct (work_record urljoin item) as [[r|]|e] eqn:E; cbn.
  - reflexivity.
  - now rewrite app_nil_r.
  - rewrite (work_record_raises_Exception _ _ E). now rewrite app_nil_r.
Qed.

Lemma parse_items_acc (items : list node) (works : list WorkRecord) :
  parse_items urljoin items works = Ok (works ++ flat_map added items).
Proof.
  revert works; induction items as [|item rest IH]; intros works; simpl.
  - now rewrite app_nil_r.
  - rewrite try_extract_item. cbn [bind]. rewrite IH, <- app_assoc.
    reflexivity.
Qed.

End ParseFacts.

Section ParseTheorems.

Variable BeautifulSoup : str -> node.
Variable urljoin : str -> str -> option str.

(** C1. Every item of a results page is extracted on its own: an item whose
    extraction raises adds nothing to the result and the items after it are
    still parsed, so the result is, in page order, the complete record of
    every item whose extraction returned one; the parse itself never raises,
    and a page with no matching item gives the empty list. *)
Theorem parse_search_results_skips_failed_items (html : str) :
  parse_search_results BeautifulSoup urljoin html
  = Ok (flat_map (fun item => match work_record urljoin item with
                              | Ok (Some r) => [r]
                              | Ok None => []
                              | Raise _ => []
                              end)
                 (work_items (BeautifulSoup html)))
  /\ (work_items (BeautifulSoup html) = [] ->
      parse_search_results BeautifulSoup urljoin html = Ok []).
Proof.
  unfold parse_search_results. rewrite parse_items_acc. split.
  - reflexivity.
  - intros ->. reflexivity.
Qed.

Lemma parsed_record_origin (html : str) (ws : list WorkRecord)
      (r : WorkRecord) :
  parse_search_results BeautifulSoup urljoin html = Ok ws ->
  In r ws ->
  exists item, In item (work_items (BeautifulSoup html))
               /\ work_record urljoin item = Ok (Some r).
Proof.
  unfold parse_search_results. rewrite parse_items_acc. cbn [app].
  intros H; injection H as <-. rewrite in_flat_map.
  intros (item & Hin & Hr). exists item. split; [exact Hin|].
  destruct (work_record urljoin item) as [[r'|]|e]; try contradiction.
  destruct Hr as [->|[]]. reflexivity.
Qed.

Lemma work_record_summary (item : node) (r : WorkRecord) :
  work_record urljoin item = Ok (Some r) -> summary r = summary_of item.
Proof.
  unfold work_record.
  destruct (find item (lit "h4") _) as [heading|]; [|discriminate].
  destruct (match find heading (lit "a") [] with
            | Some a => _ | None => _ end) as [u|e]; cbn [bind];
    [|discriminate].
  destruct (rating_and_warnings item).
  destruct (find item (lit "dl") _); intros H; injection H as <-; reflexivity.
Qed.

Lemma work_record_rating_warnings (item : node) (r : WorkRecord) :
  work_record urljoin item = Ok (Some r) ->
  (rating r, warnings r) = rating_and_warnings item.
Proof.
  unfold work_record.
  destruct (find item (lit "h4") _) as [heading|]; [|discriminate].
  destruct (match find heading (lit "a") [] with
            | Some a => _ | None => _ end) as [u|e]; cbn [bind];
    [|discriminate].
  destruct (rating_and_warnings item).
  destruct (find item (lit "dl") _); intros H; injection H as <-; reflexivity.
Qed.

(** C10. Every record of a parsed page comes from an item of the page; its
    summary is empty when the item has no summary block, and otherwise the
    first 150 characters of the block's stripped text followed by ["..."],
    whatever the length of that text: so a summary is empty, or at most 153
    characters long and ending in ["..."]. *)
Theorem summary_is_truncated_with_ellipsis
        (html : str) (ws : list WorkRecord) (r : WorkRecord) :
  parse_search_results BeautifulSoup urljoin html = Ok ws ->
  In r ws ->
  exists item,
    In item (work_items (BeautifulSoup html))
    /\ work_record urljoin item = Ok (Some r)
    /\ summary r
       = match find item (lit "blockquote") [(lit "class", lit "userstuff")] with
         | Some block => firstn 150 (strip (get_text block)) ++ lit "..."
         | None => []
         end
    /\ (summary r = []
        \/ ((length (summary r) <= 153)%nat
            /\ exists body, summary r = body ++ lit "..."
                            /\ (length body <= 150)%nat)).
Proof.
  intros Hp Hin. destruct (parsed_record_origin _ _ _ Hp Hin) as (item & Hi & Hr).
  exists item. repeat split; try assumption.
  - rewrite (work_record_summary _ _ Hr). reflexivity.
  - rewrite (work_record_summary _ _ Hr). unfold summary_of.
    destruct (find item (lit "blockquote") _) as [block|]; [right|left; reflexivity].
    split.
    + rewrite length_app. pose proof (length_take 150 (stripped_text block)).
      change (length (lit "...")) with 3%nat. lia.
    + eexists; split; [reflexivity|apply length_take].
Qed.

Lemma warning_titles (spans : list node) :
  map (fun w => get_default w (lit "title") [])
      (filter (fun w => match get w (lit "title") with
                        | Some t => nonempty t
                        | None => false
                        end) spans)
  = flat_map (fun w => match get w (lit "title") with
                       | Some (c :: t) => [c :: t]
                       | Some [] => []
                       | None => []
                       end) spans.
Proof.
  induction spans as [|w ws IH]; [reflexivity|]. cbn [filter flat_map].
  destruct (get w (lit "title")) as [[|c t]|] eqn:G; cbn [nonempty app].
  - exact IH.
  - cbn [map]. unfold get_default at 1. rewrite G. cbn [app]. f_equal. exact IH.
  - exact IH.
Qed.

(** C8, as the code has it. For the record of an item with a required-tags
    list: a rating span without [title] attribute gives the rating
    ["Not Rated"]; the warnings are the non-empty [title] values of the
    warning spans, in order, a span without that attribute (or with an empty
    one) giving no entry, so no warning is the empty string. *)
Theorem missing_title_attribute_defaults
        (item required_tags : node) (r : WorkRecord) :
  work_record urljoin item = Ok (Some r) ->
  find item (lit "ul") [(lit "class", lit "required-tags")] = Some required_tags ->
  (forall rating_span,
      find required_tags (lit "span") [(lit "class", lit "rating")]
      = Some rating_span ->
      get rating_span (lit "title") = None ->
      rating r = lit "Not Rated")
  /\ warnings r
     = flat_map (fun w => match get w (lit "title") with
                          | Some (c :: t) => [c :: t]
                          | Some [] => []
                          | None => []
                          end)
                (find_all required_tags [lit "span"]
                          [(lit "class", lit "warnings")])
  /\ ~ In [] (warnings r).
Proof.
  intros Hr Hrt. pose proof (work_record_rating_warnings _ _ Hr) as E.
  assert (Er : rating r = fst (rating_and_warnings item))
    by (rewrite <- E; reflexivity).
  assert (Ew : warnings r = snd (rating_and_warnings item))
    by (rewrite <- E; reflexivity).
  clear E. unfold rating_and_warnings in Er, Ew. rewrite Hrt in Er, Ew.
  cbn [fst snd] in Er, Ew.
  assert (Hw : warnings r
     = flat_map (fun w => match get w (lit "title") with
                          | Some (c :: t) => [c :: t]
                          | Some [] => []
                          | None => []
                          end)
                (find_all required_tags [lit "span"]
                          [(lit "class", lit "warnings")])).
  { rewrite Ew. apply warning_titles. }
  repeat split.
  - intros rs Hrs Hnone. rewrite Er, Hrs. unfold get_default.
    rewrite Hnone. reflexivity.
  - exact Hw.
  - rewrite Hw, in_flat_map. intros (w & _ & Hin).
    destruct (get w (lit "title")) as [[|c t]|]; simpl in Hin;
      try contradiction.
    destruct Hin as [H|[]]; discriminate.
Qed.

End ParseTheorems.

Lemma summary_is_truncated_with_ellipsis_witness :
  exists item,
    In item (work_items Samples.results_page)
    /\ work_record Samples.urljoin item = Ok (Some Samples.untitled_record)
    /\ summary Samples.untitled_record
       = match find item (lit "blockquote") [(lit "class", lit "userstuff")] with
         | Some block => firstn 150 (strip (get_text block)) ++ lit "..."
         | None => []
         end
    /\ (summary Samples.untitled_record = []
        \/ ((length (summary Samples.untitled_record) <= 153)%nat
            /\ exists body, summary Samples.untitled_record = body ++ lit "..."
                            /\ (length body <= 150)%nat)).
Proof.
  apply (summary_is_truncated_with_ellipsis
           (fun _ => Samples.results_page) Samples.urljoin []
           Samples.results_records Samples.untitled_record).
  - vm_compute. reflexivity.
  - left. reflexivity.
Defined.

(** The summary of the sample item, 6 characters long, still gets the
    ellipsis. *)
Example short_summary_gets_ellipsis :
  summary Samples.untitled_record = lit "Short....".
Proof. reflexivity. Qed.

Lemma missing_title_attribute_defaults_witness :
  rating Samples.untitled_record = lit "Not Rated"
  /\ warnings Samples.untitled_record = []
  /\ ~ In [] (warnings Samples.untitled_record).
Proof.
  destruct (missing_title_attribute_defaults
              Samples.urljoin Samples.untitled_item Samples.untitled_tags
              Samples.untitled_record)
    as (Hrating & Hwarn & Hno).
  - vm_compute. reflexivity.
  - vm_compute. reflexivity.
  - split; [|split].
    + apply (Hrating (Tag (lit "span") (Samples.cls "rating") [Samples.text "T"])).
      * vm_compute. reflexivity.
      * vm_compute. reflexivity.
    + rewrite Hwarn. vm_compute. reflexivity.
    + exact Hno.
Defined.

(** C8 as stated fails: the rating span of the sample item exists and has
    no [title] attribute, and the rating extracted is ["Not Rated"], not the
    empty string; its warning span without [title] gives no entry at all. *)
Lemma rating_without_title_is_not_empty :
  exists rating_span,
    find Samples.untitled_tags (lit "span") [(lit "class", lit "rating")]
    = Some rating_span
    /\ get rating_span (lit "title") = None
    /\ work_record Samples.urljoin Samples.untitled_item
       = Ok (Some Samples.untitled_record)
    /\ rating Samples.untitled_record = lit "Not Rated"
    /\ rating Samples.untitled_record <> []
    /\ warnings Samples.untitled_record = [].
Proof.
  eexists. split; [vm_compute; reflexivity|].
  repeat split; try (vm_compute; reflexivity). discriminate.
Qed.

(** The sample page: its first item raises [KeyError] (no [href]) and is
    skipped, its last item has no heading and is passed over. *)
Example results_page_parse :
  work_record Samples.urljoin Samples.broken_item = Raise (KeyError (lit "href"))
  /\ work_record Samples.urljoin Samples.bare_item = Ok None
  /\ parse_search_results (fun _ => Samples.results_page) Samples.urljoin []
     = Ok [Samples.untitled_record].
Proof. repeat split; vm_compute; reflexivity. Qed.

(** ** Chapter text reconstruction *)

(** Induction on documents, with the property for every child. *)
Lemma node_rect_children (P : node -> Prop) :
  (forall nm a cs, Forall P cs -> P (Tag nm a cs)) ->
  (forall s, P (NavigableString s)) ->
  (forall s, P (Comment s)) ->
  forall n, P n.
Proof.
  intros HT HS HC. fix IH 1. intros [nm a cs|s|s].
  - apply HT. induction cs as [|c cs IHcs]; constructor; [apply IH|exact IHcs].
  - apply HS.
  - apply HC.
Qed.

Lemma get_text_Tag (nm : str) (a : list (str * str)) (cs : list node) :
  get_text (Tag nm a cs) = flat_map inner_text cs.
Proof.
  unfold get_text. cbn [descendants].
  induction cs as [|c cs IH]; [reflexivity|].
  cbn [flat_map map]. rewrite map_app, concat_app. cbn [map concat].
  rewrite IH. unfold inner_text. rewrite <- app_assoc. reflexivity.
Qed.

Lemma named_Tag (names : list str) (nm : str) (a : list (str * str))
      (cs : list node) :
  named names (Tag nm a cs) = existsb (str_eqb nm) names.
Proof. unfold named, matches. cbn [forallb]. apply andb_true_r. Qed.

Lemma named_one (name nm : str) (a : list (str * str)) (cs : list node) :
  named [name] (Tag nm a cs) = str_eqb nm name.
Proof. rewrite named_Tag. cbn [existsb]. apply orb_false_r. Qed.

Lemma rewritten_app (l1 l2 : list node) :
  rewritten (l1 ++ l2) = rewritten l1 ++ rewritten l2.
Proof. unfold rewritten. now rewrite !flat_map_app, !map_app. Qed.

Lemma rewritten_cons (c : node) (cs : list node) :
  rewritten (c :: cs) = rewritten [c] ++ rewritten cs.
Proof. apply (rewritten_app [c] cs). Qed.

Lemma chapter_text_of_Tag (nm : str) (a : list (str * str)) (cs : list node) :
  chapter_text_of (Tag nm a cs) = flat_map inner_text (rewritten cs).
Proof. unfold chapter_text_of. rewrite <- get_text_Tag with (nm := nm) (a := a). reflexivity. Qed.

Lemma rewritten_Tag (nm : str) (a : list (str * str)) (cs : list node) :
  rewritten [Tag nm a cs]
  = if existsb (str_eqb nm) non_content then []
    else (if str_eqb nm (lit "br") then NavigableString [NL]
          else if str_eqb nm (lit "hr") then NavigableString rule
               else Tag nm a (rewritten cs))
         :: (if str_eqb nm (lit "p") then [NavigableString [NL; NL]] else []).
Proof.
  unfold rewritten at 1. cbn [flat_map]. rewrite named_Tag.
  destruct (existsb (str_eqb nm) non_content); [reflexivity|].
  cbn [app flat_map decompose_all]. rewrite named_one.
  destruct (str_eqb nm (lit "p")); cbn [app map insert_after_all];
    rewrite named_one; (destruct (str_eqb nm (lit "br")); [reflexivity|]);
    cbn [replace_all]; rewrite named_one;
    destruct (str_eqb nm (lit "hr")); reflexivity.
Qed.

Lemma rewritten_child_text (c : node) :
  flat_map inner_text (rewritten [c]) = reconstruct_spec c.
Proof.
  induction c as [nm a cs IH|s|s] using node_rect_children.
  - assert (Hcs : flat_map inner_text (rewritten cs)
                  = flat_map reconstruct_spec cs).
    { induction IH as [|c cs Hc _ IHcs]; [reflexivity|].
      rewrite rewritten_cons, flat_map_app, Hc, IHcs. reflexivity. }
    rewrite rewritten_Tag. cbn [reconstruct_spec].
    change [lit "script"; lit "style"] with non_content.
    destruct (existsb (str_eqb nm) non_content); [reflexivity|].
    destruct (str_eqb nm (lit "br")) eqn:Ebr.
    { apply str_eqb_eq in Ebr; subst nm. reflexivity. }
    destruct (str_eqb nm (lit "hr")) eqn:Ehr.
    { apply str_eqb_eq in Ehr; subst nm. vm_compute. reflexivity. }
    cbn [flat_map]. unfold inner_text at 1. cbn [text_of app].
    fold (get_text (Tag nm a (rewritten cs))). rewrite get_text_Tag, Hcs.
    destruct (str_eqb nm (lit "p")); cbn; reflexivity.
  - cbn. now rewrite !app_nil_r.
  - reflexivity.
Qed.

(** C2. The text of a chapter is what the four rewrites, applied in the
    order of the code (script and style removed, a blank line inserted after
    every paragraph, line breaks replaced, rules replaced) and then
    [get_text], produce; node by node this is: nothing for script and style,
    one newline for a line break, newline, 40 dashes, newline for a rule,
    and for a paragraph its own text followed by a blank line. *)
Theorem chapter_text_follows_rewrites
        (nm : str) (a : list (str * str)) (cs : list node) :
  chapter_text_of (Tag nm a cs)
  = get_text (replace_all (lit "hr") ([NL] ++ repeat HYPHEN 40 ++ [NL])
               (replace_all (lit "br") [NL]
                 (insert_after_all (lit "p") [NL; NL]
                   (decompose_all [lit "script"; lit "style"] (Tag nm a cs)))))
  /\ chapter_text_of (Tag nm a cs) = flat_map reconstruct_spec cs.
Proof.
  split; [reflexivity|].
  rewrite chapter_text_of_Tag.
  induction cs as [|c cs IH]; [reflexivity|].
  rewrite rewritten_cons, flat_map_app, rewritten_child_text, IH.
  reflexivity.
Qed.

(** Markup-free content reconstructs to the text it holds. *)
Lemma chapter_text_of_plain (nm : str) (a : list (str * str)) (s : str) :
  chapter_text_of (Tag nm a [NavigableString s]) = s.
Proof.
  rewrite chapter_text_of_Tag, rewritten_child_text. reflexivity.
Qed.

(** ** Chapter header and footer *)





(** ** The fallback pager *)

Module PagerFacts.

Import Pager.
Open Scope Z_scope.

Lemma skipn_nth (l : list str) (k : nat) :
  (k < length l)%nat -> skipn k l = nth k l [] :: skipn (S k) l.
Proof.
  revert k; induction l as [|x l IH]; intros [|k] H; simpl in *; try lia.
  - reflexivity.
  - apply IH. lia.
Qed.

Lemma print_lines_seq (lines : list str) (a : Z) (n s : nat) :
  0 <= a -> a + Z.of_nat s + Z.of_nat n <= len lines ->
  print_lines lines (map (fun k => a + Z.of_nat k) (seq s n))
  = (map Print (firstn n (skipn (Z.to_nat a + s) lines)), None).
Proof.
  unfold len. revert s; induction n as [|n IH]; intros s Ha Hb.
  - reflexivity.
  - cbn [seq map print_lines]. unfold getitem, len.
    destruct (Z.ltb_spec (a + Z.of_nat s) 0); [lia|].
    destruct (Z.leb_spec 0 (a + Z.of_nat s)); [|lia].
    destruct (Z.ltb_spec (a + Z.of_nat s) (Z.of_nat (length lines))); [|lia].
    cbn [andb]. rewrite IH by lia.
    rewrite (skipn_nth lines (Z.to_nat a + s)) by lia.
    cbn [firstn map].
    replace (Z.to_nat (a + Z.of_nat s)) with (Z.to_nat a + s)%nat by lia.
    replace (Z.to_nat a + S s)%nat with (S (Z.to_nat a + s)) by lia.
    reflexivity.
Qed.

(** The page printed at an offset of the loop is the slice of the lines. *)
Lemma print_lines_range (lines : list str) (a b : Z) :
  b <= a \/ (0 <= a /\ b <= len lines) ->
  print_lines lines (range a b) = (map Print (slice lines a b), None).
Proof.
  intros H. unfold range, slice.
  destruct (Z.le_gt_cases b a) as [Hle|Hgt].
  - replace (Z.to_nat (b - a)) with 0%nat by lia. reflexivity.
  - destruct H as [H|[Ha Hb]]; [lia|].
    rewrite print_lines_seq by lia. now rewrite Nat.add_0_r.
Qed.

Lemma pager_pass_eq (lines : list str) (height current_line : Z)
      (ev : input_ev) :
  height < 0 \/ 0 <= current_line ->
  pager_pass lines height current_line ev
  = let end_line := Z.min (current_line + height) (len lines) in
    let page := map Print (slice lines current_line end_line) in
    if len lines <=? end_line then
      (page ++ [Print end_message; Prompt []],
       match read_input ev with
       | Ok _ => Ended
       | Raise e => Raised e
       end)
    else
      (page ++ [Prompt (page_prompt current_line end_line (len lines))],
       match read_input ev with
       | Ok response =>
           if str_eqb (lower response) (lit "q") then Ended
           else if str_eqb (lower response) (lit "b")
                then Viewing (Z.max 0 (current_line - height))
                else Viewing end_line
       | Raise KeyboardInterrupt => Ended
       | Raise e => Raised e
       end).
Proof.
  intros H. unfold pager_pass. rewrite print_lines_range; [reflexivity|].
  lia.
Qed.

(** From offset 0 the loop never prints from a negative offset. *)
Lemma reachable_offsets (lines : list str) (height current_line : Z) :
  reachable lines height current_line ->
  height < 0 \/ (0 <= current_line <= len lines).
Proof.
  assert (Hlen : 0 <= len lines) by (unfold len; lia).
  induction 1 as [|cur next ev Hr IH Hlt Hstep].
  - lia.
  - destruct (Z.lt_ge_cases height 0) as [Hneg|Hpos]; [left; exact Hneg|right].
    destruct IH as [IH|IH]; [lia|].
    rewrite pager_pass_eq in Hstep by lia. cbv zeta in Hstep.
    destruct (len lines <=? Z.min (cur + height) (len lines)); cbn [snd] in Hstep.
    + destruct (read_input ev); discriminate.
    + destruct (read_input ev) as [r|[]]; try discriminate.
      destruct (str_eqb (lower r) (lit "q")); [discriminate|].
      destruct (str_eqb (lower r) (lit "b")); injection Hstep as <-; lia.
Qed.

Lemma reachable_printable (lines : list str) (height current_line : Z) :
  reachable lines height current_line -> height < 0 \/ 0 <= current_line.
Proof. intros H. destruct (reachable_offsets _ _ _ H); lia. Qed.

Lemma split_len_pos (text : str) : 0 < len (split NL text).
Proof.
  unfold len. destruct text as [|c text]; cbn [split]; [cbn; lia|].
  destruct (N.eqb c NL); [cbn [length]; lia|].
  destruct (split NL text); cbn [length]; lia.
Qed.

Lemma pager_loop_cons (lines : list str) (height current_line : Z)
      (ev : input_ev) (rest : list input_ev) :
  current_line < len lines ->
  pager_loop lines height current_line (ev :: rest)
  = match pager_pass lines height current_line ev with
    | (out, Viewing next) =>
        (out ++ fst (pager_loop lines height next rest),
         snd (pager_loop lines height next rest))
    | r => r
    end.
Proof.
  intros H. cbn [pager_loop].
  destruct (Z.ltb_spec current_line (len lines)); [|lia].
  destruct (pager_pass lines height current_line ev) as [out [next| |e]];
    try reflexivity.
  destruct (pager_loop lines height next rest). reflexivity.
Qed.

(** The loop on a line that is neither [q] nor [b], on a page that is not
    the last. *)
Lemma pager_loop_advance (lines : list str) (height current_line : Z)
      (response : str) (rest : list input_ev) :
  height < 0 \/ 0 <= current_line ->
  current_line < len lines ->
  current_line + height < len lines ->
  lower response <> lit "q" -> lower response <> lit "b" ->
  pager_loop lines height current_line (Line response :: rest)
  = ((map Print (slice lines current_line (current_line + height))
      ++ [Prompt (page_prompt current_line (current_line + height)
                              (len lines))])
     ++ fst (pager_loop lines height (current_line + height) rest),
     snd (pager_loop lines height (current_line + height) rest)).
Proof.
  intros Hp Hlt Hmore Hq Hb.
  rewrite pager_loop_cons by exact Hlt.
  rewrite pager_pass_eq by exact Hp. cbv zeta.
  rewrite Z.min_l by lia.
  destruct (Z.leb_spec (len lines) (current_line + height)); [lia|].
  cbn [read_input].
  destruct (str_eqb (lower response) (lit "q")) eqn:Eq;
    [apply str_eqb_eq in Eq; contradiction|].
  destruct (str_eqb (lower response) (lit "b")) eqn:Eb;
    [apply str_eqb_eq in Eb; contradiction|].
  reflexivity.
Qed.

(** The loop on the last page: one input, whatever the line, ends it. *)
Lemma pager_loop_last (lines : list str) (height current_line : Z)
      (response : str) (rest : list input_ev) :
  height < 0 \/ 0 <= current_line ->
  current_line < len lines ->
  len lines <= current_line + height ->
  pager_loop lines height current_line (Line response :: rest)
  = (map Print (slice lines current_line (len lines))
     ++ [Print end_message; Prompt []],
     Ended).
Proof.
  intros Hp Hlt Hlast.
  rewrite pager_loop_cons by exact Hlt.
  rewrite pager_pass_eq by exact Hp. cbv zeta.
  rewrite Z.min_r by lia. rewrite Z.leb_refl. reflexivity.
Qed.

(** A page is printed before the input of its pass is read. *)
Lemma pager_loop_page_first (lines : list str) (height current_line : Z)
      (ev : input_ev) (rest : list input_ev) :
  height < 0 \/ 0 <= current_line ->
  current_line < len lines ->
  (current_line + height < len lines ->
   exists more,
     fst (pager_loop lines height current_line (ev :: rest))
     = (map Print (slice lines current_line (current_line + height))
        ++ [Prompt (page_prompt current_line (current_line + height)
                                (len lines))])
       ++ more)
  /\ (len lines <= current_line + height ->
      fst (pager_loop lines height current_line (ev :: rest))
      = map Print (slice lines current_line (len lines))
        ++ [Print end_message; Prompt []]).
Proof.
  intros Hp Hlt.
  rewrite pager_loop_cons by exact Hlt.
  rewrite pager_pass_eq by exact Hp. cbv zeta. split; intros H.
  - rewrite Z.min_l by lia.
    destruct (Z.leb_spec (len lines) (current_line + height)); [lia|].
    destruct ev as [r| |]; cbn [read_input];
      [|exists []; cbn [fst]; now rewrite app_nil_r..].
    destruct (str_eqb (lower r) (lit "q"));
      [exists []; cbn [fst]; now rewrite app_nil_r|].
    destruct (str_eqb (lower r) (lit "b")); eexists; reflexivity.
  - rewrite Z.min_r by lia. rewrite Z.leb_refl.
    destruct (read_input ev); reflexivity.
Qed.

(** Successive advances from an offset: the pages passed, then the loop at
    the offset they lead to. *)
Lemma pager_loop_successive_advances (lines : list str) (height : Z)
      (advances : list str) :
  forall (current_line : Z) (inputs : list input_ev),
    height < 0 \/ 0 <= current_line ->
    current_line < len lines ->
    current_line + len advances * height < len lines ->
    Forall (fun r => lower r <> lit "q" /\ lower r <> lit "b") advances ->
    pager_loop lines height current_line (map Line advances ++ inputs)
    = (flat_map
         (fun o => map Print (slice lines o (o + height))
                   ++ [Prompt (page_prompt o (o + height) (len lines))])
         (map (fun k => current_line + Z.of_nat k * height)
              (seq 0 (length advances)))
       ++ fst (pager_loop lines height
                          (current_line + len advances * height) inputs),
       snd (pager_loop lines height
                       (current_line + len advances * height) inputs)).
Proof.
  unfold len.
  induction advances as [|r advances IH]; intros o inputs Hp Hlt Hk Hadv.
  - cbn [map app length seq flat_map]. rewrite Z.mul_0_l, Z.add_0_r.
    destruct (pager_loop lines height o inputs). reflexivity.
  - inversion Hadv as [|? ? [Hq Hb] Hrest]; subst.
    cbn [length] in Hk. rewrite Nat2Z.inj_succ in Hk.
    assert (Hmore : o + height < Z.of_nat (length lines)).
    { destruct (Z.lt_ge_cases height 0); [lia|].
      pose proof (Z.mul_nonneg_nonneg (Z.of_nat (length advances)) height).
      lia. }
    cbn [map app]. rewrite (pager_loop_advance lines height o r) by assumption.
    unfold len. rewrite IH; [|lia|lia|lia|exact Hrest].
    cbn [fst snd length seq map flat_map].
    rewrite <- seq_shift, map_map.
    rewrite Z.mul_0_l, Z.add_0_r.
    replace (o + height + Z.of_nat (length advances) * height)
      with (o + Z.of_nat (S (length advances)) * height) by lia.
    rewrite (map_ext (fun k => o + height + Z.of_nat k * height)
                     (fun k => o + Z.of_nat (S k) * height))
      by (intros k; lia).
    rewrite <- !app_assoc. reflexivity.
Qed.

End PagerFacts.

Section PagerTheorems.

Import Pager PagerFacts.
Open Scope Z_scope.

(** C3. [manual_pager] starts at offset 0, and after [k] lines that are
    neither [q] nor [b] it is at [offset = k * pageSize], if that is below
    the number of lines.  On one more such line there: when
    [offset + pageSize < total] the run has printed, after the earlier
    pages, the lines [offset, offset + pageSize) and the prompt with their
    1-based range and the total, and goes on as the loop at
    [offset + pageSize]; when [offset + pageSize >= total] it has printed
    the last lines and the end message, read that one input, whatever the
    line, and ended.  The page is printed before the input is read: it is
    there whatever the input is. *)
Theorem manual_pager_state_machine
        (detected_lines : option Z) (text : str) (advances : list str)
        (response : str) (rest : list input_ev) :
  let lines := split NL text in
  let pageSize := terminal_height detected_lines in
  let total := len lines in
  let offset := len advances * pageSize in
  let page := fun o : Z =>
    map Print (slice lines o (o + pageSize))
    ++ [Prompt (NL :: lit "[Line " ++ str_of_int (o + 1) ++ lit "-"
                ++ str_of_int (o + pageSize) ++ lit " of "
                ++ str_of_int total
                ++ lit " - Press ENTER for next page, 'b' for back, 'q' to quit]: ")] in
  let earlier :=
    flat_map page (map (fun k => Z.of_nat k * pageSize)
                       (seq 0 (length advances))) in
  Forall (fun r => lower r <> lit "q" /\ lower r <> lit "b") advances ->
  offset < total ->
  (offset + pageSize < total ->
   lower response <> lit "q" -> lower response <> lit "b" ->
   manual_pager detected_lines text
                (map Line advances ++ Line response :: rest)
   = (earlier ++ page offset
      ++ fst (pager_loop lines pageSize (offset + pageSize) rest),
      snd (pager_loop lines pageSize (offset + pageSize) rest)))
  /\ (total <= offset + pageSize ->
      manual_pager detected_lines text
                   (map Line advances ++ Line response :: rest)
      = (earlier ++ map Print (slice lines offset total)
         ++ [Print end_message; Prompt []],
         Ended))
  /\ (forall ev : input_ev,
         (offset + pageSize < total ->
          exists more,
            fst (manual_pager detected_lines text
                              (map Line advances ++ ev :: rest))
            = earlier ++ page offset ++ more)
         /\ (total <= offset + pageSize ->
             fst (manual_pager detected_lines text
                               (map Line advances ++ ev :: rest))
             = earlier ++ map Print (slice lines offset total)
               ++ [Print end_message; Prompt []])).
Proof.
  intros lines pageSize total offset page earlier Hadv Hlt.
  pose proof (split_len_pos text) as Hpos. fold lines in Hpos.
  assert (Hp : pageSize < 0 \/ 0 <= offset).
  { destruct (Z.lt_ge_cases pageSize 0) as [H|H]; [left; exact H|right].
    subst offset. apply Z.mul_nonneg_nonneg; [unfold len; lia|exact H]. }
  assert (Hrun : forall inputs,
             manual_pager detected_lines text (map Line advances ++ inputs)
             = (earlier ++ fst (pager_loop lines pageSize offset inputs),
                snd (pager_loop lines pageSize offset inputs))).
  { intros inputs. unfold manual_pager. fold lines pageSize.
    rewrite pager_loop_successive_advances;
      [|right; lia|exact Hpos|rewrite Z.add_0_l; exact Hlt|exact Hadv].
    rewrite Z.add_0_l. fold offset.
    rewrite (map_ext (fun k => 0 + Z.of_nat k * pageSize)
                     (fun k => Z.of_nat k * pageSize))
      by (intros k; apply Z.add_0_l).
    reflexivity. }
  split; [|split].
  - intros Hmore Hq Hb. rewrite Hrun.
    rewrite (pager_loop_advance lines pageSize offset response rest)
      by assumption.
    cbn [fst snd]. subst page. cbv beta. unfold page_prompt. fold total.
    rewrite <- !app_assoc. reflexivity.
  - intros Hlast. rewrite Hrun.
    rewrite (pager_loop_last lines pageSize offset response rest)
      by assumption.
    reflexivity.
  - intros ev. rewrite Hrun. cbn [fst].
    destruct (pager_loop_page_first lines pageSize offset ev rest Hp Hlt)
      as [Hpage Hlast].
    split; intros H.
    + destruct (Hpage H) as [more Hmore]. exists more. rewrite Hmore.
      subst page. cbv beta. unfold page_prompt. fold total.
      rewrite <- !app_assoc. reflexivity.
    + rewrite (Hlast H). reflexivity.
Qed.

(** C5, for a page size that is not negative. Every offset the loop reaches
    from 0 lies between 0 and the number of lines; a pass that stays in the
    loop was a back input, which sets the offset to
    [max 0 (offset - pageSize)], or an advance, which sets it to
    [min (offset + pageSize) total]; a back input on the first page, when
    more pages follow, leaves the offset at 0. *)
Theorem pager_offset_in_bounds
        (lines : list str) (pageSize offset : Z) :
  0 <= pageSize ->
  reachable lines pageSize offset ->
  0 <= offset <= len lines
  /\ (forall ev next,
         offset < len lines ->
         snd (pager_pass lines pageSize offset ev) = Viewing next ->
         exists response,
           ev = Line response
           /\ ((lower response = lit "b"
                /\ next = Z.max 0 (offset - pageSize))
               \/ (lower response <> lit "b" /\ lower response <> lit "q"
                   /\ next = Z.min (offset + pageSize) (len lines))))
  /\ (forall response,
         lower response = lit "b" ->
         pageSize < len lines ->
         snd (pager_pass lines pageSize 0 (Line response)) = Viewing 0).
Proof.
  intros Hp Hr.
  assert (Hb : 0 <= offset <= len lines)
    by (destruct (reachable_offsets _ _ _ Hr); lia).
  split; [exact Hb|split].
  - intros ev next Hlt Hstep.
    rewrite pager_pass_eq in Hstep by lia. cbv zeta in Hstep.
    destruct (len lines <=? Z.min (offset + pageSize) (len lines));
      cbn [snd] in Hstep.
    + destruct (read_input ev); discriminate.
    + destruct ev as [r| |]; cbn [read_input] in Hstep; try discriminate.
      exists r. split; [reflexivity|].
      destruct (str_eqb (lower r) (lit "q")) eqn:Eq; [discriminate|].
      destruct (str_eqb (lower r) (lit "b")) eqn:Eb;
        injection Hstep as <-.
      * left. apply str_eqb_eq in Eb. auto.
      * right. repeat split; try reflexivity; intros E;
          apply str_eqb_eq in E; congruence.
  - intros r Hback Hmore. rewrite pager_pass_eq by lia. cbv zeta.
    rewrite Z.min_l by lia.
    destruct (Z.leb_spec (len lines) (0 + pageSize)); [lia|].
    cbn [snd read_input]. rewrite Hback.
    change (str_eqb (lit "b") (lit "q")) with false.
    change (str_eqb (lit "b") (lit "b")) with true. cbv iota.
    f_equal. lia.
Qed.

End PagerTheorems.

(** ** Wrapping *)

Module TextwrapFacts.

Import Textwrap.
Open Scope Z_scope.

Lemma len_nonneg (s : str) : 0 <= len s.
Proof. unfold len. lia. Qed.

Lemma len_app (a b : str) : len (a ++ b) = len a + len b.
Proof. unfold len. rewrite length_app. lia. Qed.

Lemma len_concat_snoc (l : list str) (c : str) :
  len (concat (l ++ [c])) = len (concat l) + len c.
Proof. rewrite concat_app, len_app. cbn. now rewrite app_nil_r. Qed.

Lemma measure_app (a b : list str) :
  measure (a ++ b) = (measure a + measure b)%nat.
Proof. unfold measure. rewrite concat_app, !length_app. lia. Qed.

Lemma measure_cons (c : str) (l : list str) :
  measure (c :: l) = (S (length c) + measure l)%nat.
Proof. unfold measure. cbn. rewrite length_app. lia. Qed.

(** The inner loop moves a prefix of the stack to the line, keeps the line
    within the width, and stops at a chunk that does not fit. *)
Lemma take_fitting_inv (width : Z) (chunks : list str) :
  forall cur_line cur_len chunks' cur_line' cur_len',
    take_fitting width chunks cur_line cur_len = (chunks', cur_line', cur_len') ->
    cur_len = len (concat cur_line) -> cur_len <= width ->
    exists moved,
      chunks = moved ++ chunks' /\ cur_line' = cur_line ++ moved
      /\ cur_len' = len (concat cur_line') /\ cur_len' <= width
      /\ match chunks' with
         | c :: _ => width < cur_len' + len c
         | [] => True
         end.
Proof.
  induction chunks as [|c rest IH]; intros cur_line cur_len chunks' cur_line'
                                          cur_len' H Hlen Hw; cbn in H.
  - injection H as <- <- <-. exists []. rewrite !app_nil_r.
    repeat split; auto.
  - destruct (Z.leb_spec (cur_len + len c) width) as [Hfit|Hno].
    + apply IH in H; [|rewrite len_concat_snoc; lia|lia].
      destruct H as (moved & -> & -> & H3 & H4 & H5).
      exists (c :: moved). rewrite <- app_assoc in H3 |- *.
      repeat split; auto.
    + injection H as <- <- <-. exists []. rewrite !app_nil_r.
      repeat split; auto.
Qed.

Lemma rfind_from_bound (c : char) (s : str) :
  forall i last, last < i ->
                 rfind_from c s i last < i + Z.of_nat (length s).
Proof.
  induction s as [|x s IH]; intros i last H; cbn [rfind_from length].
  - lia.
  - destruct (N.eqb x c).
    + specialize (IH (i + 1) i). lia.
    + specialize (IH (i + 1) last). lia.
Qed.

Lemma rfind_bound (c : char) (s : str) (stop : Z) :
  0 <= stop -> rfind c s stop < stop.
Proof.
  intros H. unfold rfind.
  pose proof (rfind_from_bound c (firstn (Z.to_nat stop) s) 0 (-1)).
  pose proof (firstn_le_length (Z.to_nat stop) s). lia.
Qed.

(** A chunk too long for any line is cut: the piece put on the line fits
    in the room left, and on an empty line the chunk gets shorter. *)
Lemma handle_long_word_inv (width cur_len : Z) (chunk : str)
      (rest cur_line : list str) :
  1 <= width -> 0 <= cur_len <= width -> width < len chunk ->
  exists piece remainder,
    handle_long_word (chunk :: rest) cur_line cur_len width
    = (remainder :: rest, cur_line ++ [piece])
    /\ chunk = piece ++ remainder
    /\ len piece <= width - cur_len
    /\ (cur_len = 0 -> 1 <= len piece).
Proof.
  intros Hw Hc Hlong. unfold handle_long_word.
  destruct (Z.ltb_spec width 1); [lia|]. cbv zeta.
  set (space_left := width - cur_len).
  set (hyphen := rfind HYPHEN chunk space_left).
  match goal with
  | |- context [if ?b then hyphen + 1 else space_left] =>
      set (end_ := if b then hyphen + 1 else space_left)
  end.
  assert (Hh : hyphen < space_left) by (apply rfind_bound; subst space_left; lia).
  assert (He : 0 <= end_ <= space_left /\ (cur_len = 0 -> 1 <= end_)).
  { subst end_. destruct (space_left <? len chunk); cbn [andb];
      [|subst space_left; lia].
    destruct (Z.ltb_spec 0 hyphen); cbn [andb]; [|subst space_left; lia].
    destruct (existsb _ _); subst space_left; lia. }
  exists (firstn (Z.to_nat end_) chunk), (skipn (Z.to_nat end_) chunk).
  split; [reflexivity|]. split; [symmetry; apply firstn_skipn|].
  unfold len in *. rewrite length_firstn. subst space_left. lia.
Qed.

Lemma drop_trailing_blank_inv (cur_line : list str) :
  len (concat (drop_trailing_blank cur_line)) <= len (concat cur_line).
Proof.
  unfold drop_trailing_blank.
  destruct (rev cur_line) as [|last r] eqn:E; [lia|].
  destruct (blank last); [|lia].
  assert (Hc : cur_line = rev r ++ [last]).
  { rewrite <- (rev_involutive cur_line), E. reflexivity. }
  rewrite Hc, removelast_last, len_concat_snoc.
  pose proof (len_nonneg last). lia.
Qed.

(** One pass of the outer loop shrinks the stack and adds at most one
    line, no longer than the width. *)
Lemma wrap_line_inv (width : Z) (chunks lines chunks' lines' : list str) :
  1 <= width -> chunks <> [] ->
  wrap_line width chunks lines = (chunks', lines') ->
  (measure chunks' < measure chunks)%nat
  /\ (lines' = lines \/ exists l, lines' = lines ++ [l] /\ len l <= width).
Proof.
  intros Hw Hne. unfold wrap_line.
  set (chunks1 := match chunks with
                  | first :: rest =>
                      if blank first && nonempty lines then rest else chunks
                  | [] => chunks
                  end).
  assert (H1 : (measure chunks1 < measure chunks)%nat \/ chunks1 = chunks).
  { subst chunks1. destruct chunks as [|first rest]; [auto|].
    destruct (blank first && nonempty lines); [left|auto].
    rewrite measure_cons. lia. }
  destruct (take_fitting width chunks1 [] 0) as [[chunks2 cur_line] cur_len] eqn:Et.
  apply take_fitting_inv in Et; [|reflexivity|lia].
  destruct Et as (moved & Hm & Hcl & Hlen & Hfit & Hstop). cbn [app] in Hcl.
  subst cur_line.
  assert (Hpos : 0 <= cur_len) by (rewrite Hlen; apply len_nonneg).
  assert (Hmoved : moved = [] -> cur_len = 0) by (intros ->; exact Hlen).
  assert (Hmm : (measure chunks1 = measure moved + measure chunks2)%nat)
    by (rewrite Hm; apply measure_app).
  assert (Hmv : moved <> [] -> (0 < measure moved)%nat).
  { destruct moved; [congruence|]. rewrite measure_cons. lia. }
  assert (Hline : forall chunks3 cur_line3,
             (measure chunks3 <= measure chunks2)%nat ->
             ((measure chunks3 < measure chunks)%nat) ->
             len (concat cur_line3) <= width ->
             forall r,
               (chunks3,
                if nonempty (drop_trailing_blank cur_line3)
                then lines ++ [concat (drop_trailing_blank cur_line3)]
                else lines) = r ->
               (measure (fst r) < measure chunks)%nat
               /\ (snd r = lines
                   \/ exists l, snd r = lines ++ [l] /\ len l <= width)).
  { intros chunks3 cur_line3 _ Hlt Hl r <-. cbn [fst snd]. split; [exact Hlt|].
    destruct (nonempty (drop_trailing_blank cur_line3));
      [right|left; reflexivity].
    eexists; split; [reflexivity|].
    pose proof (drop_trailing_blank_inv cur_line3). lia. }
  intros H.
  assert (Hgoal : (measure (fst (chunks', lines')) < measure chunks)%nat
                  /\ (snd (chunks', lines') = lines
                      \/ exists l, snd (chunks', lines') = lines ++ [l]
                                   /\ len l <= width)); [|exact Hgoal].
  destruct chunks2 as [|c rest2].
  - apply (Hline [] moved); [lia| |lia|exact H].
    destruct H1 as [H1|H1]; [lia|].
    rewrite <- H1, Hmm. destruct moved as [|m ms].
    + rewrite H1 in Hm. cbn in Hm. congruence.
    + rewrite measure_cons. unfold measure. cbn. lia.
  - destruct (Z.ltb_spec width (len c)) as [Hlong|Hshort].
    + destruct (handle_long_word_inv width cur_len c rest2 moved Hw
                  (conj Hpos Hfit) Hlong)
        as (piece & remainder & Eh & Hc & Hp & Hp1).
      rewrite Eh in H.
      assert (Hrem : (measure (remainder :: rest2) <= measure (c :: rest2))%nat).
      { rewrite !measure_cons, Hc, length_app. lia. }
      apply (Hline (remainder :: rest2) (moved ++ [piece])); [exact Hrem| | |exact H].
      * destruct moved as [|m ms].
        -- specialize (Hp1 (Hmoved eq_refl)).
           assert ((measure (remainder :: rest2) < measure (c :: rest2))%nat).
           { rewrite !measure_cons, Hc, length_app. unfold len in Hp1. lia. }
           cbn [measure app] in Hmm. destruct H1 as [H1|H1]; [lia|].
           rewrite <- H1. lia.
        -- assert ((0 < measure (m :: ms))%nat) by (rewrite measure_cons; lia).
           destruct H1 as [H1|H1]; [lia|]. rewrite <- H1. lia.
      * rewrite len_concat_snoc. lia.
    + apply (Hline (c :: rest2) moved); [lia| |lia|exact H].
      destruct moved as [|m ms].
      * specialize (Hmoved eq_refl). lia.
      * assert ((0 < measure (m :: ms))%nat) by (rewrite measure_cons; lia).
        destruct H1 as [H1|H1]; [lia|]. rewrite <- H1. lia.
Qed.

End TextwrapFacts.

Module WrapFacts.

Import Textwrap TextwrapFacts.
Open Scope Z_scope.

Lemma wrap_loop_fits (width : Z) (fuel : nat) :
  1 <= width ->
  forall chunks lines result,
    Forall (fits width) lines ->
    wrap_loop fuel width chunks lines = Some result ->
    Forall (fits width) result.
Proof.
  intros Hw. induction fuel as [|fuel IH]; intros chunks lines result Hl H.
  - destruct chunks; [injection H as <-; exact Hl|discriminate].
  - destruct chunks as [|c rest]; [injection H as <-; exact Hl|].
    cbn [wrap_loop] in H.
    destruct (wrap_line width (c :: rest) lines) as [chunks' lines'] eqn:E.
    apply wrap_line_inv in E; [|exact Hw|discriminate].
    destruct E as [_ [->|(l & -> & Hfit)]].
    + apply (IH _ _ _ Hl H).
    + refine (IH _ _ _ _ H). apply Forall_app. split; [exact Hl|].
      constructor; [exact Hfit|constructor].
Qed.

(** The loop ends: the fuel given by [measure] is enough. *)
Lemma wrap_loop_total (width : Z) (fuel : nat) :
  1 <= width ->
  forall chunks lines,
    (measure chunks < fuel)%nat ->
    exists result, wrap_loop fuel width chunks lines = Some result.
Proof.
  intros Hw. induction fuel as [|fuel IH]; intros chunks lines Hm; [lia|].
  destruct chunks as [|c rest]; [eexists; reflexivity|].
  cbn [wrap_loop].
  destruct (wrap_line width (c :: rest) lines) as [chunks' lines'] eqn:E.
  apply wrap_line_inv in E; [|exact Hw|discriminate].
  apply IH. lia.
Qed.

Section Wrapper.

Variable wordsep_re_split : str -> list str.

Lemma wrap_fits (text : str) (width : Z) :
  1 <= width ->
  exists lines, wrap wordsep_re_split text width = Ok lines
                /\ Forall (fits width) lines.
Proof.
  intros Hw. unfold wrap, wrap_chunks.
  destruct (Z.leb_spec width 0); [lia|].
  destruct (wrap_loop_total width (S (measure (split_chunks wordsep_re_split text)))
                            Hw (split_chunks wordsep_re_split text) [])
    as [result E]; [lia|].
  rewrite E. exists result. split; [reflexivity|].
  apply (wrap_loop_fits width _ Hw _ _ _ (Forall_nil _) E).
Qed.

Lemma wrap_raises (text : str) (width : Z) :
  width <= 0 -> wrap wordsep_re_split text width = Raise ValueError.
Proof.
  intros Hw. unfold wrap, wrap_chunks.
  destruct (Z.leb_spec width 0); [reflexivity|lia].
Qed.

End Wrapper.

(** Lines of a text: the pieces between newlines. *)

Lemma split_nonempty (s : str) : split NL s <> [].
Proof.
  destruct s as [|c s]; cbn; [discriminate|].
  destruct (N.eqb c NL); [discriminate|]. destruct (split NL s); discriminate.
Qed.

Lemma split_app_newline (a b : str) :
  split NL (a ++ NL :: b) = split NL a ++ split NL b.
Proof.
  induction a as [|c a IH]; [reflexivity|].
  cbn [app split]. rewrite IH.
  destruct (N.eqb c NL); [reflexivity|].
  pose proof (split_nonempty a). destruct (split NL a); [congruence|reflexivity].
Qed.

Lemma split_pieces_short (s : str) :
  Forall (fun l => (length l <= length s)%nat) (split NL s).
Proof.
  induction s as [|c s IH]; cbn [split].
  - constructor; [cbn; lia|constructor].
  - assert (H : Forall (fun l => (length l <= length (c :: s))%nat) (split NL s)).
    { eapply Forall_impl; [|exact IH]. cbn. intros; lia. }
    destruct (N.eqb c NL).
    + constructor; [cbn; lia|exact H].
    + pose proof (split_nonempty s). destruct (split NL s) as [|p ps]; [congruence|].
      inversion IH; subst. inversion H; subst.
      constructor; [cbn; lia|assumption].
Qed.

Lemma fits_lines_of_line (width : Z) (l : str) :
  fits width l -> Forall (fits width) (split NL l).
Proof.
  intros H. eapply Forall_impl; [|apply split_pieces_short].
  unfold fits, len in *. intros; lia.
Qed.

Lemma fits_lines_of_join (width : Z) (lines : list str) :
  0 <= width -> Forall (fits width) lines ->
  Forall (fits width) (split NL (join [NL] lines)).
Proof.
  intros Hw. induction 1 as [|l ls Hl Hls IH].
  - cbn. constructor; [unfold fits, len; cbn; lia|constructor].
  - destruct ls as [|l' ls'].
    + cbn [join]. apply fits_lines_of_line, Hl.
    + change (join [NL] (l :: l' :: ls')) with (l ++ NL :: join [NL] (l' :: ls')).
      rewrite split_app_newline. apply Forall_app. split; [|exact IH].
      apply fits_lines_of_line, Hl.
Qed.

End WrapFacts.

Section FormatterTheorems.

Import Textwrap TextwrapFacts WrapFacts.
Open Scope Z_scope.

Variable wordsep_re_split : str -> list str.

Lemma format_paragraphs_fit (width : Z) (ps : list str) :
  1 <= width ->
  exists body, format_paragraphs wordsep_re_split width ps = Ok body
               /\ Forall (fits width) (split NL body).
Proof.
  intros Hw. induction ps as [|p ps (rest & Er & Hr)]; cbn [format_paragraphs].
  - exists []. split; [reflexivity|].
    constructor; [unfold fits, len; cbn; lia|constructor].
  - unfold fill.
    destruct (wrap_fits wordsep_re_split (paragraph_text p) width Hw)
      as (lines & El & Hl).
    rewrite El, Er. cbn [bind]. eexists. split; [reflexivity|].
    change (join [NL] lines ++ [NL; NL] ++ rest)
      with (join [NL] lines ++ NL :: ([] ++ NL :: rest)).
    rewrite !split_app_newline. apply Forall_app. split.
    + apply fits_lines_of_join; [lia|exact Hl].
    + apply Forall_app. split; [|exact Hr].
      constructor; [unfold fits, len; cbn; lia|constructor].
Qed.

(** C4, as the code has it. The wrap width is the terminal width minus 4,
    with no lower bound of its own; whenever the terminal width is at least
    5 the chapter body is formatted, and none of its lines is longer than
    the wrap width (so none is longer than the terminal width). *)
Theorem wrapped_body_lines_fit (terminal_width : Z) (chapter_text : str) :
  5 <= terminal_width ->
  wrap_width terminal_width = terminal_width - 4
  /\ exists body,
      format_body wordsep_re_split terminal_width chapter_text = Ok body
      /\ Forall (fun line => len line <= wrap_width terminal_width
                             /\ len line <= terminal_width)
                (split NL body).
Proof.
  intros Hw. split; [reflexivity|]. unfold format_body.
  destruct (nonempty chapter_text).
  - destruct (format_paragraphs_fit (wrap_width terminal_width)
                                    (paragraphs chapter_text))
      as (body & E & H); [unfold wrap_width; lia|].
    exists body. split; [exact E|].
    eapply Forall_impl; [|exact H]. unfold fits, wrap_width. intros; lia.
  - exists []. split; [reflexivity|].
    constructor; [unfold len, wrap_width; cbn; lia|constructor].
Qed.

End FormatterTheorems.

Lemma wrapped_body_lines_fit_witness :
  wrap_width 24 = 20%Z
  /\ exists body,
      format_body Textwrap.simple_split 24
                  (lit "a long line of chapter text that has to be wrapped")
      = Ok body
      /\ Forall (fun line => (Textwrap.len line <= wrap_width 24
                              /\ Textwrap.len line <= 24)%Z)
                (split NL body).
Proof.
  apply (wrapped_body_lines_fit Textwrap.simple_split 24
           (lit "a long line of chapter text that has to be wrapped")).
  lia.
Defined.

(** C4 as stated fails: nothing keeps the width above a minimum.  With
    [--columns 3], or a detected terminal of 0 columns, the wrap width is
    negative and formatting a chapter body raises [ValueError]. *)
Lemma wrap_width_has_no_minimum :
  terminal_width (Some 3%Z) (Some 80%Z) = 3%Z
  /\ wrap_width (terminal_width (Some 3%Z) (Some 80%Z)) = (-1)%Z
  /\ wrap_width (terminal_width None (Some 0%Z)) = (-4)%Z
  /\ format_body Textwrap.simple_split
                 (terminal_width (Some 3%Z) (Some 80%Z)) (lit "text")
     = Raise ValueError.
Proof. repeat split; vm_compute; reflexivity. Qed.

(** Wrapping a sample body at width 20. *)
Example format_body_sample :
  format_body Textwrap.simple_split 24
              (lit "a long line of chapter text that has to be wrapped")
  = Ok (lit "a long line of" ++ [NL] ++ lit "chapter text that"
        ++ [NL] ++ lit "has to be wrapped" ++ [NL; NL]).
Proof. vm_compute. reflexivity. Qed.

(** ** The pager on fifty lines *)

Section PagerExamples.

Import Pager.
Open Scope Z_scope.

(** The scenario of 50 lines on a terminal of 22 rows, pages of 20: three
    ENTER inputs show lines 1-20, 21-40 and 41-50, and the pager ends. *)
Lemma manual_pager_state_machine_witness :
  terminal_height (Some 22) = 20
  /\ len (split NL Samples.fifty_text) = 50
  /\ manual_pager (Some 22) Samples.fifty_text [Line []; Line []; Line []]
     = (map Print (slice Samples.fifty_lines 0 20)
        ++ [Prompt (NL :: lit "[Line 1-20 of 50 - Press ENTER for next page, 'b' for back, 'q' to quit]: ")]
        ++ map Print (slice Samples.fifty_lines 20 40)
        ++ [Prompt (NL :: lit "[Line 21-40 of 50 - Press ENTER for next page, 'b' for back, 'q' to quit]: ")]
        ++ map Print (slice Samples.fifty_lines 40 50)
        ++ [Print end_message; Prompt []],
        Ended).
Proof.
  split; [reflexivity|]. split; [vm_compute; reflexivity|].
  pose proof (manual_pager_state_machine
                (Some 22) Samples.fifty_text [[]; []] [] []) as H.
  cbv zeta in H.
  assert (Hadv : Forall (fun r : str =>
                           lower r <> lit "q" /\ lower r <> lit "b")
                        [[]; []])
    by (repeat constructor; discriminate).
  assert (Hlt : @len str [[]; []] * terminal_height (Some 22)
                < len (split NL Samples.fifty_text))
    by (vm_compute; reflexivity).
  destruct (H Hadv Hlt) as (_ & Hlast & _).
  assert (Hend : len (split NL Samples.fifty_text)
                 <= @len str [[]; []] * terminal_height (Some 22)
                    + terminal_height (Some 22))
    by (vm_compute; discriminate).
  specialize (Hlast Hend).
  vm_compute in Hlast. vm_compute. exact Hlast.
Defined.

(** The whole run on three ENTER inputs. *)
Example pager_run_fifty :
  pager_loop Samples.fifty_lines 20 0 [Line []; Line []; Line []]
  = (map Print (slice Samples.fifty_lines 0 20)
     ++ [Prompt (page_prompt 0 20 50)]
     ++ map Print (slice Samples.fifty_lines 20 40)
     ++ [Prompt (page_prompt 20 40 50)]
     ++ map Print (slice Samples.fifty_lines 40 50)
     ++ [Print end_message; Prompt []],
     Ended).
Proof. vm_compute. reflexivity. Qed.

Lemma pager_offset_in_bounds_witness :
  0 <= 20 <= len Samples.fifty_lines
  /\ snd (pager_pass Samples.fifty_lines 20 0 (Line (lit "b"))) = Viewing 0.
Proof.
  destruct (pager_offset_in_bounds Samples.fifty_lines 20 20)
    as (Hbounds & _ & Hback).
  - lia.
  - apply (reach_pass _ _ 0 20 (Line [])); [apply reach_start| |];
      vm_compute; reflexivity.
  - split; [exact Hbounds|]. apply Hback; vm_compute; reflexivity.
Defined.

(** C5 as stated fails on a terminal of one row: the page size is -1, an
    advance from offset 0 moves to offset -1, and a back input on the first
    page moves to offset 1. *)
Lemma pager_offset_leaves_bounds :
  terminal_height (Some 1) = -1
  /\ snd (pager_pass (split NL (lit "a")) (terminal_height (Some 1)) 0 (Line []))
     = Viewing (-1)
  /\ reachable (split NL (lit "a")) (terminal_height (Some 1)) (-1)
  /\ ~ (0 <= -1 <= len (split NL (lit "a")))
  /\ snd (pager_pass [lit "a"; lit "b"; lit "c"] (terminal_height (Some 1)) 0
                     (Line (lit "b")))
     = Viewing 1.
Proof.
  split; [reflexivity|]. split; [vm_compute; reflexivity|].
  split; [|split; [lia|vm_compute; reflexivity]].
  apply (reach_pass _ _ 0 (-1) (Line [])); [apply reach_start| |];
    vm_compute; reflexivity.
Qed.

End PagerExamples.

(** ** The interactive prompt *)

(** [int] raises nothing but [ValueError]. *)
Lemma py_int_raises (s : str) (e : exn) :
  Interactive.py_int s = Raise e -> e = ValueError.
Proof.
  unfold Interactive.py_int, Interactive.parse_digits.
  destruct (Interactive.split_sign _) as [negative digits].
  destruct (Interactive.max_str_digits <? Interactive.count_digits digits)%Z;
    cbn [bind]; [congruence|].
  destruct (Interactive.int_digits 0 false digits); cbn [bind]; congruence.
Qed.

(** [int] on digits of another script, and on a number of more than 4300
    digits. *)
Example py_int_samples :
  Interactive.py_int [65297%N] = Ok 1%Z
  /\ Interactive.py_int (lit " +1_0 ") = Ok 10%Z
  /\ Interactive.py_int (repeat 49%N 4301) = Raise ValueError
  /\ Interactive.py_int (lit "1__0") = Raise ValueError.
Proof. repeat split; vm_compute; reflexivity. Qed.

Section InteractiveTheorems.

Import Interactive.
Open Scope Z_scope.

Variable search_fics : Z -> list out_ev * result (list WorkRecord).
Variable display_works : list WorkRecord -> list out_ev * option exn.
Variable read_work : str -> list out_ev * option exn.

(** C7, as the code has it. For an input that is neither [q] nor [n]: when
    [int] makes it a number outside [1..len(works)], the hint is printed
    and the loop goes on with the same results and page; when [int] raises,
    as it does on text that is not a number, on the empty line and on a
    number of more than 4300 digits, the loop ends with nothing printed. *)
Theorem invalid_choice_is_hinted_or_ends_loop (st : session) (line : str) :
  let choice := lower (strip line) in
  let n := Z.of_nat (length (works st)) in
  choice <> lit "q" -> choice <> lit "n" ->
  (forall num,
      py_int choice = Ok num -> ~ (1 <= num <= n) ->
      interactive_pass search_fics display_works read_work st (Line line)
      = ([Prompt (lit "> ");
          Print (lit "Please enter a number between 1 and " ++ str_of_int n
                 ++ lit ", 'n' for next page, or 'q' to quit.")],
         Continue st))
  /\ (forall e,
         py_int choice = Raise e ->
         interactive_pass search_fics display_works read_work st (Line line)
         = ([Prompt (lit "> ")], Break)).
Proof.
  intros choice n Hq Hn. unfold interactive_pass. cbn [read_input].
  fold choice. fold n.
  destruct (str_eqb choice (lit "q")) eqn:Eq;
    [apply str_eqb_eq in Eq; contradiction|].
  destruct (str_eqb choice (lit "n")) eqn:En;
    [apply str_eqb_eq in En; contradiction|].
  split.
  - intros num -> Hout.
    destruct (Z.leb_spec 1 num); destruct (Z.leb_spec num n);
      cbn [andb]; try reflexivity. lia.
  - intros e He. rewrite He. rewrite (py_int_raises choice e He).
    reflexivity.
Qed.

End InteractiveTheorems.

Lemma invalid_choice_is_hinted_or_ends_loop_witness :
  Interactive.interactive_pass Samples.no_results Samples.silent Samples.silent
                               Samples.session_one (Line (lit " 7 "))
  = ([Prompt (lit "> ");
      Print (lit "Please enter a number between 1 and 1, 'n' for next page, or 'q' to quit.")],
     Interactive.Continue Samples.session_one)
  /\ Interactive.interactive_pass Samples.no_results Samples.silent
                                  Samples.silent Samples.session_one
                                  (Line (lit "seven"))
     = ([Prompt (lit "> ")], Interactive.Break).
Proof.
  split.
  - apply (proj1 (invalid_choice_is_hinted_or_ends_loop
                    Samples.no_results Samples.silent Samples.silent
                    Samples.session_one (lit " 7 ")
                    ltac:(discriminate) ltac:(discriminate)) 7%Z).
    + vm_compute. reflexivity.
    + vm_compute. intros [_ H]. apply H. reflexivity.
  - apply (proj2 (invalid_choice_is_hinted_or_ends_loop
                    Samples.no_results Samples.silent Samples.silent
                    Samples.session_one (lit "seven")
                    ltac:(discriminate) ltac:(discriminate)) ValueError).
    vm_compute. reflexivity.
Defined.

(** C7 as stated fails: a choice that is not a number (here ["seven"], and
    the empty line) gets no hint and ends the loop, and so does a number of
    4301 digits. *)
Lemma non_numeric_choice_ends_loop :
  Interactive.interactive_pass Samples.no_results Samples.silent Samples.silent
                               Samples.session_one (Line (lit "seven"))
  = ([Prompt (lit "> ")], Interactive.Break)
  /\ Interactive.interactive_pass Samples.no_results Samples.silent
                                  Samples.silent Samples.session_one (Line [])
     = ([Prompt (lit "> ")], Interactive.Break)
  /\ Interactive.interactive_loop Samples.no_results Samples.silent
                                  Samples.silent Samples.session_one
                                  [Line (lit "seven"); Line (lit "1")]
     = ([Prompt (lit "> ")], Interactive.Break)
  /\ Interactive.interactive_pass Samples.no_results Samples.silent
                                  Samples.silent Samples.session_one
                                  (Line (repeat 49%N 4301))
     = ([Prompt (lit "> ")], Interactive.Break).
Proof. repeat split; vm_compute; reflexivity. Qed.

(** The chapter [<p>A</p><p>B</p>] reads as two paragraphs. *)
Example two_paragraphs_text :
  chapter_text_of Samples.two_paragraphs = lit "A" ++ [NL; NL] ++ lit "B" ++ [NL; NL]
  /\ paragraphs (chapter_text_of Samples.two_paragraphs) = [lit "A"; lit "B"]
  /\ format_body Textwrap.simple_split 80 (chapter_text_of Samples.two_paragraphs)
     = Ok (lit "A" ++ [NL; NL] ++ lit "B" ++ [NL; NL]).
Proof. repeat split; vm_compute; reflexivity. Qed.

(** ** Paragraphs of plain text *)

Module ParagraphFacts.

Lemma blank_run_app (s t : str) :
  existsb (fun c => negb (isspace c)) s = true ->
  blank_run (s ++ t) = blank_run s.
Proof.
  induction s as [|c s IH]; [discriminate|]. cbn [existsb app blank_run].
  destruct (isspace c); [|reflexivity]. cbn [negb orb].
  intros H. rewrite (IH H). reflexivity.
Qed.

Lemma blank_run_visible (s : str) :
  match s with c :: _ => isspace c = false | [] => True end ->
  blank_run s = None.
Proof. destruct s as [|c s]; [reflexivity|]. cbn. now intros ->. Qed.

Lemma re_split_from_nonempty (s : str) :
  forall skip cur, re_split_from skip cur s <> [].
Proof.
  induction s as [|c s IH]; intros skip cur; cbn [re_split_from];
    [discriminate|].
  destruct skip; [|apply IH].
  destruct (N.eqb c NL); [|apply IH].
  destruct (blank_run s); [discriminate|apply IH].
Qed.

Lemma ends_visible_exists (s : str) :
  s <> [] -> ends_visible s = true ->
  existsb (fun c => negb (isspace c)) s = true.
Proof.
  induction s as [|c s IH]; [congruence|]. intros _ H.
  cbn [existsb]. destruct s as [|d s'].
  - cbn in H. rewrite H. reflexivity.
  - rewrite IH; [apply orb_true_r|discriminate|exact H].
Qed.

Lemma ends_visible_app (a b : str) :
  b <> [] -> ends_visible (a ++ b) = ends_visible b.
Proof.
  intros Hb. induction a as [|c a IH]; [reflexivity|].
  cbn [app]. destruct (a ++ b) as [|d r] eqn:E.
  - destruct a; [cbn in E; congruence|discriminate].
  - exact IH.
Qed.

Lemma ends_visible_rev (s : str) :
  s <> [] -> ends_visible s = true ->
  exists c r, rev s = c :: r /\ isspace c = false.
Proof.
  induction s as [|c s IH]; [congruence|]. intros _ H.
  destruct s as [|d s'].
  - exists c, []. split; [reflexivity|]. cbn in H.
    now destruct (isspace c).
  - destruct IH as (x & r & E & Hx); [discriminate|exact H|].
    exists x, (r ++ [c]). split; [|exact Hx].
    change (rev (c :: d :: s')) with (rev (d :: s') ++ [c]). rewrite E.
    reflexivity.
Qed.

Lemma rev_cons_app (c : char) (cur s : str) :
  rev (c :: cur) ++ s = rev cur ++ c :: s.
Proof. cbn [rev]. rewrite <- app_assoc. reflexivity. Qed.

(** A paragraph without blank line, followed by a blank line and visible
    text, is the first piece of the split. *)
Lemma re_split_through_separator (rest : str) (s : str) :
  blank_run rest = None ->
  forall cur,
    ends_visible s = true ->
    re_split_from 0 cur s = [rev cur ++ s] ->
    re_split_from 0 cur (s ++ NL :: NL :: rest)
    = (rev cur ++ s) :: re_split_from 0 [] rest.
Proof.
  intros Hrest. induction s as [|c s IH]; intros cur Hend Hone.
  - cbn [app re_split_from]. rewrite N.eqb_refl.
    cbn [blank_run]. rewrite Hrest.
    change (isspace NL) with true. cbv iota. rewrite N.eqb_refl.
    rewrite app_nil_r. reflexivity.
  - assert (Hs : s = [] \/ (s <> [] /\ ends_visible s = true)).
    { destruct s; [left; reflexivity|right; split; [discriminate|exact Hend]]. }
    assert (Hend' : ends_visible s = true) by (destruct Hs as [->|[_ H]]; auto).
    cbn [app re_split_from] in *.
    destruct (N.eqb c NL) eqn:Ec.
    + apply N.eqb_eq in Ec; subst c.
      destruct Hs as [->|[Hne Hv]]; [discriminate Hend|].
      rewrite blank_run_app by (apply ends_visible_exists; assumption).
      destruct (blank_run s) as [k|].
      * exfalso. injection Hone as _ Hone.
        apply (re_split_from_nonempty _ _ _ Hone).
      * rewrite <- rev_cons_app. apply IH; [exact Hv|].
        rewrite rev_cons_app. exact Hone.
    + rewrite <- rev_cons_app. apply IH; [exact Hend'|].
      rewrite rev_cons_app. exact Hone.
Qed.

Lemma clean_paragraph_inv (p : str) :
  clean_paragraph p = true ->
  (exists c s, p = c :: s /\ isspace c = false)
  /\ ends_visible p = true
  /\ re_split_from 0 [] p = [p].
Proof.
  unfold clean_paragraph. rewrite !andb_true_iff. intros [[Hh He] Hs].
  split; [|split; [exact He|]].
  - destruct p as [|c s]; [discriminate|]. exists c, s.
    split; [reflexivity|]. now destruct (isspace c).
  - unfold re_split_blank_lines in Hs.
    destruct (re_split_from 0 [] p) as [|q [|? ?]]; try discriminate.
    apply str_eqb_eq in Hs. now subst q.
Qed.

Lemma plain_text_shape (ps : list str) :
  ps <> [] -> forallb clean_paragraph ps = true ->
  (exists c s, plain_text ps = c :: s /\ isspace c = false)
  /\ ends_visible (plain_text ps) = true.
Proof.
  unfold plain_text. induction ps as [|p ps IH]; [congruence|]. intros _ H.
  cbn [forallb] in H. apply andb_true_iff in H. destruct H as [Hp Hps].
  destruct (clean_paragraph_inv p Hp) as ((c & s & -> & Hc) & He & _).
  destruct ps as [|q qs].
  - cbn [join]. split; [eauto|exact He].
  - change (join [NL; NL] ((c :: s) :: q :: qs))
      with ((c :: s) ++ [NL; NL] ++ join [NL; NL] (q :: qs)).
    split; [cbn [app]; eauto|].
    destruct IH as ((d & r & E & _) & Hv); [discriminate|exact Hps|].
    rewrite app_assoc, ends_visible_app; [exact Hv|]. rewrite E. discriminate.
Qed.

Lemma strip_visible (s : str) :
  (exists c r, s = c :: r /\ isspace c = false) ->
  ends_visible s = true -> strip s = s.
Proof.
  intros (c & r & -> & Hc) He. unfold strip. cbn [lstrip]. rewrite Hc.
  unfold rstrip.
  destruct (ends_visible_rev (c :: r)) as (x & t & E & Hx);
    [discriminate|exact He|].
  rewrite E. cbn [lstrip]. rewrite Hx, <- E. apply rev_involutive.
Qed.

Lemma re_split_plain_text (ps : list str) :
  ps <> [] -> forallb clean_paragraph ps = true ->
  re_split_blank_lines (plain_text ps) = ps.
Proof.
  unfold re_split_blank_lines, plain_text.
  induction ps as [|p ps IH]; [congruence|]. intros _ H.
  cbn [forallb] in H. apply andb_true_iff in H. destruct H as [Hp Hps].
  destruct (clean_paragraph_inv p Hp) as (_ & He & Hone).
  destruct ps as [|q qs]; [exact Hone|].
  change (join [NL; NL] (p :: q :: qs))
    with (p ++ NL :: NL :: join [NL; NL] (q :: qs)).
  destruct (plain_text_shape (q :: qs)) as ((d & r & E & Hd) & _);
    [discriminate|exact Hps|]. unfold plain_text in E.
  rewrite (re_split_through_separator (join [NL; NL] (q :: qs)) p);
    [|rewrite E; apply blank_run_visible; exact Hd|exact He|exact Hone].
  cbn [rev app]. f_equal. apply IH; [discriminate|exact Hps].
Qed.

(** The paragraphs of plain text are the paragraphs it was built from. *)
Lemma paragraphs_plain_text (ps : list str) :
  forallb clean_paragraph ps = true -> paragraphs (plain_text ps) = ps.
Proof.
  intros H. destruct ps as [|p ps]; [reflexivity|].
  destruct (plain_text_shape (p :: ps)) as (Hh & Hv); [discriminate|exact H|].
  unfold paragraphs. rewrite (strip_visible _ Hh Hv).
  rewrite re_split_plain_text; [|discriminate|exact H].
  apply forallb_filter_id. apply forallb_forall. intros q Hq.
  rewrite forallb_forall in H. specialize (H q Hq).
  destruct (clean_paragraph_inv q H) as ((c & s & -> & Hc) & He & _).
  rewrite strip_visible; [reflexivity|eauto|exact He].
Qed.

End ParagraphFacts.

(** C9. Reconstruction leaves markup-free content as it is: for plain text
    made of paragraphs separated by blank lines, a content node holding only
    that text reconstructs to the same text, the paragraphs found after
    reconstruction are the paragraphs the text was made of, as many as
    before, and reconstructing the reconstructed text changes nothing. *)
Theorem reconstruction_keeps_plain_text
        (nm : str) (a : list (str * str)) (ps : list str) :
  forallb clean_paragraph ps = true ->
  let once := chapter_text_of (Tag nm a [NavigableString (plain_text ps)]) in
  once = plain_text ps
  /\ paragraphs once = ps
  /\ length (paragraphs once) = length (paragraphs (plain_text ps))
  /\ length (paragraphs once) = length ps
  /\ chapter_text_of (Tag nm a [NavigableString once]) = once.
Proof.
  intros H. cbv zeta. rewrite !chapter_text_of_plain.
  rewrite (ParagraphFacts.paragraphs_plain_text ps H). auto.
Qed.

Lemma reconstruction_keeps_plain_text_witness :
  let once :=
    chapter_text_of (Tag (lit "div") (Samples.cls "userstuff")
                         [NavigableString (plain_text Samples.two_plain)]) in
  once = plain_text Samples.two_plain
  /\ paragraphs once = Samples.two_plain
  /\ length (paragraphs once) = length (paragraphs (plain_text Samples.two_plain))
  /\ length (paragraphs once) = length Samples.two_plain
  /\ chapter_text_of (Tag (lit "div") (Samples.cls "userstuff")
                          [NavigableString once]) = once.
Proof.
  apply (reconstruction_keeps_plain_text
           (lit "div") (Samples.cls "userstuff") Samples.two_plain).
  vm_compute. reflexivity.
Defined.

(** * Further properties *)

(** ** Stripping *)

Module StripFacts.

Lemma lstrip_head (s : str) :
  match lstrip s with
  | c :: _ => isspace c = false
  | [] => True
  end.
Proof.
  induction s as [|c s IH]; [exact I|]. cbn [lstrip].
  destruct (isspace c) eqn:E; [exact IH|exact E].
Qed.

Lemma lstrip_snoc_visible (u : str) (c : char) :
  isspace c = false -> lstrip (u ++ [c]) = lstrip u ++ [c].
Proof.
  intros Hc. induction u as [|x u IH]; cbn [app lstrip].
  - now rewrite Hc.
  - destruct (isspace x); [exact IH|reflexivity].
Qed.

Lemma ends_visible_snoc (u : str) (c : char) :
  ends_visible (u ++ [c]) = negb (isspace c).
Proof.
  rewrite ParagraphFacts.ends_visible_app by discriminate. reflexivity.
Qed.

Lemma rev_lstrip_ends_visible (t : str) : ends_visible (rev (lstrip t)) = true.
Proof.
  pose proof (lstrip_head t) as H. destruct (lstrip t) as [|c r]; [reflexivity|].
  cbn [rev]. rewrite ends_visible_snoc, H. reflexivity.
Qed.

(** What [strip] returns is empty, or starts and ends with a visible
    character. *)
Lemma strip_shape (s : str) :
  strip s = []
  \/ ((exists c r, strip s = c :: r /\ isspace c = false)
      /\ ends_visible (strip s) = true).
Proof.
  unfold strip, rstrip. pose proof (lstrip_head s) as H.
  destruct (lstrip s) as [|c r]; [left; reflexivity|right].
  split; [|apply rev_lstrip_ends_visible].
  cbn [rev]. rewrite lstrip_snoc_visible by exact H.
  rewrite rev_app_distr. cbn [rev app]. eauto.
Qed.

Lemma strip_trimmed (s : str) : trimmed (strip s).
Proof.
  unfold trimmed. destruct (strip_shape s) as [->|[Hh He]]; [reflexivity|].
  apply ParagraphFacts.strip_visible; assumption.
Qed.

Lemma visible_app (a b : str) : visible (a ++ b) = visible a ++ visible b.
Proof. apply filter_app. Qed.

Lemma visible_lstrip (s : str) : visible (lstrip s) = visible s.
Proof.
  induction s as [|c s IH]; [reflexivity|]. cbn [lstrip].
  destruct (isspace c) eqn:E; [|reflexivity].
  unfold visible at 2. cbn [filter]. rewrite E. exact IH.
Qed.

Lemma visible_rev (s : str) : visible (rev s) = rev (visible s).
Proof.
  induction s as [|c s IH]; [reflexivity|]. cbn [rev].
  rewrite visible_app, IH. unfold visible at 2 3. cbn [filter].
  destruct (negb (isspace c)); cbn [rev app]; [reflexivity|].
  now rewrite app_nil_r.
Qed.

(** Stripping removes whitespace only. *)
Lemma visible_strip (s : str) : visible (strip s) = visible s.
Proof.
  unfold strip, rstrip.
  rewrite visible_rev, visible_lstrip, visible_rev, rev_involutive.
  apply visible_lstrip.
Qed.

Lemma visible_nil_of_blank (s : str) : strip s = [] -> visible s = [].
Proof. intros H. rewrite <- visible_strip, H. reflexivity. Qed.

End StripFacts.

(** ** More on search results *)

(** A filter with more conditions finds no more. *)
Lemma find_all_none_more (n : node) (names : list str)
      (flts : list (str * str)) :
  find_all n names [] = [] -> find_all n names flts = [].
Proof.
  unfold find_all. induction (descendants n) as [|d ds IH]; [reflexivity|].
  cbn [filter].
  assert (Hm : matches names flts d = true -> matches names [] d = true).
  { destruct d as [nm a cs|s|s]; cbn [matches forallb]; try discriminate.
    rewrite !andb_true_iff. tauto. }
  destruct (matches names [] d); [discriminate|].
  intros H. destruct (matches names flts d); [discriminate (Hm eq_refl)|].
  apply IH, H.
Qed.

Section ParseExtras.

Variable BeautifulSoup : str -> node.
Variable urljoin : str -> str -> option str.

(** Where every field of a record comes from. *)
Lemma work_record_fields (item : node) (r : WorkRecord) :
  work_record urljoin item = Ok (Some r) ->
  exists heading,
    find item (lit "h4") [(lit "class", lit "heading")] = Some heading
    /\ title r = match find heading (lit "a") [] with
                 | Some a => stripped_text a
                 | None => lit "Unknown Title"
                 end
    /\ url r = match find heading (lit "a") [] with
               | Some a => match get a (lit "href") with
                           | Some href =>
                               match urljoin base_url href with
                               | Some u => u
                               | None => []
                               end
                           | None => []
                           end
               | None => []
               end
    /\ authors r
       = (if nonempty (find_all heading [lit "a"] [(lit "rel", lit "author")])
          then map stripped_text
                   (find_all heading [lit "a"] [(lit "rel", lit "author")])
          else [lit "Unknown Author"])
    /\ fandoms r
       = match find item (lit "h5") [(lit "class", lit "fandoms")] with
         | Some fandom_tags =>
             map stripped_text (find_all fandom_tags [lit "a"] [])
         | None => []
         end
    /\ (kudos r, words r, chapters r, hits r)
       = match find item (lit "dl") [(lit "class", lit "stats")] with
         | Some stats =>
             (stat stats (lit "kudos"), stat stats (lit "words"),
              stat stats (lit "chapters"), stat stats (lit "hits"))
         | None => (lit "N/A", lit "N/A", lit "N/A", lit "N/A")
         end
    /\ tags r = tags_of item.
Proof.
  unfold work_record.
  destruct (find item (lit "h4") _) as [heading|]; [|discriminate].
  intros H. exists heading. split; [reflexivity|].
  destruct (find heading (lit "a") []) as [a|]; cbn [bind getitem] in H.
  - unfold getitem in H. destruct (get a (lit "href")) as [href|];
      cbn [bind] in H; [|discriminate].
    destruct (urljoin base_url href) as [u|]; cbn [bind] in H; [|discriminate].
    destruct (rating_and_warnings item) as [rt ws].
    destruct (find item (lit "dl") _) as [stats|];
      injection H as <-; repeat split; reflexivity.
  - destruct (rating_and_warnings item) as [rt ws].
    destruct (find item (lit "dl") _) as [stats|];
      injection H as <-; repeat split; reflexivity.
Qed.

Lemma work_record_kept (item : node) :
  kept urljoin item = true <-> exists r, work_record urljoin item = Ok (Some r).
Proof.
  unfold kept, work_record.
  destruct (find item (lit "h4") _) as [heading|];
    [|split; [discriminate|intros [r H]; discriminate]].
  destruct (find heading (lit "a") []) as [a|]; cbn [bind].
  - unfold getitem. destruct (get a (lit "href")) as [href|]; cbn [bind];
      [|split; [discriminate|intros [r H]; discriminate]].
    destruct (urljoin base_url href) as [u|]; cbn [bind];
      [|split; [discriminate|intros [r H]; discriminate]].
    destruct (rating_and_warnings item) as [rt ws].
    destruct (find item (lit "dl") _); split; eauto.
  - destruct (rating_and_warnings item) as [rt ws].
    destruct (find item (lit "dl") _); split; eauto.
Qed.

(** X1. The parse keeps exactly the items that have a heading and whose
    title link, if any, has an [href] that [urljoin] accepts: the result has
    one record per such item, so an item without heading, with a title link
    without [href], or with a rejected reference is dropped whatever else it
    holds. *)
Theorem parse_keeps_items_with_usable_heading (html : str) :
  exists ws,
    parse_search_results BeautifulSoup urljoin html = Ok ws
    /\ length ws
       = length (filter (kept urljoin) (work_items (BeautifulSoup html)))
    /\ (length ws <= length (work_items (BeautifulSoup html)))%nat.
Proof.
  unfold parse_search_results. rewrite parse_items_acc. cbn [app].
  eexists. split; [reflexivity|].
  assert (H : forall items,
             length (flat_map (fun item =>
                                 match work_record urljoin item with
                                 | Ok (Some r) => [r]
                                 | _ => []
                                 end) items)
             = length (filter (kept urljoin) items)).
  { induction items as [|item items IH]; [reflexivity|].
    cbn [flat_map filter]. rewrite length_app, IH.
    pose proof (work_record_kept item) as Hk.
    destruct (kept urljoin item).
    - destruct (proj1 Hk eq_refl) as [r ->]. reflexivity.
    - destruct (work_record urljoin item) as [[r|]|e]; try reflexivity.
      assert (false = true) by (apply Hk; eauto). discriminate. }
  split; [apply H|]. rewrite H. apply filter_length_le.
Qed.

(** X2. Every record of a parsed page has at least one author and at most
    five tags, and its title, authors, fandoms, tags and four statistics
    carry no whitespace at either end. *)
Theorem parsed_record_is_well_formed
        (html : str) (ws : list WorkRecord) (r : WorkRecord) :
  parse_search_results BeautifulSoup urljoin html = Ok ws ->
  In r ws ->
  authors r <> []
  /\ (length (tags r) <= 5)%nat
  /\ trimmed (title r)
  /\ Forall trimmed (authors r)
  /\ Forall trimmed (fandoms r)
  /\ Forall trimmed (tags r)
  /\ trimmed (kudos r) /\ trimmed (words r)
  /\ trimmed (chapters r) /\ trimmed (hits r).
Proof.
  intros Hp Hin.
  destruct (parsed_record_origin _ _ _ _ _ Hp Hin) as (item & _ & Hr).
  destruct (work_record_fields item r Hr)
    as (heading & _ & Ht & _ & Ha & Hf & Hs & Hg).
  assert (Hmap : forall l, Forall trimmed (map stripped_text l)).
  { intros l. apply Forall_forall. intros x Hx. apply in_map_iff in Hx.
    destruct Hx as (n & <- & _). apply StripFacts.strip_trimmed. }
  assert (Hstat : forall stats c, trimmed (stat stats c)).
  { intros stats c. unfold stat.
    destruct (find stats (lit "dd") _); [apply StripFacts.strip_trimmed|].
    reflexivity. }
  assert (Hstats : trimmed (kudos r) /\ trimmed (words r)
                   /\ trimmed (chapters r) /\ trimmed (hits r)).
  { destruct (find item (lit "dl") _) as [stats|];
      injection Hs as -> -> -> ->; repeat split;
      try apply Hstat; reflexivity. }
  split; [|split; [|split; [|split; [|split; [|split]]]]].
  - rewrite Ha.
    destruct (find_all heading [lit "a"] _) as [|x l]; cbn; discriminate.
  - rewrite Hg. unfold tags_of.
    destruct (find item (lit "ul") _); [|cbn; lia].
    rewrite length_map. apply firstn_le_length.
  - rewrite Ht. destruct (find heading (lit "a") []);
      [apply StripFacts.strip_trimmed|reflexivity].
  - rewrite Ha. destruct (nonempty _); [apply Hmap|].
    constructor; [reflexivity|constructor].
  - rewrite Hf. destruct (find item (lit "h5") _); [apply Hmap|constructor].
  - rewrite Hg. unfold tags_of.
    destruct (find item (lit "ul") _); [apply Hmap|constructor].
  - exact Hstats.
Qed.

(** X3. A record takes the documented default for every optional part the
    item lacks, each on its own: no title link gives ["Unknown Title"], an
    empty url and ["Unknown Author"]; no fandom heading gives no fandoms; no
    required-tags list gives ["Not Rated"] and no warnings; no statistics
    list gives ["N/A"] four times; no summary block gives an empty summary;
    no tag list gives no tags. *)
Theorem missing_parts_take_defaults (item : node) (r : WorkRecord) :
  work_record urljoin item = Ok (Some r) ->
  exists heading,
    find item (lit "h4") [(lit "class", lit "heading")] = Some heading
    /\ (find heading (lit "a") [] = None ->
        title r = lit "Unknown Title" /\ url r = []
        /\ authors r = [lit "Unknown Author"])
    /\ (find item (lit "h5") [(lit "class", lit "fandoms")] = None ->
        fandoms r = [])
    /\ (find item (lit "ul") [(lit "class", lit "required-tags")] = None ->
        rating r = lit "Not Rated" /\ warnings r = [])
    /\ (find item (lit "dl") [(lit "class", lit "stats")] = None ->
        kudos r = lit "N/A" /\ words r = lit "N/A"
        /\ chapters r = lit "N/A" /\ hits r = lit "N/A")
    /\ (find item (lit "blockquote") [(lit "class", lit "userstuff")] = None ->
        summary r = [])
    /\ (find item (lit "ul") [(lit "class", lit "tags")] = None ->
        tags r = []).
Proof.
  intros Hr.
  destruct (work_record_fields item r Hr)
    as (heading & Hh & Ht & Hu & Ha & Hf & Hs & Hg).
  exists heading. split; [exact Hh|].
  split; [|split; [|split; [|split; [|split]]]].
  - intros Hnone. rewrite Ht, Hu, Ha, Hnone.
    assert (E : find_all heading [lit "a"] [(lit "rel", lit "author")] = []).
    { apply find_all_none_more. unfold find in Hnone.
      destruct (find_all heading [lit "a"] []); [reflexivity|discriminate]. }
    rewrite E. auto.
  - intros Hnone. rewrite Hf, Hnone. reflexivity.
  - intros Hnone. pose proof (work_record_rating_warnings _ _ _ Hr) as E.
    unfold rating_and_warnings in E. rewrite Hnone in E.
    split; [exact (f_equal fst E)|exact (f_equal snd E)].
  - intros Hnone. rewrite Hnone in Hs.
    repeat split;
      [exact (f_equal (fun q => fst (fst (fst q))) Hs)
      |exact (f_equal (fun q => snd (fst (fst q))) Hs)
      |exact (f_equal (fun q => snd (fst q)) Hs)
      |exact (f_equal snd Hs)].
  - intros Hnone. rewrite (work_record_summary _ _ _ Hr). unfold summary_of.
    rewrite Hnone. reflexivity.
  - intros Hnone. rewrite Hg. unfold tags_of. rewrite Hnone. reflexivity.
Qed.

End ParseExtras.

Lemma parsed_record_is_well_formed_witness :
  authors Samples.untitled_record <> []
  /\ (length (tags Samples.untitled_record) <= 5)%nat
  /\ trimmed (title Samples.untitled_record)
  /\ Forall trimmed (authors Samples.untitled_record)
  /\ Forall trimmed (fandoms Samples.untitled_record)
  /\ Forall trimmed (tags Samples.untitled_record)
  /\ trimmed (kudos Samples.untitled_record)
  /\ trimmed (words Samples.untitled_record)
  /\ trimmed (chapters Samples.untitled_record)
  /\ trimmed (hits Samples.untitled_record).
Proof.
  apply (parsed_record_is_well_formed
           (fun _ => Samples.results_page) Samples.urljoin []
           Samples.results_records Samples.untitled_record).
  - vm_compute. reflexivity.
  - left. reflexivity.
Defined.

Lemma missing_parts_take_defaults_witness :
  title Samples.heading_only_record = lit "Unknown Title"
  /\ url Samples.heading_only_record = []
  /\ authors Samples.heading_only_record = [lit "Unknown Author"]
  /\ rating Samples.heading_only_record = lit "Not Rated"
  /\ kudos Samples.heading_only_record = lit "N/A"
  /\ summary Samples.heading_only_record = [].
Proof.
  destruct (missing_parts_take_defaults
              Samples.urljoin Samples.heading_only_item
              Samples.heading_only_record)
    as (heading & Hh & Hlink & _ & Hreq & Hstats & Hsum & _).
  - vm_compute. reflexivity.
  - assert (E : heading
                = Tag (lit "h4") (Samples.cls "heading") [Samples.text " T "]).
    { vm_compute in Hh. injection Hh as <-. reflexivity. }
    destruct Hlink as (H1 & H2 & H3); [rewrite E; vm_compute; reflexivity|].
    destruct Hreq as (H4 & _); [vm_compute; reflexivity|].
    destruct Hstats as (H5 & _); [vm_compute; reflexivity|].
    split; [exact H1|]. split; [exact H2|]. split; [exact H3|].
    split; [exact H4|]. split; [exact H5|].
    apply Hsum. vm_compute. reflexivity.
Defined.

(** ** More on the fallback pager *)

Module PagerExtras.

Import Pager PagerFacts.
Open Scope Z_scope.

Lemma printed_app (a b : list out_ev) : printed (a ++ b) = printed a ++ printed b.
Proof. apply flat_map_app. Qed.

Lemma printed_prints (l : list str) : printed (map Print l) = l.
Proof.
  induction l as [|x l IH]; [reflexivity|]. cbn. f_equal. exact IH.
Qed.

Lemma split_join (sep : char) (s : str) : join [sep] (split sep s) = s.
Proof.
  induction s as [|c s IH]; [reflexivity|]. cbn [split].
  destruct (N.eqb_spec c sep) as [->|Hne].
  - pose proof (WrapFacts.split_nonempty s) as Hn.
    assert (Hn' : split sep s <> []).
    { clear. destruct s as [|c s]; cbn; [discriminate|].
      destruct (N.eqb c sep); [discriminate|].
      destruct (split sep s); discriminate. }
    destruct (split sep s) as [|p ps] eqn:E; [congruence|].
    change (join [sep] ([] :: p :: ps)) with (sep :: join [sep] (p :: ps)).
    rewrite IH. reflexivity.
  - destruct (split sep s) as [|p ps] eqn:E.
    + exfalso. clear -E. destruct s as [|d s]; cbn in E; [discriminate|].
      destruct (N.eqb d sep); [discriminate|].
      destruct (split sep s); discriminate.
    + destruct ps as [|q qs].
      * cbn [join] in *. now rewrite IH.
      * change (join [sep] ((c :: p) :: q :: qs))
          with (c :: join [sep] (p :: q :: qs)).
        now rewrite IH.
Qed.

Lemma split_pieces_free (sep : char) (s : str) :
  Forall (fun l => ~ In sep l) (split sep s).
Proof.
  induction s as [|c s IH]; cbn [split].
  - constructor; [intros []|constructor].
  - destruct (N.eqb_spec c sep) as [->|Hne].
    + constructor; [intros []|exact IH].
    + destruct (split sep s) as [|p ps].
      * constructor; [|constructor]. intros [H|[]]. congruence.
      * inversion IH as [|? ? Hp Hps]; subst. constructor; [|exact Hps].
        intros [H|H]; [congruence|exact (Hp H)].
Qed.

Lemma slice_to_end (lines : list str) (cur : Z) :
  0 <= cur -> slice lines cur (len lines) = skipn (Z.to_nat cur) lines.
Proof.
  intros H. unfold slice, len. apply firstn_all2. rewrite length_skipn. lia.
Qed.

Lemma slice_then_rest (lines : list str) (cur h : Z) :
  0 <= cur -> 0 <= h ->
  slice lines cur (cur + h) ++ skipn (Z.to_nat (cur + h)) lines
  = skipn (Z.to_nat cur) lines.
Proof.
  intros Hc Hh. unfold slice.
  replace (cur + h - cur) with h by lia.
  replace (Z.to_nat (cur + h)) with (Z.to_nat h + Z.to_nat cur)%nat by lia.
  rewrite <- skipn_skipn. apply firstn_skipn.
Qed.

Lemma advance_is_line (ev : input_ev) :
  is_advance ev = true ->
  exists r, ev = Line r /\ str_eqb (lower r) (lit "q") = false
            /\ str_eqb (lower r) (lit "b") = false.
Proof.
  destruct ev as [r| |]; cbn; try discriminate.
  rewrite andb_true_iff, !negb_true_iff. eauto.
Qed.

Lemma pager_loop_advances (lines : list str) (h : Z) :
  0 < h ->
  forall inputs cur,
    0 <= cur < len lines ->
    forallb is_advance inputs = true ->
    len lines - cur <= Z.of_nat (length inputs) * h ->
    snd (pager_loop lines h cur inputs) = Ended
    /\ printed (fst (pager_loop lines h cur inputs))
       = skipn (Z.to_nat cur) lines ++ [end_message].
Proof.
  intros Hh. induction inputs as [|ev rest IH]; intros cur Hc Hall Hn.
  - cbn [length] in Hn. lia.
  - cbn [forallb] in Hall. apply andb_true_iff in Hall.
    destruct Hall as [Hev Hrest].
    destruct (advance_is_line ev Hev) as (r & -> & Hq & Hb).
    cbn [pager_loop]. destruct (Z.ltb_spec cur (len lines)); [|lia].
    rewrite pager_pass_eq by lia. cbv zeta.
    destruct (Z.leb_spec (len lines) (Z.min (cur + h) (len lines))) as [Hl|Hl].
    + cbn [read_input fst snd]. split; [reflexivity|].
      rewrite Z.min_r by lia.
      rewrite printed_app, printed_prints, slice_to_end by lia. reflexivity.
    + rewrite Z.min_l in * by lia. cbn [read_input]. rewrite Hq, Hb.
      specialize (IH (cur + h)).
      destruct (pager_loop lines h (cur + h) rest) as [out' c] eqn:E.
      cbn [fst snd] in *.
      destruct IH as [-> Hp]; [lia|exact Hrest|cbn [length] in Hn; lia|].
      split; [reflexivity|].
      rewrite !printed_app, printed_prints, Hp. cbn [printed flat_map app].
      rewrite app_nil_r, app_assoc, slice_then_rest by lia. reflexivity.
Qed.

Lemma pager_pass_silent (lines : list str) (h cur : Z) (ev : input_ev) :
  h <= 0 -> cur < len lines ->
  fst (pager_pass lines h cur ev)
  = [Prompt (page_prompt cur (Z.min (cur + h) (len lines)) (len lines))].
Proof.
  intros Hh Hc. unfold pager_pass.
  rewrite print_lines_range by lia. unfold slice.
  replace (Z.to_nat (Z.min (cur + h) (len lines) - cur)) with 0%nat by lia.
  destruct (Z.leb_spec (len lines) (Z.min (cur + h) (len lines))); [lia|].
  reflexivity.
Qed.

End PagerExtras.

Section PagerExtraTheorems.

Import Pager PagerFacts PagerExtras.
Open Scope Z_scope.

(** X4. The lines the pager works on, joined by newlines, are the text
    again, and none of them contains a newline. *)
Theorem pager_lines_rebuild_text (text : str) :
  join [NL] (split NL text) = text
  /\ Forall (fun line => ~ In NL line) (split NL text)
  /\ 1 <= len (split NL text).
Proof.
  split; [apply split_join|]. split; [apply split_pieces_free|].
  pose proof (WrapFacts.split_nonempty text).
  unfold len. destruct (split NL text); [congruence|cbn [length]; lia].
Qed.

(** X5. On a terminal of more than two rows, answering every prompt with an
    advance (often enough to reach the end) makes the pager print every
    line of the text once, in order, then the end message, and return. *)
Theorem pager_shows_whole_text
        (detected_lines : option Z) (text : str) (inputs : list input_ev) :
  0 < terminal_height detected_lines ->
  forallb is_advance inputs = true ->
  len (split NL text)
  <= Z.of_nat (length inputs) * terminal_height detected_lines ->
  snd (manual_pager detected_lines text inputs) = Ended
  /\ printed (fst (manual_pager detected_lines text inputs))
     = split NL text ++ [end_message].
Proof.
  intros Hh Hall Hn. unfold manual_pager.
  pose proof (WrapFacts.split_nonempty text) as Hne.
  assert (0 < len (split NL text)).
  { unfold len. destruct (split NL text); [congruence|cbn [length]; lia]. }
  destruct (pager_loop_advances (split NL text) _ Hh inputs 0) as [Hc Hp];
    [lia|exact Hall|lia|].
  split; [exact Hc|exact Hp].
Qed.

(** X6. On a terminal of at most two rows the page size is zero or
    negative, and the pager prints no line of the text and no end message,
    whatever is typed. *)
Theorem pager_shows_nothing_on_short_terminal
        (lines : list str) (pageSize : Z) (inputs : list input_ev)
        (offset : Z) :
  pageSize <= 0 ->
  printed (fst (pager_loop lines pageSize offset inputs)) = [].
Proof.
  intros Hh. revert offset.
  induction inputs as [|ev rest IH]; intros offset; cbn [pager_loop];
    destruct (Z.ltb_spec offset (len lines)) as [Hc|Hc]; try reflexivity.
  - rewrite pager_pass_silent by assumption. reflexivity.
  - pose proof (pager_pass_silent lines pageSize offset ev Hh Hc) as Hs.
    destruct (pager_pass lines pageSize offset ev) as [out c].
    cbn [fst] in Hs. subst out.
    destruct c as [next| |e]; try reflexivity.
    specialize (IH next).
    destruct (pager_loop lines pageSize next rest) as [out' c'].
    cbn [fst] in *. rewrite printed_app, IH. reflexivity.
Qed.

(** X7. A back input undoes an advance: when at least two more pages
    follow, advancing and then going back shows the next page and leaves
    the pager at the offset it started from. *)
Theorem pager_back_undoes_advance
        (lines : list str) (pageSize offset : Z) (advance : input_ev)
        (response : str) (rest : list input_ev) :
  0 <= offset -> 0 <= pageSize ->
  offset + pageSize + pageSize < len lines ->
  is_advance advance = true ->
  lower response = lit "b" ->
  pager_loop lines pageSize offset (advance :: Line response :: rest)
  = (map Print (slice lines offset (offset + pageSize))
     ++ [Prompt (page_prompt offset (offset + pageSize) (len lines))]
     ++ map Print (slice lines (offset + pageSize)
                         (offset + pageSize + pageSize))
     ++ [Prompt (page_prompt (offset + pageSize)
                             (offset + pageSize + pageSize) (len lines))]
     ++ fst (pager_loop lines pageSize offset rest),
     snd (pager_loop lines pageSize offset rest)).
Proof.
  intros Ho Hh Hmore Hadv Hback.
  destruct (advance_is_line advance Hadv) as (r & -> & Hq & Hb).
  cbn [pager_loop].
  destruct (Z.ltb_spec offset (len lines)); [|lia].
  rewrite pager_pass_eq by lia. cbv zeta. rewrite Z.min_l by lia.
  destruct (Z.leb_spec (len lines) (offset + pageSize)); [lia|].
  cbn [read_input]. rewrite Hq, Hb.
  destruct (Z.ltb_spec (offset + pageSize) (len lines)); [|lia].
  rewrite pager_pass_eq by lia. cbv zeta. rewrite Z.min_l by lia.
  destruct (Z.leb_spec (len lines) (offset + pageSize + pageSize)); [lia|].
  cbn [read_input]. rewrite Hback.
  change (str_eqb (lit "b") (lit "q")) with false.
  change (str_eqb (lit "b") (lit "b")) with true. cbv iota.
  replace (Z.max 0 (offset + pageSize - pageSize)) with offset by lia.
  destruct (pager_loop lines pageSize offset rest) as [out c].
  cbn [fst snd]. rewrite <- !app_assoc. reflexivity.
Qed.

(** X8. An interrupt at a page prompt ends the pager normally, the inputs
    after it untouched; an interrupt at the end-of-content prompt is not
    caught and leaves the pager as [KeyboardInterrupt]; the end of input
    leaves it as [EOFError] at either prompt. *)
Theorem pager_interrupt_and_end_of_input
        (lines : list str) (pageSize offset : Z) (rest : list input_ev) :
  0 <= offset < len lines ->
  (offset + pageSize < len lines ->
   pager_loop lines pageSize offset (Interrupt :: rest)
   = (map Print (slice lines offset (offset + pageSize))
      ++ [Prompt (page_prompt offset (offset + pageSize) (len lines))],
      Ended))
  /\ (len lines <= offset + pageSize ->
      pager_loop lines pageSize offset (Interrupt :: rest)
      = (map Print (slice lines offset (len lines))
         ++ [Print end_message; Prompt []],
         Raised KeyboardInterrupt))
  /\ snd (pager_loop lines pageSize offset (Eof :: rest)) = Raised EOFError
  /\ snd (pager_loop lines pageSize offset []) = Raised EOFError.
Proof.
  intros Ho. cbn [pager_loop].
  destruct (Z.ltb_spec offset (len lines)); [|lia].
  rewrite !pager_pass_eq by lia. cbv zeta. repeat split.
  - intros H1. rewrite Z.min_l by lia.
    destruct (Z.leb_spec (len lines) (offset + pageSize)); [lia|]. reflexivity.
  - intros H1. rewrite Z.min_r by lia. rewrite Z.leb_refl. reflexivity.
  - destruct (len lines <=? _); reflexivity.
  - destruct (len lines <=? _); reflexivity.
Qed.

End PagerExtraTheorems.

(** ** More on wrapping and chapter layout *)

Module VisibleFacts.

Import Textwrap TextwrapFacts StripFacts.

Lemma visible_spaces (n : nat) : visible (repeat SP n) = [].
Proof. induction n as [|n IH]; [reflexivity|exact IH]. Qed.

Lemma visible_cons_space (c : char) (s : str) :
  isspace c = true -> visible (c :: s) = visible s.
Proof. intros H. unfold visible. cbn [filter]. now rewrite H. Qed.

Lemma visible_cons (c : char) (s : str) :
  visible (c :: s) = visible [c] ++ visible s.
Proof. apply (visible_app [c] s). Qed.

Lemma is_ws_isspace (c : char) : is_ws c = true -> isspace c = true.
Proof.
  unfold is_ws, isspace.
  repeat rewrite ?orb_true_iff, ?andb_true_iff, ?N.leb_le, ?N.eqb_eq.
  lia.
Qed.

Lemma visible_expandtabs (tabsize : nat) (s : str) :
  forall col, visible (expandtabs_from tabsize col s) = visible s.
Proof.
  induction s as [|c s IH]; intros col; [reflexivity|].
  cbn [expandtabs_from]. destruct (N.eqb_spec c 9) as [->|Hc].
  - rewrite visible_app, visible_spaces, IH. cbn [app].
    symmetry. apply visible_cons_space. reflexivity.
  - destruct (N.eqb c 10 || N.eqb c 13);
      rewrite visible_cons, IH, <- visible_cons; reflexivity.
Qed.

Lemma visible_munge (text : str) : visible (munge_whitespace text) = visible text.
Proof.
  unfold munge_whitespace. rewrite <- (visible_expandtabs 8 text 0).
  induction (expandtabs_from 8 0 text) as [|c s IH]; [reflexivity|].
  cbn [map]. destruct (is_ws c) eqn:E.
  - rewrite !visible_cons_space; [exact IH|apply is_ws_isspace, E|reflexivity].
  - rewrite visible_cons, IH, <- visible_cons. reflexivity.
Qed.

Lemma concat_nonempty (l : list str) :
  concat (filter (fun c => nonempty c) l) = concat l.
Proof.
  induction l as [|x l IH]; [reflexivity|]. cbn [filter].
  destruct x as [|c x]; cbn [nonempty concat app]; [exact IH|].
  now rewrite IH.
Qed.

Lemma blank_visible (s : str) : blank s = true -> visible s = [].
Proof.
  unfold blank. intros H. apply visible_nil_of_blank.
  destruct (strip s); [reflexivity|discriminate].
Qed.

Lemma visible_drop_trailing_blank (cur_line : list str) :
  visible (concat (drop_trailing_blank cur_line)) = visible (concat cur_line).
Proof.
  unfold drop_trailing_blank.
  destruct (rev cur_line) as [|last r] eqn:E; [reflexivity|].
  destruct (blank last) eqn:B; [|reflexivity].
  assert (Hc : cur_line = rev r ++ [last]).
  { rewrite <- (rev_involutive cur_line), E. reflexivity. }
  rewrite Hc, removelast_last, concat_app, visible_app. cbn [concat].
  rewrite app_nil_r, (blank_visible _ B), app_nil_r. reflexivity.
Qed.

(** One pass of the wrapping loop moves visible characters from the stack
    to the lines, in order, and loses none. *)
Lemma wrap_line_visible (width : Z) (chunks lines chunks' lines' : list str) :
  (1 <= width)%Z ->
  wrap_line width chunks lines = (chunks', lines') ->
  visible (concat lines') ++ visible (concat chunks')
  = visible (concat lines) ++ visible (concat chunks).
Proof.
  intros Hw. unfold wrap_line.
  set (chunks1 := match chunks with
                  | first :: rest =>
                      if blank first && nonempty lines then rest else chunks
                  | [] => chunks
                  end).
  assert (H1 : visible (concat chunks1) = visible (concat chunks)).
  { subst chunks1. destruct chunks as [|first rest]; [reflexivity|].
    destruct (blank first) eqn:B; cbn [andb]; [|reflexivity].
    destruct (nonempty lines); [|reflexivity].
    cbn [concat]. rewrite visible_app, (blank_visible _ B). reflexivity. }
  destruct (take_fitting width chunks1 [] 0) as [[chunks2 cur_line] cur_len] eqn:Et.
  apply take_fitting_inv in Et; [|reflexivity|lia].
  destruct Et as (moved & Hm & Hcl & Hlen & Hfit & _). cbn [app] in Hcl.
  subst cur_line.
  assert (Hsplit : visible (concat chunks)
                   = visible (concat moved) ++ visible (concat chunks2)).
  { rewrite <- H1, Hm, concat_app, visible_app. reflexivity. }
  assert (Hline : forall chunks3 cur_line3,
             visible (concat cur_line3) ++ visible (concat chunks3)
             = visible (concat chunks) ->
             (chunks3,
              if nonempty (drop_trailing_blank cur_line3)
              then lines ++ [concat (drop_trailing_blank cur_line3)]
              else lines) = (chunks', lines') ->
             visible (concat lines') ++ visible (concat chunks')
             = visible (concat lines) ++ visible (concat chunks)).
  { intros chunks3 cur_line3 Hv H. injection H as <- <-.
    rewrite <- Hv, <- (visible_drop_trailing_blank cur_line3).
    destruct (drop_trailing_blank cur_line3) as [|x l]; cbn [nonempty].
    - reflexivity.
    - rewrite concat_app, visible_app. cbn [concat].
      rewrite app_nil_r, <- !app_assoc. reflexivity. }
  destruct chunks2 as [|c rest2].
  - apply Hline. rewrite Hsplit. reflexivity.
  - destruct (Z.ltb_spec width (len c)) as [Hlong|Hshort].
    + assert (Hpos : (0 <= cur_len)%Z) by (rewrite Hlen; apply len_nonneg).
      destruct (handle_long_word_inv width cur_len c rest2 moved Hw
                  (conj Hpos Hfit) Hlong)
        as (piece & remainder & -> & Hc & _ & _).
      apply Hline. rewrite Hsplit, Hc.
      cbn [concat]. rewrite concat_app, !visible_app. cbn [concat].
      rewrite app_nil_r, <- !app_assoc. reflexivity.
    + apply Hline. rewrite Hsplit. reflexivity.
Qed.

Lemma wrap_loop_visible (width : Z) (fuel : nat) :
  (1 <= width)%Z ->
  forall chunks lines result,
    wrap_loop fuel width chunks lines = Some result ->
    visible (concat result)
    = visible (concat lines) ++ visible (concat chunks).
Proof.
  intros Hw. induction fuel as [|fuel IH]; intros chunks lines result H.
  - destruct chunks; [|discriminate]. injection H as <-.
    now rewrite app_nil_r.
  - destruct chunks as [|c rest].
    + injection H as <-. now rewrite app_nil_r.
    + cbn [wrap_loop] in H.
      destruct (wrap_line width (c :: rest) lines) as [chunks' lines'] eqn:E.
      rewrite (IH _ _ _ H). apply (wrap_line_visible _ _ _ _ _ Hw E).
Qed.

Lemma visible_join_newline (lines : list str) :
  visible (join [NL] lines) = visible (concat lines).
Proof.
  induction lines as [|l ls IH]; [reflexivity|].
  destruct ls as [|l' ls'].
  - cbn. now rewrite app_nil_r.
  - change (join [NL] (l :: l' :: ls')) with (l ++ NL :: join [NL] (l' :: ls')).
    cbn [concat]. rewrite !visible_app, visible_cons_space by reflexivity.
    rewrite IH. cbn [concat]. rewrite visible_app. reflexivity.
Qed.

Lemma visible_join_space (parts : list str) :
  visible (join [SP] parts) = visible (concat parts).
Proof.
  induction parts as [|l ls IH]; [reflexivity|].
  destruct ls as [|l' ls'].
  - cbn. now rewrite app_nil_r.
  - change (join [SP] (l :: l' :: ls')) with (l ++ SP :: join [SP] (l' :: ls')).
    cbn [concat]. rewrite !visible_app, visible_cons_space by reflexivity.
    rewrite IH. cbn [concat]. rewrite visible_app. reflexivity.
Qed.

Lemma visible_concat_nonblank_stripped (pieces : list str) :
  visible (concat (map strip (filter (fun l => nonempty (strip l)) pieces)))
  = visible (concat pieces).
Proof.
  induction pieces as [|p ps IH]; [reflexivity|]. cbn [filter concat].
  rewrite visible_app. destruct (strip p) eqn:E; cbn [nonempty].
  - rewrite (visible_nil_of_blank _ E). exact IH.
  - cbn [map concat]. rewrite visible_app, IH, E, <- E, visible_strip.
    reflexivity.
Qed.

Lemma visible_concat_nonblank (pieces : list str) :
  visible (concat (filter (fun l => nonempty (strip l)) pieces))
  = visible (concat pieces).
Proof.
  induction pieces as [|p ps IH]; [reflexivity|]. cbn [filter concat].
  rewrite visible_app. destruct (strip p) eqn:E; cbn [nonempty].
  - rewrite (visible_nil_of_blank _ E). exact IH.
  - cbn [concat]. rewrite visible_app, IH. reflexivity.
Qed.

Lemma visible_concat_split (s : str) : visible (concat (split NL s)) = visible s.
Proof.
  rewrite <- visible_join_newline, PagerExtras.split_join. reflexivity.
Qed.

Lemma visible_paragraph_text (p : str) : visible (paragraph_text p) = visible p.
Proof.
  unfold paragraph_text.
  rewrite visible_join_space, visible_concat_nonblank_stripped.
  apply visible_concat_split.
Qed.

Lemma blank_run_spaces (s : str) :
  forall k, blank_run s = Some k -> visible (firstn k s) = [] /\ (k <= length s)%nat.
Proof.
  induction s as [|c s IH]; intros k H; [discriminate|].
  cbn [blank_run] in H. destruct (isspace c) eqn:Ec; [|discriminate].
  destruct (blank_run s) as [k'|].
  - injection H as <-. destruct (IH k' eq_refl) as [Hv Hk].
    cbn [firstn length]. rewrite visible_cons_space by exact Ec.
    split; [exact Hv|lia].
  - destruct (N.eqb c NL); [|discriminate]. injection H as <-.
    cbn [firstn length]. rewrite visible_cons_space by exact Ec.
    split; [reflexivity|lia].
Qed.

(** The split on blank lines removes whitespace only. *)
Lemma visible_re_split (s : str) :
  forall skip cur,
    visible (firstn skip s) = [] ->
    visible (concat (re_split_from skip cur s)) = visible (rev cur ++ s).
Proof.
  induction s as [|c s IH]; intros skip cur Hskip; cbn [re_split_from].
  - cbn. now rewrite !app_nil_r.
  - destruct skip as [|k].
    + assert (Hgo : visible (concat (re_split_from 0 (c :: cur) s))
                    = visible (rev cur ++ c :: s)).
      { rewrite IH by reflexivity. rewrite ParagraphFacts.rev_cons_app.
        reflexivity. }
      destruct (N.eqb_spec c NL) as [->|Hc]; [|exact Hgo].
      destruct (blank_run s) as [k|] eqn:Eb; [|exact Hgo].
      destruct (blank_run_spaces s k Eb) as [Hv _].
      cbn [concat]. rewrite visible_app, (IH k [] Hv). cbn [rev app].
      rewrite visible_app, (visible_cons_space NL) by reflexivity.
      reflexivity.
    + cbn [firstn] in Hskip. rewrite visible_cons in Hskip.
      apply app_eq_nil in Hskip. destruct Hskip as [Hc Hk].
      rewrite (IH k cur Hk), !visible_app, (visible_cons c s), Hc.
      reflexivity.
Qed.

Lemma visible_paragraphs (text : str) :
  visible (concat (paragraphs text)) = visible text.
Proof.
  unfold paragraphs, re_split_blank_lines.
  rewrite visible_concat_nonblank, visible_re_split by reflexivity.
  cbn [rev app]. apply visible_strip.
Qed.

Lemma concat_simple_split (s : str) : concat (simple_split s) = s.
Proof.
  unfold simple_split.
  assert (H : forall cur, concat (runs_from cur s) = rev cur ++ s).
  { induction s as [|c s IH]; intros cur; cbn [runs_from].
    - cbn. now rewrite !app_nil_r.
    - destruct cur as [|d cur].
      + rewrite IH. reflexivity.
      + destruct (Bool.eqb (is_ws c) (is_ws d)).
        * rewrite IH. apply ParagraphFacts.rev_cons_app.
        * cbn [concat]. rewrite IH. cbn [rev app]. 
          rewrite <- app_assoc. reflexivity. }
  apply (H []).
Qed.

End VisibleFacts.

Section FormatterExtras.

Import Textwrap TextwrapFacts WrapFacts StripFacts VisibleFacts.
Open Scope Z_scope.

Variable wordsep_re_split : str -> list str.

Lemma format_paragraphs_raises (width : Z) (ps : list str) :
  width <= 0 -> ps <> [] ->
  format_paragraphs wordsep_re_split width ps = Raise ValueError.
Proof.
  intros Hw Hne. destruct ps as [|p ps]; [congruence|].
  cbn [format_paragraphs]. unfold fill.
  rewrite wrap_raises by exact Hw. reflexivity.
Qed.

(** The two ways formatting a body can go. *)
Lemma format_body_cases (terminal_width : Z) (chapter_text : str) :
  (terminal_width <= 4 /\ paragraphs chapter_text <> []
   /\ format_body wordsep_re_split terminal_width chapter_text
      = Raise ValueError)
  \/ ((5 <= terminal_width \/ paragraphs chapter_text = [])
      /\ exists body,
         format_body wordsep_re_split terminal_width chapter_text = Ok body).
Proof.
  assert (Hempty : chapter_text = [] -> paragraphs chapter_text = [])
    by (intros ->; reflexivity).
  destruct (paragraphs chapter_text) as [|p ps] eqn:Ep.
  - right. split; [right; reflexivity|]. exists [].
    unfold format_body. rewrite Ep. destruct (nonempty chapter_text); reflexivity.
  - destruct (Z.le_gt_cases terminal_width 4) as [Hn|Hn].
    + left. split; [exact Hn|]. split; [discriminate|].
      unfold format_body.
      destruct chapter_text as [|c t]; [discriminate (Hempty eq_refl)|].
      cbn [nonempty]. rewrite Ep.
      apply format_paragraphs_raises; [unfold wrap_width; lia|discriminate].
    + right. split; [left; lia|].
      destruct (format_paragraphs_fit wordsep_re_split
                  (wrap_width terminal_width) (p :: ps))
        as (body & E & _); [unfold wrap_width; lia|].
      exists body. unfold format_body.
      destruct chapter_text as [|c t]; [discriminate (Hempty eq_refl)|].
      cbn [nonempty]. rewrite Ep. exact E.
Qed.

(** X9. Formatting a chapter body fails exactly when the terminal width is
    at most 4 and the text has a paragraph that is not blank; the failure is
    the [ValueError] of [textwrap.fill]. An empty or blank text is formatted
    to the empty body at every width. *)
Theorem format_body_fails_only_when_too_narrow
        (terminal_width : Z) (chapter_text : str) :
  (format_body wordsep_re_split terminal_width chapter_text = Raise ValueError
   <-> terminal_width <= 4 /\ paragraphs chapter_text <> [])
  /\ (forall e,
         format_body wordsep_re_split terminal_width chapter_text = Raise e ->
         e = ValueError)
  /\ (paragraphs chapter_text = [] ->
      format_body wordsep_re_split terminal_width chapter_text = Ok []).
Proof.
  pose proof (format_body_cases terminal_width chapter_text) as Hcases.
  split; [|split].
  - split.
    + intros H. destruct Hcases as [(H1 & H2 & _)|(_ & body & E)]; [auto|].
      rewrite E in H. discriminate.
    + intros [H1 H2]. destruct Hcases as [(_ & _ & E)|([H|H] & _)];
        [exact E|lia|contradiction].
  - intros e H. destruct Hcases as [(_ & _ & E)|(_ & body & E)];
      rewrite E in H; [injection H as <-; reflexivity|discriminate].
  - intros H. unfold format_body. rewrite H.
    destruct (nonempty chapter_text); reflexivity.
Qed.

Lemma fill_visible (text : str) (width : Z) :
  (forall t, concat (wordsep_re_split t) = t) ->
  1 <= width ->
  exists wrapped, fill wordsep_re_split text width = Ok wrapped
                  /\ visible wrapped = visible text.
Proof.
  intros Hsplit Hw. unfold fill, wrap, wrap_chunks.
  destruct (Z.leb_spec width 0); [lia|].
  destruct (wrap_loop_total width (S (measure (split_chunks wordsep_re_split text)))
                            Hw (split_chunks wordsep_re_split text) [])
    as [lines E]; [lia|].
  rewrite E. cbn [bind]. eexists. split; [reflexivity|].
  rewrite visible_join_newline, (wrap_loop_visible _ _ Hw _ _ _ E).
  cbn [concat visible filter app]. unfold split_chunks.
  rewrite concat_nonempty, Hsplit. apply visible_munge.
Qed.

Lemma format_paragraphs_visible (width : Z) (ps : list str) :
  (forall t, concat (wordsep_re_split t) = t) ->
  1 <= width ->
  exists body, format_paragraphs wordsep_re_split width ps = Ok body
               /\ visible body = visible (concat ps).
Proof.
  intros Hsplit Hw. induction ps as [|p ps (rest & Er & Hr)];
    cbn [format_paragraphs].
  - exists []. split; reflexivity.
  - destruct (fill_visible (paragraph_text p) width Hsplit Hw)
      as (wrapped & Ew & Hv).
    rewrite Ew, Er. cbn [bind]. eexists. split; [reflexivity|].
    cbn [concat]. rewrite !visible_app, Hv, Hr, visible_paragraph_text.
    reflexivity.
Qed.

(** X10. Formatting loses no text: with a word splitter that only cuts the
    text (the pieces put together are the text again) and a terminal width
    of at least 5, the formatted body has the same visible characters, in
    the same order, as the chapter text; only whitespace changes. *)
Theorem format_body_keeps_visible_text
        (terminal_width : Z) (chapter_text : str) :
  (forall t, concat (wordsep_re_split t) = t) ->
  5 <= terminal_width ->
  exists body,
    format_body wordsep_re_split terminal_width chapter_text = Ok body
    /\ visible body = visible chapter_text.
Proof.
  intros Hsplit Hw. unfold format_body.
  destruct chapter_text as [|c t] eqn:Et; [exists []; split; reflexivity|].
  cbn [nonempty]. rewrite <- Et.
  destruct (format_paragraphs_visible (wrap_width terminal_width)
                                      (paragraphs chapter_text) Hsplit)
    as (body & E & Hv); [unfold wrap_width; lia|].
  exists body. split; [exact E|]. rewrite Hv. apply visible_paragraphs.
Qed.

End FormatterExtras.

Lemma format_body_keeps_visible_text_witness :
  exists body,
    format_body Textwrap.simple_split 24
                (lit "a long line of chapter text that has to be wrapped")
    = Ok body
    /\ visible body
       = visible (lit "a long line of chapter text that has to be wrapped").
Proof.
  apply (format_body_keeps_visible_text Textwrap.simple_split 24
           (lit "a long line of chapter text that has to be wrapped")).
  - exact VisibleFacts.concat_simple_split.
  - lia.
Defined.

(** ** Reading a work *)

Section ReaderTheorems.

Open Scope Z_scope.

Variable BeautifulSoup : str -> node.
Variable wordsep_re_split : str -> list str.
Variable pager : str -> option exn.

Lemma format_content_cases
      (terminal_width : Z) (title author chapter_text : str)
      (chapter total_chapters : Z) :
  (terminal_width <= 4 /\ paragraphs chapter_text <> []
   /\ format_content_for_pager wordsep_re_split terminal_width title author
                               chapter_text chapter total_chapters
      = Raise ValueError)
  \/ ((5 <= terminal_width \/ paragraphs chapter_text = [])
      /\ exists formatted,
         format_content_for_pager wordsep_re_split terminal_width title author
                                  chapter_text chapter total_chapters
         = Ok formatted).
Proof.
  unfold format_content_for_pager.
  destruct (format_body_cases wordsep_re_split terminal_width chapter_text)
    as [(H1 & H2 & E)|(H & body & E)]; rewrite E; cbn [bind].
  - left. auto.
  - right. split; [exact H|]. eexists. reflexivity.
Qed.

(** X11. [read_work], from the answer of [verify_adult_content] on.  A
    missing response or one with an error status shows nothing.  With a
    good response, the [ValueError] of the wrapper is reported when the
    terminal width is at most 4 and the chapter has a paragraph that is not
    blank; otherwise the text is formatted and printed, or handed to the
    pager: an exception of the pager is reported, at any width, unless it
    is [KeyboardInterrupt], which leaves [read_work].  Nothing else leaves
    it. *)
Theorem read_work_shows_reports_or_is_interrupted
        (terminal_width : Z) (response : option Response) (chapter : Z)
        (use_pager : bool) :
  let outcome :=
    read_work BeautifulSoup wordsep_re_split pager terminal_width response
              chapter use_pager in
  match response with
  | None => outcome = Ok NothingShown
  | Some resp =>
      let soup := BeautifulSoup (response_text resp) in
      let text := read_chapter_text soup in
      if response_ok resp then
        (terminal_width <= 4 /\ paragraphs text <> []
         /\ outcome = Ok (Reported ValueError))
        \/ ((5 <= terminal_width \/ paragraphs text = [])
            /\ exists formatted,
               format_content_for_pager wordsep_re_split terminal_width
                                        (work_title soup) (work_author soup)
                                        text chapter (total_chapters_of soup)
               = Ok formatted
               /\ outcome
                  = if use_pager then
                      match pager formatted with
                      | None => Ok (Paged formatted)
                      | Some KeyboardInterrupt => Raise KeyboardInterrupt
                      | Some e => Ok (Reported e)
                      end
                    else Ok (Printed formatted))
      else outcome = Ok NothingShown
  end
  /\ (forall e, outcome = Raise e ->
                e = KeyboardInterrupt /\ use_pager = true).
Proof.
  intros outcome. subst outcome. unfold read_work.
  destruct response as [resp|]; [|split; [reflexivity|discriminate]].
  destruct (response_ok resp) eqn:Eok; [|split; [reflexivity|discriminate]].
  cbv zeta. set (soup := BeautifulSoup (response_text resp)).
  destruct (format_content_cases terminal_width (work_title soup)
              (work_author soup) (read_chapter_text soup) chapter
              (total_chapters_of soup))
    as [(H1 & H2 & E)|(H & formatted & E)]; rewrite E;
    cbn [bind try_except is_Exception].
  - split; [left; auto|discriminate].
  - destruct use_pager.
    + destruct (pager formatted) as [[]|] eqn:Ep;
        cbn [try_except is_Exception];
        (split;
         [right; split; [exact H|]; exists formatted; rewrite Ep;
          split; reflexivity
         |intros e He; try discriminate He]).
      injection He as <-. split; reflexivity.
    + cbn [try_except].
      split; [|discriminate].
      right. split; [exact H|]. exists formatted. split; reflexivity.
Qed.

(** X12. The chapter number only labels the output: for a page without a
    chapter list, or with a list of at most one entry, [read_work] does the
    same for every chapter number. *)
Theorem read_work_ignores_chapter_without_chapter_list
        (terminal_width : Z) (response : option Response)
        (chapter chapter' : Z) (use_pager : bool) :
  (forall resp, response = Some resp ->
                total_chapters_of (BeautifulSoup (response_text resp)) <= 1) ->
  read_work BeautifulSoup wordsep_re_split pager terminal_width response
            chapter use_pager
  = read_work BeautifulSoup wordsep_re_split pager terminal_width response
              chapter' use_pager.
Proof.
  intros H. unfold read_work. destruct response as [resp|]; [|reflexivity].
  specialize (H resp eq_refl).
  destruct (response_ok resp); [|reflexivity].
  unfold format_content_for_pager, header_block, footer_block.
  destruct (Z.ltb_spec 1 (total_chapters_of (BeautifulSoup (response_text resp))));
    [lia|reflexivity].
Qed.

End ReaderTheorems.

(** ** Numbers typed at the prompt *)

Module IntFacts.

Import Interactive.
Open Scope Z_scope.

Lemma uint_value_acc (d : Decimal.uint) :
  forall acc, uint_value d (Z.pos acc) = Z.pos (Pos.of_uint_acc d acc).
Proof.
  induction d; intros acc; cbn [uint_value Pos.of_uint_acc];
    try reflexivity;
    match goal with
    | |- uint_value _ ?z = Z.pos (Pos.of_uint_acc _ ?p) =>
        replace z with (Z.pos p) by lia
    end; apply IHd.
Qed.

Lemma uint_value_zero (d : Decimal.uint) :
  uint_value d 0 = Z.of_N (Pos.of_uint d).
Proof.
  induction d; cbn [uint_value Pos.of_uint]; try reflexivity;
    try exact IHd; cbn [Z.mul Z.add];
    match goal with
    | |- uint_value _ (Z.pos ?p) = _ => rewrite (uint_value_acc d p)
    end; reflexivity.
Qed.

Lemma digits_of_uint (d : Decimal.uint) :
  forallb is_digit (lit (DecimalString.NilEmpty.string_of_uint d)) = true.
Proof. induction d; cbn; auto. Qed.

Lemma int_digits_of_uint (d : Decimal.uint) :
  forall acc,
    int_digits acc true (lit (DecimalString.NilEmpty.string_of_uint d))
    = Some (uint_value d acc).
Proof.
  induction d; intros acc; [reflexivity| | | | | | | | | |];
    cbn [DecimalString.NilEmpty.string_of_uint lit int_digits uint_value];
    match goal with
    | |- context [digit ?c] =>
        let v := eval vm_compute in (digit c) in change (digit c) with v
    end; cbv iota; rewrite IHd; f_equal; f_equal; lia.
Qed.

Lemma int_digits_first (d : Decimal.uint) (acc : Z) :
  d <> Decimal.Nil ->
  int_digits acc false (lit (DecimalString.NilEmpty.string_of_uint d))
  = Some (uint_value d acc).
Proof.
  intros Hd. destruct d; [congruence| | | | | | | | | |];
    cbn [DecimalString.NilEmpty.string_of_uint lit int_digits uint_value];
    match goal with
    | |- context [digit ?c] =>
        let v := eval vm_compute in (digit c) in change (digit c) with v
    end; cbv iota; rewrite int_digits_of_uint; f_equal; f_equal; lia.
Qed.

Lemma digit_visible (c : char) : is_digit c = true -> isspace c = false.
Proof.
  unfold is_digit, isspace. rewrite andb_true_iff, !N.leb_le. intros [H1 H2].
  repeat match goal with
         | |- context [(?a <=? ?b)%N] => destruct (N.leb_spec a b); try lia
         | |- context [(?a =? ?b)%N] => destruct (N.eqb_spec a b); try lia
         end; reflexivity.
Qed.

Lemma lstrip_digits (s : str) : forallb is_digit s = true -> lstrip s = s.
Proof.
  destruct s as [|c s]; [reflexivity|]. cbn [forallb lstrip].
  rewrite andb_true_iff. intros [Hc _]. now rewrite (digit_visible c Hc).
Qed.

Lemma strip_digits (s : str) : forallb is_digit s = true -> strip s = s.
Proof.
  intros H. unfold strip, rstrip. rewrite (lstrip_digits s H).
  rewrite lstrip_digits; [apply rev_involutive|].
  rewrite forallb_forall in *. intros c Hc. apply H, in_rev, Hc.
Qed.

Lemma lower_digits (s : str) : forallb is_digit s = true -> lower s = s.
Proof.
  induction s as [|c s IH]; [reflexivity|]. cbn [forallb lower map].
  rewrite andb_true_iff. intros [Hc Hs]. fold (lower s). rewrite (IH Hs).
  f_equal. unfold lower_char, is_digit in *.
  rewrite andb_true_iff, !N.leb_le in Hc.
  destruct (N.leb_spec 65 c); [lia|reflexivity].
Qed.

Lemma digit_not_ascii_space (c : char) :
  is_digit c = true -> ascii_space c = false.
Proof.
  unfold is_digit, ascii_space. rewrite andb_true_iff, !N.leb_le.
  intros [H1 H2].
  destruct (N.leb_spec 9 c); [|lia]. destruct (N.leb_spec c 13); [lia|].
  destruct (N.eqb_spec c 32); [lia|reflexivity].
Qed.

Lemma skip_spaces_digits (s : str) :
  forallb is_digit s = true -> skip_spaces s = s.
Proof.
  destruct s as [|c s]; [reflexivity|]. cbn [forallb skip_spaces].
  rewrite andb_true_iff. intros [Hc _].
  now rewrite (digit_not_ascii_space c Hc).
Qed.

Lemma skip_both_digits (s : str) :
  forallb is_digit s = true -> skip_both s = s.
Proof.
  intros H. unfold skip_both. rewrite (skip_spaces_digits s H).
  rewrite skip_spaces_digits; [apply rev_involutive|].
  rewrite forallb_forall in *. intros c Hc. apply H, in_rev, Hc.
Qed.

Lemma to_ascii_digits (s : str) :
  forallb is_digit s = true -> map to_ascii s = s.
Proof.
  induction s as [|c s IH]; [reflexivity|]. cbn [forallb map].
  rewrite andb_true_iff. intros [Hc Hs]. rewrite (IH Hs). f_equal.
  unfold to_ascii, is_digit in *.
  rewrite andb_true_iff, !N.leb_le in Hc.
  destruct (N.ltb_spec c 127); [reflexivity|lia].
Qed.

Lemma count_digits_all (s : str) :
  forallb is_digit s = true -> count_digits s = Z.of_nat (length s).
Proof.
  intros H. unfold count_digits. f_equal. f_equal.
  induction s as [|c s IH]; [reflexivity|]. cbn [forallb] in H.
  apply andb_true_iff in H. destruct H as [Hc Hs].
  cbn [filter]. unfold is_digit in Hc. rewrite Hc. f_equal. apply IH, Hs.
Qed.

Lemma split_sign_digits (s : str) :
  forallb is_digit s = true -> split_sign s = (false, s).
Proof.
  destruct s as [|c r]; [reflexivity|]. cbn [forallb].
  rewrite andb_true_iff. intros [Hc _]. unfold is_digit in Hc.
  rewrite andb_true_iff, !N.leb_le in Hc. unfold split_sign.
  destruct c as [|q]; [lia|].
  repeat (destruct q as [q|q|]; try (exfalso; lia); try reflexivity).
Qed.

Lemma py_int_digits (s : str) :
  forallb is_digit s = true ->
  Z.of_nat (length s) <= max_str_digits ->
  py_int s = match int_digits 0 false s with
             | Some n => Ok n
             | None => Raise ValueError
             end.
Proof.
  intros Hd Hlen. unfold py_int.
  rewrite (to_ascii_digits s Hd), (skip_both_digits s Hd),
    (split_sign_digits s Hd).
  unfold parse_digits. rewrite (count_digits_all s Hd).
  destruct (Z.ltb_spec max_str_digits (Z.of_nat (length s))); [lia|].
  destruct (int_digits 0 false s); reflexivity.
Qed.

(** [int(str(k)) = k] for a positive [k] of at most 4300 digits, as the
    prompt reads it: the text is its own stripped, lowered form, and is
    neither [q] nor [n]. *)
Lemma typed_number (p : positive) :
  let line := str_of_int (Z.pos p) in
  Z.of_nat (length line) <= max_str_digits ->
  lower (strip line) = line
  /\ py_int line = Ok (Z.pos p)
  /\ str_eqb line (lit "q") = false
  /\ str_eqb line (lit "n") = false.
Proof.
  cbv zeta. unfold str_of_int. cbn [Z.to_int DecimalString.NilZero.string_of_int].
  assert (Hnil : Pos.to_uint p <> Decimal.Nil).
  { intros E. pose proof (DecimalPos.Unsigned.of_to p) as H.
    rewrite E in H. discriminate H. }
  assert (Hs : DecimalString.NilZero.string_of_uint (Pos.to_uint p)
               = DecimalString.NilEmpty.string_of_uint (Pos.to_uint p)).
  { unfold DecimalString.NilZero.string_of_uint.
    destruct (Pos.to_uint p); [congruence|reflexivity..]. }
  rewrite Hs. set (d := Pos.to_uint p) in *.
  pose proof (digits_of_uint d) as Hd.
  set (s := lit (DecimalString.NilEmpty.string_of_uint d)) in *.
  intros Hlen.
  assert (Hhead : exists c r, s = c :: r /\ is_digit c = true).
  { subst s. destruct d; [congruence| | | | | | | | | |]; cbn; eauto. }
  destruct Hhead as (c & r & Es & Hc).
  split; [rewrite (strip_digits s Hd); apply (lower_digits s Hd)|].
  split.
  - rewrite (py_int_digits s Hd Hlen).
    subst s. rewrite (int_digits_first d 0 Hnil), uint_value_zero.
    subst d. rewrite DecimalPos.Unsigned.of_to. reflexivity.
  - rewrite Es. unfold is_digit in Hc.
    rewrite andb_true_iff, !N.leb_le in Hc.
    split; cbn [lit str_eqb];
      match goal with
      | |- (N.eqb c ?k && _) = false =>
          destruct (N.eqb_spec c k) as [E|E]; [|reflexivity];
          exfalso; vm_compute in E; lia
      end.
Qed.

End IntFacts.

Section InteractiveExtras.

Import Interactive.
Open Scope Z_scope.

Variable search_fics : Z -> list out_ev * result (list WorkRecord).
Variable display_works : list WorkRecord -> list out_ev * option exn.
Variable read_work : str -> list out_ev * option exn.

(** X13. Typing the number shown in front of a work, from 1 to the number
    of works listed (and of at most 4300 digits), reads exactly that work:
    its title is announced and its url is passed to [read_work].  When
    [read_work] returns, the command line is printed again and the loop
    goes on with the same list and page; when it raises, nothing more is
    printed, and the loop ends on [ValueError] and [KeyboardInterrupt] and
    lets any other exception out. *)
Theorem typed_number_reads_that_work (st : session) (k : Z) :
  1 <= k <= Z.of_nat (length (works st)) ->
  Z.of_nat (length (str_of_int k)) <= 4300 ->
  let work := nth (Z.to_nat (k - 1)) (works st) empty_work in
  let announced :=
    Prompt (lit "> ")
    :: Print (NL :: emoji_book ++ lit " Reading: " ++ title work)
    :: fst (read_work (url work)) in
  In work (works st)
  /\ interactive_pass search_fics display_works read_work st
                      (Line (str_of_int k))
     = match snd (read_work (url work)) with
       | None =>
           (announced
            ++ [Print (commands_line (Z.of_nat (length (works st))))],
            Continue st)
       | Some ValueError | Some KeyboardInterrupt => (announced, Break)
       | Some e => (announced, Propagate e)
       end.
Proof.
  intros Hk Hlen work announced. split; [apply nth_In; lia|].
  destruct k as [|p|p]; try lia.
  destruct (IntFacts.typed_number p Hlen) as (Hl & Hi & Hq & Hn).
  subst announced. unfold interactive_pass. cbn [read_input].
  rewrite Hl, Hq, Hn, Hi.
  destruct (Z.leb_spec 1 (Z.pos p)); [|lia].
  destruct (Z.leb_spec (Z.pos p) (Z.of_nat (length (works st)))); [|lia].
  cbn [andb]. fold work.
  destruct (read_work (url work)) as [out [[]|]]; reflexivity.
Qed.

(** X14. The prompt loop, whatever its collaborators do, ends in one of two
    ways only: it breaks, or an exception that is neither [ValueError] nor
    [KeyboardInterrupt] leaves it; and when the collaborators raise nothing
    but these two, the only exception that leaves it is the [EOFError] of
    [input] at the end of input. *)
Theorem interactive_loop_ends_by_break_or_uncaught_exception
        (st : session) (inputs : list input_ev) :
  let ending :=
    snd (interactive_loop search_fics display_works read_work st inputs) in
  (ending = Break
   \/ exists e, ending = Propagate e
                /\ e <> ValueError /\ e <> KeyboardInterrupt)
  /\ ((forall p e, snd (search_fics p) = Raise e ->
                   e = ValueError \/ e = KeyboardInterrupt) ->
      (forall ws e, snd (display_works ws) = Some e ->
                    e = ValueError \/ e = KeyboardInterrupt) ->
      (forall u e, snd (read_work u) = Some e ->
                   e = ValueError \/ e = KeyboardInterrupt) ->
      ending = Break \/ ending = Propagate EOFError).
Proof.
  cbv zeta.
  assert (Hexn : forall e,
             on_exception e = Break
             \/ (on_exception e = Propagate e
                 /\ e <> ValueError /\ e <> KeyboardInterrupt)).
  { intros []; cbn [on_exception]; auto; right; repeat split; discriminate. }
  assert (Hcaught : forall e,
             e = ValueError \/ e = KeyboardInterrupt ->
             on_exception e = Break).
  { intros e [-> | ->]; reflexivity. }
  (* how one pass ends, and on which exception *)
  assert (Hpass : forall s ev,
             (exists s', snd (interactive_pass search_fics display_works
                                               read_work s ev)
                         = Continue s')
             \/ snd (interactive_pass search_fics display_works read_work
                                      s ev) = Break
             \/ exists e,
                  snd (interactive_pass search_fics display_works read_work
                                        s ev) = Propagate e
                  /\ e <> ValueError /\ e <> KeyboardInterrupt
                  /\ (ev = Eof /\ e = EOFError
                      \/ (exists p, snd (search_fics p) = Raise e)
                      \/ (exists ws, snd (display_works ws) = Some e)
                      \/ (exists u, snd (read_work u) = Some e))).
  { intros s ev. unfold interactive_pass.
    destruct ev as [line| |]; cbn [read_input snd on_exception];
      [|right; left; reflexivity
       |right; right; exists EOFError;
        repeat split; try discriminate; left; split; reflexivity].
    destruct (str_eqb (lower (strip line)) (lit "q"));
      [right; left; reflexivity|].
    destruct (str_eqb (lower (strip line)) (lit "n")).
    - destruct (search_fics (page s + 1)) as [found [ws|e]] eqn:Es.
      + destruct (display_works ws) as [listed [e|]] eqn:Ed; cbn [snd];
          [|left; eexists; reflexivity].
        destruct (Hexn e) as [H|(H & H1 & H2)]; rewrite H;
          [right; left; reflexivity|].
        right; right. exists e. repeat split; try assumption.
        right; right; left. exists ws. rewrite Ed. reflexivity.
      + cbn [snd]. destruct (Hexn e) as [H|(H & H1 & H2)]; rewrite H;
          [right; left; reflexivity|].
        right; right. exists e. repeat split; try assumption.
        right; left. exists (page s + 1). rewrite Es. reflexivity.
    - destruct (py_int (lower (strip line))) as [num|e] eqn:Ei.
      + destruct ((1 <=? num) && (num <=? Z.of_nat (length (works s))));
          [|left; eexists; reflexivity].
        set (work := nth (Z.to_nat (num - 1)) (works s) empty_work).
        destruct (read_work (url work)) as [out [e|]] eqn:Er; cbn [snd];
          [|left; eexists; reflexivity].
        destruct (Hexn e) as [H|(H & H1 & H2)]; rewrite H;
          [right; left; reflexivity|].
        right; right. exists e. repeat split; try assumption.
        right; right; right. exists (url work). rewrite Er. reflexivity.
      + rewrite (py_int_raises _ _ Ei). right; left. reflexivity. }
  assert (Hloop : forall inputs s,
             snd (interactive_loop search_fics display_works read_work
                                   s inputs) = Break
             \/ exists e,
                  snd (interactive_loop search_fics display_works read_work
                                        s inputs) = Propagate e
                  /\ e <> ValueError /\ e <> KeyboardInterrupt
                  /\ (e = EOFError
                      \/ (exists p, snd (search_fics p) = Raise e)
                      \/ (exists ws, snd (display_works ws) = Some e)
                      \/ (exists u, snd (read_work u) = Some e))).
  { clear st inputs.
    induction inputs as [|ev rest IH]; intros s; cbn [interactive_loop].
    - destruct (Hpass s Eof) as [[s' H]|[H|(e & H & H1 & H2 & H3)]].
      + exfalso. unfold interactive_pass in H.
        cbn [read_input snd on_exception] in H. discriminate H.
      + left. exact H.
      + right. exists e. repeat split; try assumption.
        destruct H3 as [[_ H3]|H3]; [left; exact H3|right; exact H3].
    - destruct (Hpass s ev) as [[s' H]|[H|(e & H & H1 & H2 & H3)]];
        destruct (interactive_pass search_fics display_works read_work s ev)
        as [out c]; cbn [snd] in H; subst c.
      + specialize (IH s').
        destruct (interactive_loop search_fics display_works read_work
                                   s' rest).
        exact IH.
      + left. reflexivity.
      + right. exists e. repeat split; try assumption.
        destruct H3 as [[_ H3]|H3]; [left; exact H3|right; exact H3]. }
  split.
  - destruct (Hloop inputs st) as [H|(e & H & H1 & H2 & _)];
      [left; exact H|right; exists e; auto].
  - intros Hs Hd Hr.
    destruct (Hloop inputs st) as [H|(e & H & H1 & H2 & H3)];
      [left; exact H|right].
    destruct H3 as [->|[(p & H3)|[(ws & H3)|(u & H3)]]];
      [exact H| | |].
    + destruct (Hs p e H3); congruence.
    + destruct (Hd ws e H3); congruence.
    + destruct (Hr u e H3); congruence.
Qed.

End InteractiveExtras.

Lemma typed_number_reads_that_work_witness :
  In Samples.untitled_record (Interactive.works Samples.session_one)
  /\ Interactive.interactive_pass Samples.no_results Samples.silent
                                  Samples.silent Samples.session_one
                                  (Line (lit "1"))
     = ([Prompt (lit "> ");
         Print (NL :: emoji_book ++ lit " Reading: A Story");
         Print (NL :: lit "Commands: 1-1 (read), n (next page), q (quit):")],
        Interactive.Continue Samples.session_one).
Proof.
  apply (typed_number_reads_that_work
           Samples.no_results Samples.silent Samples.silent
           Samples.session_one 1%Z).
  - vm_compute. split; discriminate.
  - vm_compute. discriminate.
Defined.

(** A digit of another script is a number at the prompt: [U+FF11] reads
    work 1. *)
Example fullwidth_digit_reads_work :
  Interactive.interactive_pass Samples.no_results Samples.silent
                               Samples.silent Samples.session_one
                               (Line [65297%N])
  = ([Prompt (lit "> ");
      Print (NL :: emoji_book ++ lit " Reading: A Story");
      Print (NL :: lit "Commands: 1-1 (read), n (next page), q (quit):")],
     Interactive.Continue Samples.session_one).
Proof. vm_compute. reflexivity. Qed.

(** A [read_work] that is interrupted, as by Ctrl-C at the pager's last
    prompt, ends the prompt loop: the command line is not printed. *)
Example interrupted_read_ends_loop :
  Interactive.interactive_loop Samples.no_results Samples.silent
                               Samples.interrupted Samples.session_one
                               [Line (lit "1"); Line (lit "1")]
  = ([Prompt (lit "> ");
      Print (NL :: emoji_book ++ lit " Reading: A Story");
      Print (lit "...")],
     Interactive.Break).
Proof. vm_compute. reflexivity. Qed.

(** ** Paragraph elements *)

Section ParagraphElements.

Import ParagraphFacts StripFacts.

Lemma chapter_text_children (nm : str) (a : list (str * str))
      (cs : list node) :
  chapter_text_of (Tag nm a cs) = flat_map reconstruct_spec cs.
Proof.
  rewrite chapter_text_of_Tag.
  induction cs as [|c cs IH]; [reflexivity|].
  rewrite rewritten_cons, flat_map_app, rewritten_child_text, IH. reflexivity.
Qed.

Lemma paragraph_nodes_text (attrs : list (str * str)) (ps : list str) :
  ps <> [] ->
  flat_map reconstruct_spec (paragraph_nodes attrs ps)
  = plain_text ps ++ [NL; NL].
Proof.
  unfold plain_text. induction ps as [|p ps IH]; [congruence|]. intros _.
  cbn [paragraph_nodes map flat_map]. fold (paragraph_nodes attrs ps).
  assert (Ep : reconstruct_spec (Tag (lit "p") attrs [NavigableString p])
               = p ++ [NL; NL]).
  { cbn. rewrite app_nil_r. reflexivity. }
  rewrite Ep. destruct ps as [|q qs].
  - cbn. now rewrite app_nil_r.
  - rewrite IH by discriminate.
    change (join [NL; NL] (p :: q :: qs))
      with (p ++ [NL; NL] ++ join [NL; NL] (q :: qs)).
    rewrite <- !app_assoc. reflexivity.
Qed.

Lemma strip_blank_line_after (s : str) :
  (exists c r, s = c :: r /\ isspace c = false) ->
  ends_visible s = true ->
  strip (s ++ [NL; NL]) = s.
Proof.
  intros (c & r & -> & Hc) He. unfold strip. cbn [app lstrip]. rewrite Hc.
  unfold rstrip. change (c :: r ++ [NL; NL]) with ((c :: r) ++ [NL; NL]).
  rewrite rev_app_distr. change (rev [NL; NL]) with [NL; NL].
  destruct (ends_visible_rev (c :: r)) as (x & t & E & Hx);
    [discriminate|exact He|].
  rewrite E. cbn [app lstrip]. change (isspace NL) with true. cbv iota.
  rewrite Hx, <- E. apply rev_involutive.
Qed.

(** X15. A chapter written as paragraph elements reads as those
    paragraphs: when every element holds a text that starts and ends with a
    visible character and has no blank line inside, the formatter finds
    exactly these texts as its paragraphs, one per element and in order. *)
Theorem paragraph_elements_become_paragraphs
        (nm : str) (a attrs : list (str * str)) (ps : list str) :
  forallb clean_paragraph ps = true ->
  paragraphs (chapter_text_of (Tag nm a (paragraph_nodes attrs ps))) = ps.
Proof.
  intros H. rewrite chapter_text_children.
  destruct ps as [|p ps]; [reflexivity|].
  rewrite paragraph_nodes_text by discriminate.
  destruct (plain_text_shape (p :: ps)) as (Hh & Hv); [discriminate|exact H|].
  rewrite <- (paragraphs_plain_text (p :: ps) H) at 2.
  unfold paragraphs.
  rewrite (strip_blank_line_after _ Hh Hv), (strip_visible _ Hh Hv).
  reflexivity.
Qed.

End ParagraphElements.

Lemma paragraph_elements_become_paragraphs_witness :
  paragraphs (chapter_text_of
                (Tag (lit "div") (Samples.cls "userstuff")
                     (paragraph_nodes [] Samples.two_plain)))
  = Samples.two_plain.
Proof.
  apply (paragraph_elements_become_paragraphs
           (lit "div") (Samples.cls "userstuff") [] Samples.two_plain).
  vm_compute. reflexivity.
Defined.

(** ** Sample runs *)

Section ExtraWitnesses.

Import Pager.
Open Scope Z_scope.

Lemma pager_shows_whole_text_witness :
  snd (manual_pager None (lit "a" ++ [NL] ++ lit "b") [Line []]) = Ended
  /\ printed (fst (manual_pager None (lit "a" ++ [NL] ++ lit "b") [Line []]))
     = split NL (lit "a" ++ [NL] ++ lit "b") ++ [end_message].
Proof.
  apply (pager_shows_whole_text None (lit "a" ++ [NL] ++ lit "b") [Line []]).
  - reflexivity.
  - reflexivity.
  - vm_compute. discriminate.
Defined.

Lemma pager_shows_nothing_on_short_terminal_witness :
  printed (fst (pager_loop Samples.fifty_lines (terminal_height (Some 2)) 0
                           [Line []; Line (lit "b")])) = [].
Proof.
  apply (pager_shows_nothing_on_short_terminal
           Samples.fifty_lines (terminal_height (Some 2))
           [Line []; Line (lit "b")] 0).
  vm_compute. discriminate.
Defined.

Lemma pager_back_undoes_advance_witness :
  pager_loop Samples.fifty_lines 20 0 [Line []; Line (lit "B"); Line (lit "q")]
  = (map Print (slice Samples.fifty_lines 0 (0 + 20))
     ++ [Prompt (page_prompt 0 (0 + 20) (len Samples.fifty_lines))]
     ++ map Print (slice Samples.fifty_lines (0 + 20) (0 + 20 + 20))
     ++ [Prompt (page_prompt (0 + 20) (0 + 20 + 20) (len Samples.fifty_lines))]
     ++ fst (pager_loop Samples.fifty_lines 20 0 [Line (lit "q")]),
     snd (pager_loop Samples.fifty_lines 20 0 [Line (lit "q")])).
Proof.
  apply (pager_back_undoes_advance Samples.fifty_lines 20 0 (Line [])
                                   (lit "B") [Line (lit "q")]).
  - lia.
  - lia.
  - vm_compute. reflexivity.
  - reflexivity.
  - reflexivity.
Defined.

Lemma pager_interrupt_and_end_of_input_witness :
  snd (pager_loop Samples.fifty_lines 20 0 [Interrupt]) = Ended
  /\ snd (pager_loop Samples.fifty_lines 20 40 [Interrupt])
     = Raised KeyboardInterrupt
  /\ snd (pager_loop Samples.fifty_lines 20 40 []) = Raised EOFError.
Proof.
  destruct (pager_interrupt_and_end_of_input Samples.fifty_lines 20 0 [])
    as (Hpage & _ & _ & _); [vm_compute; split; [discriminate|reflexivity]|].
  destruct (pager_interrupt_and_end_of_input Samples.fifty_lines 20 40 [])
    as (_ & Hend & _ & Heof);
    [vm_compute; split; [discriminate|reflexivity]|].
  split; [rewrite Hpage; [reflexivity|vm_compute; reflexivity]|].
  split; [rewrite Hend; [reflexivity|vm_compute; discriminate]|exact Heof].
Defined.

Lemma read_work_ignores_chapter_without_chapter_list_witness :
  read_work (fun _ => Samples.two_paragraphs) Textwrap.simple_split
            (fun _ => None) 80
            (Some {| response_ok := true; response_text := [] |}) 1 false
  = read_work (fun _ => Samples.two_paragraphs) Textwrap.simple_split
              (fun _ => None) 80
              (Some {| response_ok := true; response_text := [] |}) 7 false.
Proof.
  apply (read_work_ignores_chapter_without_chapter_list
           (fun _ => Samples.two_paragraphs) Textwrap.simple_split
           (fun _ => None) 80
           (Some {| response_ok := true; response_text := [] |}) 1 7 false).
  intros resp _. vm_compute. discriminate.
Defined.

(** A pager that is interrupted lets the interrupt out of [read_work]; one
    that meets the end of input has its [EOFError] reported, on a terminal
    of any width. *)
Example read_work_pager_exceptions :
  read_work (fun _ => Samples.two_paragraphs) Textwrap.simple_split
            (fun _ => Some KeyboardInterrupt) 80
            (Some {| response_ok := true; response_text := [] |}) 1 true
  = Raise KeyboardInterrupt
  /\ read_work (fun _ => Samples.two_paragraphs) Textwrap.simple_split
               (fun _ => Some EOFError) 80
               (Some {| response_ok := true; response_text := [] |}) 1 true
     = Ok (Reported EOFError).
Proof. split; vm_compute; reflexivity. Qed.

End ExtraWitnesses.

(** ** Searching *)

Lemma join_space_is_work (toks : list str) :
  join [SP] toks = lit "work" -> In (lit "work") toks.
Proof.
  destruct toks as [|a [|b l]].
  - discriminate.
  - cbn [join]. intros ->. left. reflexivity.
  - change (join [SP] (a :: b :: l)) with (a ++ SP :: join [SP] (b :: l)).
    intros E. exfalso.
    assert (H : In SP (lit "work")).
    { rewrite <- E. apply in_or_app. right. left. reflexivity. }
    cbn in H. repeat (destruct H as [H|H]; [discriminate H|]). exact H.
Qed.

(** X16. The items of a results page are the [li] elements of the document
    whose [class] attribute has ["work"] among its whitespace-separated
    tokens: other classes may come with it, and a class that merely
    contains the letters does not count. *)
Theorem work_items_are_li_with_work_class (soup item : node) :
  In item (work_items soup)
  <-> In item (descendants soup)
      /\ exists attrs contents classes,
          item = Tag (lit "li") attrs contents
          /\ lookup (lit "class") attrs = Some classes
          /\ In (lit "work") (tokens classes).
Proof.
  unfold work_items, find_all. rewrite filter_In.
  split; intros [Hd Hm]; (split; [exact Hd|]).
  - destruct item as [nm attrs cs|s|s]; cbn [matches] in Hm;
      try discriminate.
    rewrite andb_true_iff in Hm. destruct Hm as [Hn Ha].
    cbn [existsb] in Hn. rewrite orb_false_r in Hn.
    apply str_eqb_eq in Hn. subst nm.
    cbn [forallb attr_matches] in Ha. rewrite andb_true_r in Ha.
    destruct (lookup (lit "class") attrs) as [v|] eqn:El; [|discriminate].
    exists attrs, cs, v. split; [reflexivity|]. split; [exact El|].
    change (is_list_attr (lit "li") (lit "class")) with true in Ha.
    cbv iota in Ha. apply orb_true_iff in Ha. destruct Ha as [Ha|Ha].
    + apply existsb_exists in Ha. destruct Ha as (t & Ht & Et).
      apply str_eqb_eq in Et. now subst t.
    + apply str_eqb_eq in Ha. apply join_space_is_work, Ha.
  - destruct Hm as (attrs & cs & v & -> & Hl & Hin).
    cbn [matches existsb forallb attr_matches]. rewrite Hl.
    change (is_list_attr (lit "li") (lit "class")) with true. cbv iota.
    rewrite str_eqb_refl. cbn [orb andb]. rewrite andb_true_r.
    apply orb_true_iff. left. apply existsb_exists.
    exists (lit "work"). split; [exact Hin|apply str_eqb_refl].
Qed.

Section SearchTheorems.

Variable BeautifulSoup : str -> node.
Variable urljoin : str -> str -> option str.

(** X17. [search_fics] never raises: when the request fails or is answered
    with an error status the result is the empty list; otherwise it is, in
    page order, the record of every item of the answered page whose
    extraction returned one. *)
Theorem search_fics_returns_records_or_nothing (fetched : option Response) :
  exists ws,
    search_fics BeautifulSoup urljoin fetched = Ok ws
    /\ match fetched with
       | None => ws = []
       | Some response =>
           if response_ok response
           then ws = flat_map (fun item =>
                                 match work_record urljoin item with
                                 | Ok (Some r) => [r]
                                 | Ok None => []
                                 | Raise _ => []
                                 end)
                              (work_items (BeautifulSoup
                                             (response_text response)))
           else ws = []
       end.
Proof.
  unfold search_fics. destruct fetched as [response|];
    [|exists []; split; reflexivity].
  destruct (response_ok response); [|exists []; split; reflexivity].
  unfold parse_search_results. rewrite parse_items_acc. cbn [app].
  eexists. split; reflexivity.
Qed.

End SearchTheorems.

(** ** Listing works *)

Section ListingTheorems.

Open Scope Z_scope.

Variable fill_indented : str -> Z -> str -> str -> result str.

Lemma display_entries_without_summary (terminal_width : Z)
      (works : list WorkRecord) :
  Forall (fun w => summary w = []) works ->
  forall i, snd (display_entries fill_indented terminal_width i works) = None.
Proof.
  induction 1 as [|w ws Hw _ IH]; intros i; cbn [display_entries];
    [reflexivity|].
  unfold display_entry. rewrite Hw. cbn [nonempty].
  specialize (IH (i + 1)).
  destruct (display_entries fill_indented terminal_width (i + 1) ws).
  exact IH.
Qed.

Lemma display_entries_narrow (terminal_width : Z) (works : list WorkRecord) :
  (forall text width initial subsequent,
      width <= 0 ->
      fill_indented text width initial subsequent = Raise ValueError) ->
  terminal_width <= 6 ->
  Exists (fun w => summary w <> []) works ->
  forall i,
    snd (display_entries fill_indented terminal_width i works)
    = Some ValueError.
Proof.
  intros Hfill Hw. induction works as [|w ws IH]; intros Hex i.
  - inversion Hex.
  - cbn [display_entries]. unfold display_entry.
    destruct (summary w) as [|c t] eqn:Es; cbn [nonempty].
    + assert (Hrest : Exists (fun w => summary w <> []) ws).
      { inversion Hex as [? ? H|? ? H]; subst; [rewrite Es in H|exact H].
        congruence. }
      specialize (IH Hrest (i + 1)).
      destruct (display_entries fill_indented terminal_width (i + 1) ws).
      exact IH.
    + rewrite Hfill by lia. reflexivity.
Qed.

(** X18. Listing works fails only through the wrapping of a summary: a
    list without summaries is printed completely at every terminal width
    (the empty list as the single line "No works found."), while at a
    terminal width of at most 6, where the library rejects the wrap width,
    a list holding a work with a summary ends in [ValueError]. *)
Theorem display_works_fails_on_narrow_terminal
        (terminal_width : Z) (works : list WorkRecord) :
  (forall text width initial subsequent,
      width <= 0 ->
      fill_indented text width initial subsequent = Raise ValueError) ->
  (Forall (fun w => summary w = []) works ->
   snd (display_works fill_indented terminal_width works) = None)
  /\ (terminal_width <= 6 ->
      Exists (fun w => summary w <> []) works ->
      snd (display_works fill_indented terminal_width works)
      = Some ValueError)
  /\ display_works fill_indented terminal_width []
     = ([Print (lit "No works found.")], None).
Proof.
  intros Hfill. split; [|split; [|reflexivity]].
  - intros H. unfold display_works. destruct (nonempty works); [|reflexivity].
    pose proof (display_entries_without_summary terminal_width works H 1) as E.
    destruct (display_entries fill_indented terminal_width 1 works).
    exact E.
  - intros Hw Hex. unfold display_works.
    destruct works as [|w ws]; [inversion Hex|]. cbn [nonempty].
    pose proof (display_entries_narrow terminal_width (w :: ws) Hfill Hw Hex 1)
      as E.
    destruct (display_entries fill_indented terminal_width 1 (w :: ws)).
    exact E.
Qed.

End ListingTheorems.

Lemma display_works_fails_on_narrow_terminal_witness :
  snd (display_works Samples.fill_one_line 6 Samples.results_records)
  = Some ValueError
  /\ snd (display_works Samples.fill_one_line 6 [Samples.heading_only_record])
     = None.
Proof.
  destruct (display_works_fails_on_narrow_terminal
              Samples.fill_one_line 6 Samples.results_records) as (_ & H & _).
  - intros text width initial subsequent Hw. unfold Samples.fill_one_line.
    destruct (Z.leb_spec width 0); [reflexivity|lia].
  - destruct (display_works_fails_on_narrow_terminal
                Samples.fill_one_line 6 [Samples.heading_only_record])
      as (H' & _ & _).
    + intros text width initial subsequent Hw. unfold Samples.fill_one_line.
      destruct (Z.leb_spec width 0); [reflexivity|lia].
    + split; [apply H|apply H'].
      * lia.
      * left. discriminate.
      * constructor; [reflexivity|constructor].
Defined.
